(** * Pendor: the comment subsystem

  A shallow embedding of
  - the [useComments] hook (fetchComments, createComment, likeComment),
  - the comments / comment_likes migration with its policies, constraints,
    cascades and counter triggers,
  - the render of the [PredictionCard] component,
  followed by the properties proved about them.

  The hook runs against a world made of the hosted database, the two
  useState cells, the console, the toasts and the trace of store calls.
  Each awaited store call is answered by the outside: it is served by the
  database, comes back as an error, or its promise rejects.  The database is
  the one the migration defines; a statement is refused exactly when a
  policy, a CHECK, a key or a foreign key of the migration refuses it. *)

From Stdlib Require Import List String Ascii ZArith NArith Bool Lia Sorted Permutation.
From Stdlib Require Import DecimalString.
Import ListNotations.
Local Open Scope string_scope.
Local Open Scope list_scope.
Local Open Scope Z_scope.
Set Warnings "-register-all".

(* ================================================================== *)
(** ** JavaScript values used by the hook *)

Module Js.

(** Text content is kept as its sequence of Unicode code points. *)
Definition text := list N.

Definition text_of_string (s : string) : text :=
  map N_of_ascii (list_ascii_of_string s).

(** ECMAScript WhiteSpace and LineTerminator code points, the set that
    [String.prototype.trim] strips. *)
Definition isWhiteSpace (c : N) : bool :=
  ((c =? 0x0009) || (c =? 0x000A) || (c =? 0x000B) || (c =? 0x000C)
   || (c =? 0x000D) || (c =? 0x0020) || (c =? 0x00A0) || (c =? 0x1680)
   || ((0x2000 <=? c) && (c <=? 0x200A))
   || (c =? 0x2028) || (c =? 0x2029) || (c =? 0x202F) || (c =? 0x205F)
   || (c =? 0x3000) || (c =? 0xFEFF))%N.

Fixpoint trimStart (s : text) : text :=
  match s with
  | [] => []
  | c :: s' => if isWhiteSpace c then trimStart s' else s
  end.

Definition trimEnd (s : text) : text := rev (trimStart (rev s)).

Definition trim (s : text) : text := trimEnd (trimStart s).

(** Truthiness of the values the hook tests with [!]. *)
Definition truthy_string (s : string) : bool :=
  negb (String.eqb s "").

Definition truthy_text (s : text) : bool :=
  match s with [] => false | _ :: _ => true end.

Definition truthy_opt_string (s : option string) : bool :=
  match s with
  | None => false
  | Some s => truthy_string s
  end.

(** [a === b] where [a] may be null/undefined and [b] is a string. *)
Definition strict_eq_opt (a : option string) (b : string) : bool :=
  match a with
  | None => false
  | Some a => String.eqb a b
  end.

(** [Array.prototype.includes] on an array of strings. *)
Definition includes (l : list string) (x : string) : bool :=
  existsb (String.eqb x) l.

End Js.

(* ================================================================== *)
(** ** The relational store of the migration *)

Module Store.

(** UUID columns hold strings, timestamps are counted in microseconds. *)
Abbreviation uuid := string (only parsing).
Abbreviation timestamptz := Z (only parsing).

(** public.comments *)
Record comment_row := mk_comment_row {
  c_id : uuid;
  c_user_id : uuid;
  c_post_id : uuid;
  c_content : Js.text;
  c_parent_id : option uuid;
  c_likes_count : option Z;          (* INTEGER DEFAULT 0, nullable *)
  c_created_at : timestamptz;
  c_updated_at : timestamptz
}.

(** public.comment_likes *)
Record like_row := mk_like_row {
  l_id : uuid;
  l_comment_id : uuid;
  l_user_id : uuid;
  l_created_at : timestamptz
}.

(** public.posts: only the key and the counter column the migration adds. *)
Record post_row := mk_post_row {
  p_id : uuid;
  p_comments : option Z              (* INTEGER DEFAULT 0, nullable *)
}.

(** public.profiles: the columns the hook selects through the join. *)
Record profile_row := mk_profile_row {
  pr_id : uuid;
  pr_username : option string;
  pr_display_name : option string;
  pr_avatar_url : option string;
  pr_badge : option string
}.

Record DB := mk_DB {
  auth_users : list uuid;
  posts : list post_row;
  profiles : list profile_row;
  comments : list comment_row;
  comment_likes : list like_row
}.

Definition set_posts (ps : list post_row) (db : DB) : DB :=
  mk_DB (auth_users db) ps (profiles db) (comments db) (comment_likes db).

Definition set_comments (cs : list comment_row) (db : DB) : DB :=
  mk_DB (auth_users db) (posts db) (profiles db) cs (comment_likes db).

Definition set_comment_likes (ls : list like_row) (db : DB) : DB :=
  mk_DB (auth_users db) (posts db) (profiles db) (comments db) ls.

Inductive PgError :=
| RlsViolation
| CheckViolation
| UniqueViolation
| ForeignKeyViolation
| NotSingleRow.

Inductive TgOp := INSERT | DELETE | UPDATE.

(** *** Trigger functions *)

Definition bump (d : Z) (n : option Z) : option Z :=
  option_map (fun n => n + d) n.

Definition set_likes_count (n : option Z) (c : comment_row) : comment_row :=
  mk_comment_row (c_id c) (c_user_id c) (c_post_id c) (c_content c)
    (c_parent_id c) n (c_created_at c) (c_updated_at c).

(** update_comment_likes_count(): [likes_count + 1] on INSERT,
    [likes_count - 1] on DELETE, for the comment the like row names. *)
Definition update_comment_likes_count (TG_OP : TgOp) (r : like_row) (db : DB) : DB :=
  let upd d :=
    set_comments
      (map (fun c => if String.eqb (c_id c) (l_comment_id r)
                     then set_likes_count (bump d (c_likes_count c)) c
                     else c)
           (comments db)) db in
  match TG_OP with
  | INSERT => upd 1
  | DELETE => upd (-1)
  | UPDATE => db
  end.

(** SELECT COUNT( * ) FROM comments WHERE post_id = p *)
Definition count_comments (p : uuid) (db : DB) : Z :=
  Z.of_nat (List.length (filter (fun c => String.eqb (c_post_id c) p) (comments db))).

(** update_post_comments_count(): an exact recount for the row's post. *)
Definition update_post_comments_count (TG_OP : TgOp) (r : comment_row) (db : DB) : DB :=
  let recount :=
    set_posts
      (map (fun p => if String.eqb (p_id p) (c_post_id r)
                     then mk_post_row (p_id p) (Some (count_comments (c_post_id r) db))
                     else p)
           (posts db)) db in
  match TG_OP with
  | INSERT => recount
  | DELETE => recount
  | UPDATE => db
  end.

(** *** Statements *)

Definition has_id (ids : list uuid) (x : uuid) : bool :=
  existsb (String.eqb x) ids.

(** auth.uid() = owner, false when there is no session. *)
Definition owned_by (uid : option uuid) (owner : uuid) : bool :=
  match uid with
  | Some u => String.eqb u owner
  | None => false
  end.

Record comment_values := mk_comment_values {
  v_user_id : uuid;
  v_post_id : uuid;
  v_content : Js.text;
  v_parent_id : option uuid
}.

(** INSERT INTO comments (user_id, post_id, content, parent_id) ...
    RETURNING *.  [new_id] and [now] are what gen_random_uuid() and now()
    yield for this statement.  The row-level policy is checked first, then
    the CHECK constraint, the primary key, and the foreign keys (the one on
    parent_id sees the new row); the AFTER INSERT trigger runs last. *)
Definition insert_comment (uid : option uuid) (new_id : uuid) (now : timestamptz)
    (v : comment_values) (db : DB) : PgError + (comment_row * DB) :=
  let row := mk_comment_row new_id (v_user_id v) (v_post_id v) (v_content v)
               (v_parent_id v) (Some 0) now now in
  if negb (owned_by uid (v_user_id v)) then inl RlsViolation
  else if negb (Nat.leb (List.length (v_content v)) 1000) then inl CheckViolation
  else if has_id (map c_id (comments db)) new_id then inl UniqueViolation
  else if negb (has_id (auth_users db) (v_user_id v)) then inl ForeignKeyViolation
  else if negb (has_id (map p_id (posts db)) (v_post_id v)) then inl ForeignKeyViolation
  else if negb (match v_parent_id v with
                | None => true
                | Some p => has_id (map c_id (comments db ++ [row])) p
                end) then inl ForeignKeyViolation
  else
    let db1 := set_comments (comments db ++ [row]) db in
    inr (row, update_post_comments_count INSERT row db1).

(** ON DELETE CASCADE along parent_id: a row goes when it is a target of
    the statement or its parent goes.  Every row has at most one parent, so
    following the chain for as many steps as the table has rows decides it. *)
Fixpoint cascades (fuel : nat) (t : list comment_row) (target : comment_row -> bool)
    (c : comment_row) : bool :=
  target c ||
  match fuel with
  | O => false
  | S k =>
      match c_parent_id c with
      | None => false
      | Some p =>
          existsb (fun q => String.eqb (c_id q) p && cascades k t target q) t
      end
  end.

(** The rows a DELETE on comments removes: the caller's own rows that match,
    and whatever cascades from them. *)
Definition removed_comments (uid : option uuid) (where_ : comment_row -> bool)
    (db : DB) : comment_row -> bool :=
  cascades (List.length (comments db)) (comments db)
    (fun c => where_ c && owned_by uid (c_user_id c)).

(** DELETE FROM comments WHERE where_.  The policy restricts the statement
    to the caller's own rows; replies and likes of removed rows are removed
    by the cascades; the AFTER DELETE row triggers of both tables run for
    every removed row, once the rows are gone. *)
Definition delete_comments (uid : option uuid) (where_ : comment_row -> bool)
    (db : DB) : DB :=
  let doomed := removed_comments uid where_ db in
  let gone := filter doomed (comments db) in
  let kept := filter (fun c => negb (doomed c)) (comments db) in
  let orphan l := has_id (map c_id gone) (l_comment_id l) in
  let gone_likes := filter orphan (comment_likes db) in
  let kept_likes := filter (fun l => negb (orphan l)) (comment_likes db) in
  let db1 := set_comment_likes kept_likes (set_comments kept db) in
  let db2 := fold_left (fun d l => update_comment_likes_count DELETE l d) gone_likes db1 in
  fold_left (fun d c => update_post_comments_count DELETE c d) gone db2.

(** The like row of a user on a comment. *)
Definition like_of (comment_id user_id : uuid) (l : like_row) : bool :=
  String.eqb (l_comment_id l) comment_id && String.eqb (l_user_id l) user_id.

(** INSERT INTO comment_likes (comment_id, user_id). *)
Definition insert_like (uid : option uuid) (new_id : uuid) (now : timestamptz)
    (comment_id user_id : uuid) (db : DB) : PgError + (like_row * DB) :=
  let row := mk_like_row new_id comment_id user_id now in
  if negb (owned_by uid user_id) then inl RlsViolation
  else if has_id (map l_id (comment_likes db)) new_id then inl UniqueViolation
  else if existsb (like_of comment_id user_id) (comment_likes db)
       then inl UniqueViolation
  else if negb (has_id (map c_id (comments db)) comment_id) then inl ForeignKeyViolation
  else if negb (has_id (auth_users db) user_id) then inl ForeignKeyViolation
  else
    let db1 := set_comment_likes (comment_likes db ++ [row]) db in
    inr (row, update_comment_likes_count INSERT row db1).

(** DELETE FROM comment_likes WHERE where_, restricted by the policy to the
    caller's own rows; the AFTER DELETE trigger runs for each removed row. *)
Definition delete_likes (uid : option uuid) (where_ : like_row -> bool)
    (db : DB) : DB :=
  let target l := where_ l && owned_by uid (l_user_id l) in
  let gone := filter target (comment_likes db) in
  let kept := filter (fun l => negb (target l)) (comment_likes db) in
  let db1 := set_comment_likes kept db in
  fold_left (fun d l => update_comment_likes_count DELETE l d) gone db1.

(** *** Queries *)

(** ORDER BY created_at ASC, as a stable insertion sort. *)
Fixpoint insert_sorted (r : comment_row) (l : list comment_row) : list comment_row :=
  match l with
  | [] => [r]
  | x :: xs =>
      if c_created_at r <=? c_created_at x then r :: l
      else x :: insert_sorted r xs
  end.

Definition order_by_created_at (l : list comment_row) : list comment_row :=
  fold_right insert_sorted [] l.

Definition created_le (a b : comment_row) : Prop :=
  c_created_at a <= c_created_at b.

(** A comment row with its embedded profile (null when there is none). *)
Record joined_row := mk_joined_row {
  j_comment : comment_row;
  j_profiles : option profile_row
}.

Definition join_profile (db : DB) (c : comment_row) : joined_row :=
  mk_joined_row c
    (find (fun p => String.eqb (pr_id p) (c_user_id c)) (profiles db)).

(** from('comments').select('*, profiles!...').eq('post_id', p)
    .order('created_at', ascending) *)
Definition select_comments (p : uuid) (db : DB) : list joined_row :=
  map (join_profile db)
    (order_by_created_at
       (filter (fun c => String.eqb (c_post_id c) p) (comments db))).

(** from('comment_likes').select('comment_id').eq('user_id', u) *)
Definition select_user_likes (u : uuid) (db : DB) : list uuid :=
  map l_comment_id
    (filter (fun l => String.eqb (l_user_id l) u) (comment_likes db)).

(** ... .eq('comment_id', c).eq('user_id', u).single(): the row when there
    is exactly one, an error otherwise. *)
Definition select_like_single (comment_id user_id : uuid) (db : DB)
    : PgError + like_row :=
  match filter (like_of comment_id user_id) (comment_likes db) with
  | [l] => inr l
  | _ => inl NotSingleRow
  end.

(** *** Reading the comments table *)

(** The root-level rows of a post: no parent. *)
Definition is_root_of (p : uuid) (c : comment_row) : bool :=
  String.eqb (c_post_id c) p
  && match c_parent_id c with None => true | Some _ => false end.

(** The rows of a post whose parent is [parent]. *)
Definition is_reply_to (p parent : uuid) (c : comment_row) : bool :=
  String.eqb (c_post_id c) p
  && match c_parent_id c with None => false | Some q => String.eqb q parent end.

(** parent_id is a UUID column: it never holds the empty string. *)
Definition parents_are_uuids (db : DB) : Prop :=
  forall c, In c (comments db) -> c_parent_id c <> Some "".

(** id is the primary key of comments. *)
Definition primary_key (db : DB) : Prop :=
  NoDup (map c_id (comments db)).

(** The counter of post [p] holds [n], on every posts row with that key. *)
Definition counter_is (db : DB) (p : uuid) (n : Z) : Prop :=
  forall row, In row (posts db) -> p_id row = p -> p_comments row = Some n.

(** The counter of post [p] is the number of comment rows of [p]. *)
Definition counter_exact (db : DB) (p : uuid) : Prop :=
  counter_is db p (count_comments p db).

(** likes_count of comment [c] is the number of like rows of [c]. *)
Definition count_likes (c : uuid) (db : DB) : Z :=
  Z.of_nat (List.length
              (filter (fun l => String.eqb (l_comment_id l) c) (comment_likes db))).

Definition likes_exact (db : DB) (c : uuid) : Prop :=
  forall row, In row (comments db) -> c_id row = c ->
              c_likes_count row = Some (count_likes c db).

(** Whether user [u] has a like row on comment [c]. *)
Definition has_like (db : DB) (c u : uuid) : bool :=
  existsb (like_of c u) (comment_likes db).

(** UNIQUE(comment_id, user_id) on comment_likes. *)
Definition unique_likes (db : DB) : Prop :=
  forall c u, (List.length (filter (like_of c u) (comment_likes db)) <= 1)%nat.

(** The foreign keys of comment_likes: the comment and the user exist. *)
Definition likes_reference (db : DB) : Prop :=
  forall l, In l (comment_likes db) ->
            has_id (map c_id (comments db)) (l_comment_id l) = true
            /\ has_id (auth_users db) (l_user_id l) = true.

(** *** Statements of a session, for the counter law *)

Inductive statement :=
| InsertComment (uid : option uuid) (new_id : uuid) (now : timestamptz)
                (v : comment_values)
| DeleteComments (uid : option uuid) (where_ : comment_row -> bool).

Definition exec (s : statement) (db : DB) : DB :=
  match s with
  | InsertComment uid new_id now v =>
      match insert_comment uid new_id now v db with
      | inl _ => db
      | inr (_, db') => db'
      end
  | DeleteComments uid where_ => delete_comments uid where_ db
  end.

Fixpoint run (ss : list statement) (db : DB) : DB :=
  match ss with
  | [] => db
  | s :: ss' => run ss' (exec s db)
  end.

(** The posts whose recount trigger fires while a statement executes: the
    post of the inserted row, or the posts of the removed rows. *)
Definition recounted (s : statement) (db : DB) : list uuid :=
  match s with
  | InsertComment uid new_id now v =>
      match insert_comment uid new_id now v db with
      | inl _ => []
      | inr (row, _) => [c_post_id row]
      end
  | DeleteComments uid where_ =>
      map c_post_id (filter (removed_comments uid where_ db) (comments db))
  end.

Fixpoint recounted_during (ss : list statement) (db : DB) : list uuid :=
  match ss with
  | [] => []
  | s :: ss' => recounted s db ++ recounted_during ss' (exec s db)
  end.

End Store.

(* ================================================================== *)
(** ** The useComments hook *)

Module Hook.

(** The session user; only [user.id] is read. *)
Record User := mk_User { u_id : string }.

(** A transformed comment: the fetched row spread into a new object
    together with the flattened profile fields and the liked flag. *)
Record Comment := mk_Comment {
  source : Store.joined_row;           (* ...comment *)
  username : option string;
  display_name : option string;
  avatar_url : option string;
  badge : option string;
  is_liked : bool
}.

Definition id (c : Comment) : string := Store.c_id (Store.j_comment (source c)).
Definition parent_id (c : Comment) : option string :=
  Store.c_parent_id (Store.j_comment (source c)).
Definition created_at (c : Comment) : Z :=
  Store.c_created_at (Store.j_comment (source c)).

(** A root of the tree: the transformed comment spread again, with its
    [replies] array. *)
Record CommentWithReplies := mk_CommentWithReplies {
  root : Comment;                      (* ...comment *)
  replies : list Comment
}.

Inductive JsError :=
| PostgrestError (e : Store.PgError)   (* the store refused the statement *)
| TransportError                       (* the request came back as an error *)
| FetchFailed.                         (* the awaited promise rejected *)

Record LogLine := mk_LogLine { label : string; detail : JsError }.

Inductive Toast :=
| ToastError (msg : string)
| ToastSuccess (msg : string).

(** The calls the hook issues to the store client. *)
Inductive Request :=
| SelectComments (post_id : string)
| SelectUserLikes (user_id : string)
| InsertComment (v : Store.comment_values)
| SelectLikeSingle (comment_id user_id : string)
| DeleteLike (comment_id user_id : string)
| InsertLike (comment_id user_id : string).

(** What the outside does with one call: it is served by the store, or it
    comes back as an error, or its promise rejects; in the last two cases the
    store has not applied it.  [fresh_uuid] and [now] are what the store's
    gen_random_uuid() and now() yield for that call. *)
Inductive Fault := Deliver | Reject | Throw.

Record Reply := mk_Reply {
  fault : Fault;
  fresh_uuid : string;
  now : Z
}.

(** A call as it appears in the trace: what was sent, and the error it
    came back with (none when it was served). *)
Record Call := mk_Call {
  sent : Request;
  failure : option JsError
}.

Record World := mk_World {
  db : Store.DB;                          (* the hosted database *)
  comments : list CommentWithReplies;     (* useState: comments *)
  loading : bool;                         (* useState: loading *)
  console : list LogLine;                 (* console.error lines *)
  toasts : list Toast;                    (* toasts shown *)
  calls : list Call;                      (* store calls issued so far *)
  env : nat -> Reply;                     (* the outside, per call *)
  tick : nat                              (* number of calls answered *)
}.

Definition row_of (c : Comment) : Store.comment_row := Store.j_comment (source c).

(** A list of comments in ascending creation time. *)
Definition ascending (l : list Comment) : Prop :=
  StronglySorted (fun a b => created_at a <= created_at b) l.

(** The ids of all comments a tree shows, roots and replies. *)
Definition tree_ids (t : list CommentWithReplies) : list string :=
  flat_map (fun r => id (root r) :: map id (replies r)) t.

(** *** Asynchronous code: state passing with exceptions *)

Inductive Completion (A : Type) :=
| Normal (a : A)
| Thrown (e : JsError).
Arguments Normal {A} a.
Arguments Thrown {A} e.

Definition Async (A : Type) : Type := World -> Completion A * World.

Definition ret {A} (a : A) : Async A := fun w => (Normal a, w).

Definition bind {A B} (m : Async A) (k : A -> Async B) : Async B :=
  fun w =>
    match m w with
    | (Normal a, w') => k a w'
    | (Thrown e, w') => (Thrown e, w')
    end.

Notation "x <- m ;; k" := (bind m (fun x => k))
  (at level 61, m at next level, right associativity).
Notation "m ;; k" := (bind m (fun _ => k))
  (at level 61, right associativity).

(** try { body } catch (error) { handler error } *)
Definition try_catch {A} (body : Async A) (handler : JsError -> Async A) : Async A :=
  fun w =>
    match body w with
    | (Normal a, w') => (Normal a, w')
    | (Thrown e, w') => handler e w'
    end.

(** try { body } finally { fin } *)
Definition try_finally {A} (body : Async A) (fin : Async unit) : Async A :=
  fun w =>
    match body w with
    | (c, w') =>
        match fin w' with
        | (Normal _, w'') => (c, w'')
        | (Thrown e, w'') => (Thrown e, w'')
        end
    end.

Definition setComments (cs : list CommentWithReplies) : Async unit :=
  fun w => (Normal tt,
            mk_World (db w) cs (loading w) (console w) (toasts w) (calls w)
              (env w) (tick w)).

Definition setLoading (b : bool) : Async unit :=
  fun w => (Normal tt,
            mk_World (db w) (comments w) b (console w) (toasts w) (calls w)
              (env w) (tick w)).

Definition console_error (l : string) (e : JsError) : Async unit :=
  fun w => (Normal tt,
            mk_World (db w) (comments w) (loading w)
              (console w ++ [mk_LogLine l e]) (toasts w) (calls w)
              (env w) (tick w)).

Definition toast (t : Toast) : Async unit :=
  fun w => (Normal tt,
            mk_World (db w) (comments w) (loading w) (console w)
              (toasts w ++ [t]) (calls w) (env w) (tick w)).

(** The [{ data, error }] pair a store call resolves to. *)
Record Response (A : Type) := mk_Response {
  data : option A;
  error : option JsError
}.
Arguments mk_Response {A} data error.
Arguments data {A} r.
Arguments error {A} r.

(** One awaited store call: it is recorded, the outside decides its fate,
    and only a delivered call reaches the database.  [serve] gives the rows
    the call asks back (none for a bare insert or delete) and the new
    database. *)
Definition request {A} (rq : Request)
    (serve : Reply -> Store.DB -> Store.PgError + (option A * Store.DB))
    : Async (Response A) :=
  fun w =>
    let r := env w (tick w) in
    let answered e d :=
      mk_World d (comments w) (loading w) (console w) (toasts w)
        (calls w ++ [mk_Call rq e]) (env w) (S (tick w)) in
    match fault r with
    | Throw => (Thrown FetchFailed, answered (Some FetchFailed) (db w))
    | Reject => (Normal (mk_Response None (Some TransportError)),
                 answered (Some TransportError) (db w))
    | Deliver =>
        match serve r (db w) with
        | inl e => (Normal (mk_Response None (Some (PostgrestError e))),
                    answered (Some (PostgrestError e)) (db w))
        | inr (a, d) => (Normal (mk_Response a None), answered None d)
        end
    end.

(** A fetch went through: the comments query was served and no awaited
    promise rejected. *)
Definition fetch_went_through (postId : string) (l : list Call) : Prop :=
  In (mk_Call (SelectComments postId) None) l
  /\ forall c, In c l -> failure c <> Some FetchFailed.

(** Calls that write, and calls that only read. *)
Definition is_mutation (rq : Request) : bool :=
  match rq with
  | InsertComment _ | DeleteLike _ _ | InsertLike _ _ => true
  | SelectComments _ | SelectUserLikes _ | SelectLikeSingle _ _ => false
  end.

Definition is_query (c : Call) : bool := negb (is_mutation (sent c)).

(** The calls issued between two worlds. *)
Definition issued (w w' : World) : list Call :=
  skipn (List.length (calls w)) (calls w').

(** *** Shaping of the fetched rows (fetchComments, second half) *)

Definition transform (userLikes : list string) (comment : Store.joined_row) : Comment :=
  let profiles := Store.j_profiles comment in
  mk_Comment comment
    (match profiles with Some p => Store.pr_username p | None => None end)
    (match profiles with Some p => Store.pr_display_name p | None => None end)
    (match profiles with Some p => Store.pr_avatar_url p | None => None end)
    (match profiles with Some p => Store.pr_badge p | None => None end)
    (Js.includes userLikes (Store.c_id (Store.j_comment comment))).

Definition rootComments (transformedComments : list Comment) : list Comment :=
  filter (fun comment => negb (Js.truthy_opt_string (parent_id comment)))
    transformedComments.

Definition commentsWithReplies (transformedComments : list Comment)
    : list CommentWithReplies :=
  map (fun comment =>
         mk_CommentWithReplies comment
           (filter (fun reply => Js.strict_eq_opt (parent_id reply) (id comment))
              transformedComments))
    (rootComments transformedComments).

(** The outside serves every call from now on, and the UUIDs it generates
    are not those of existing like rows. *)
Definition well_behaved (w : World) : Prop :=
  forall n, (tick w <= n)%nat ->
            fault (env w n) = Deliver
            /\ ~ In (fresh_uuid (env w n)) (map Store.l_id (Store.comment_likes (db w))).

(** What a served like toggle of user [u] on comment [c] does to the
    database: the read, then the delete or the insert. *)
Definition toggle_like (u c : string) (o : Reply) (d : Store.DB) : Store.DB :=
  match Store.select_like_single c u d with
  | inr _ => Store.delete_likes (Some u) (Store.like_of c u) d
  | inl _ =>
      match Store.insert_like (Some u) (fresh_uuid o) (now o) c u d with
      | inl _ => d
      | inr (_, d') => d'
      end
  end.

Section useComments.

Variable postId : string.
Variable user : option User.

(** The identity the store sees on the hook's calls. *)
Definition session_uid : option string := option_map u_id user.

Definition fetchComments : Async unit :=
  if negb (Js.truthy_string postId) then ret tt
  else
    setLoading true ;;
    try_finally
      (try_catch
         (r <- request (SelectComments postId)
                 (fun _ d => inr (Some (Store.select_comments postId d), d)) ;;
          match error r with
          | Some e => console_error "Error fetching comments:" e
          | None =>
              userLikes <-
                match user with
                | Some u =>
                    l <- request (SelectUserLikes (u_id u))
                           (fun _ d => inr (Some (Store.select_user_likes (u_id u) d), d)) ;;
                    ret (match data l with Some ids => ids | None => [] end)
                | None => ret []
                end ;;
              let transformedComments :=
                match data r with
                | Some rows => map (transform userLikes) rows
                | None => []
                end in
              setComments (commentsWithReplies transformedComments)
          end)
         (fun e => console_error "Error:" e))
      (setLoading false).

Definition createComment (content : Js.text) (parentId : option string)
    : Async (option Store.comment_row) :=
  match user with
  | None =>
      toast (ToastError "Vous devez être connecté pour commenter") ;;
      ret None
  | Some u =>
      if negb (Js.truthy_text (Js.trim content)) then
        toast (ToastError "Le commentaire ne peut pas être vide") ;;
        ret None
      else
        let v := Store.mk_comment_values (u_id u) postId (Js.trim content) parentId in
        try_catch
          (r <- request (InsertComment v)
                  (fun o d =>
                     match Store.insert_comment session_uid (fresh_uuid o) (now o) v d with
                     | inl e => inl e
                     | inr (row, d') => inr (Some row, d')
                     end) ;;
           match error r with
           | Some e =>
               console_error "Error creating comment:" e ;;
               toast (ToastError "Erreur lors de la création du commentaire") ;;
               ret None
           | None =>
               toast (ToastSuccess "Commentaire ajouté avec succès") ;;
               fetchComments ;;
               ret (data r)
           end)
          (fun e =>
             console_error "Error:" e ;;
             toast (ToastError "Erreur lors de la création du commentaire") ;;
             ret None)
  end.

Definition likeComment (commentId : string) : Async unit :=
  match user with
  | None =>
      toast (ToastError "Vous devez être connecté pour liker un commentaire")
  | Some u =>
      try_catch
        (existing <- request (SelectLikeSingle commentId (u_id u))
                       (fun _ d =>
                          match Store.select_like_single commentId (u_id u) d with
                          | inl e => inl e
                          | inr l => inr (Some l, d)
                          end) ;;
         match data existing with
         | Some _ =>
             r <- request (DeleteLike commentId (u_id u))
                    (fun _ d =>
                       inr (@None unit,
                            Store.delete_likes session_uid
                              (Store.like_of commentId (u_id u)) d)) ;;
             match error r with
             | Some e => console_error "Error unliking comment:" e
             | None => fetchComments
             end
         | None =>
             r <- request (InsertLike commentId (u_id u))
                    (fun o d =>
                       match Store.insert_like session_uid (fresh_uuid o) (now o)
                               commentId (u_id u) d with
                       | inl e => inl e
                       | inr (_, d') => inr (@None unit, d')
                       end) ;;
             match error r with
             | Some e => console_error "Error liking comment:" e
             | None => fetchComments
             end
         end)
        (fun e => console_error "Error:" e)
  end.

End useComments.

End Hook.

(* ================================================================== *)
(** ** The PredictionCard component *)

Module Card.

(** Event handlers the card attaches to its elements. *)
Inductive Handler :=
| handleProfileClick
| handleMenuAction (action : string)
| handleShare
| handleLike
| handleVideoClick
| toggleMute
| toggleFullscreen
| handleProgressClick
| onMouseEnter_showControls
| onMouseLeave_showControlsTemporarily.

(** The element tree a render returns: tags, event handlers, children and
    the texts that depend on props or state.  Class names, styles and the other
    attributes are left out; an element passed as a prop (a fallback) is
    listed before the children. *)
Inductive Node :=
| Element (tag : string) (handlers : list Handler) (children : list Node)
| Text (s : string)
| Num (n : Z).

Record PredictionUser := mk_PredictionUser {
  pu_username : string;
  pu_avatar : string;
  pu_badge : string;
  pu_badgeColor : string
}.

Record Prediction := mk_Prediction {
  pd_id : Z;
  pd_user : PredictionUser;
  pd_match : string;
  pd_odds : string;
  pd_confidence : Z;
  pd_analysis : string;
  pd_comments : Z;
  pd_shares : Z;
  pd_successRate : Z;
  pd_timeAgo : string;
  pd_sport : string;
  pd_image : option string;
  pd_video : option string;
  pd_totalOdds : option string
}.

(** The useState cells the render reads. *)
Record State := mk_State {
  isPlaying : bool;
  isMuted : bool;
  isLiked : bool;
  likesCount : Z;
  showControls : bool;
  isFullscreen : bool;
  isFollowed : bool;
  isSaved : bool;
  isBlocked : bool
}.

(** [cond && element] inside a children list. *)
Definition when (cond : bool) (n : Node) : list Node :=
  if cond then [n] else [].

Definition button (hs : list Handler) (children : list Node) : Node :=
  Element "button" hs children.

(** [<ProtectedComponent fallback={...}>child</ProtectedComponent>], kept as
    an element: which of the two it shows is its own business. *)
Definition ProtectedComponent (fallback child : Node) : Node :=
  Element "ProtectedComponent" [] [fallback; child].

(** One entry of the options drawer: an icon and a label. *)
Definition menu_item (h : Handler) (label : string) : Node :=
  button [h] [Element "span" [] []; Element "span" [] [Text label]].

Definition menu_drawer (st : State) : Node :=
  Element "Drawer" []
    [ Element "DrawerTrigger" [] [button [] [Element "MoreVertical" [] []]];
      Element "DrawerContent" []
        [ Element "DrawerHeader" []
            [Element "DrawerTitle" [] [Text "Options du post"]];
          Element "div" []
            [ menu_item (handleMenuAction "follow")
                (if isFollowed st then "Ne plus suivre cet utilisateur"
                 else "Suivre cet utilisateur");
              menu_item (handleMenuAction "save")
                (if isSaved st then "Retirer des sauvegardes" else "Sauvegarder");
              menu_item handleShare "Partager";
              menu_item (handleMenuAction "report") "Signaler";
              menu_item (handleMenuAction "hide") "Masquer ce post";
              menu_item (handleMenuAction "block") "Bloquer l'utilisateur" ] ] ].

(** The letter shown on the author's badge. *)
Definition badge_letter (badge : string) : string :=
  if String.eqb badge "Confirmé" then "C"
  else if String.eqb badge "Pro" then "P"
  else "N".

Definition header (p : Prediction) (st : State) : Node :=
  Element "div" []
    [ Element "div" []
        [ Element "div" [handleProfileClick]
            [ Element "img" [] [];
              Element "div" []
                [Element "span" [] [Text (badge_letter (pu_badge (pd_user p)))]] ];
          Element "div" []
            [ Element "div" []
                [ Element "span" [handleProfileClick] [Text (pu_username (pd_user p))];
                  Element "span" [] [Text (pd_timeAgo p)] ];
              Element "div" []
                [ Element "span" [] [Num (pd_successRate p); Text "% de réussite"];
                  Element "span" [] [];
                  Element "span" [] [Text (pd_sport p)] ] ] ];
      ProtectedComponent
        (button [] [Element "MoreVertical" [] []])
        (menu_drawer st) ].

Definition match_info (p : Prediction) (st : State) : Node :=
  Element "div" []
    [ Element "div" [] [Text (pd_match p)];
      Element "div" []
        [ Element "div" []
            (Element "span" [] [Text (pd_odds p)]
             :: match pd_totalOdds p with
                | Some t => when (Js.truthy_string t) (Element "span" [] [Text t])
                | None => []
                end);
          ProtectedComponent
            (Element "Button" [] [Text "Se connecter"])
            (Element "Button" [handleMenuAction "follow"]
               [Text (if isFollowed st then "Suivi" else "Suivre")]) ];
      Element "div" []
        (Element "span" [] [Text "Confiance:"]
         :: map (fun _ : Z => Element "Star" [] []) [0; 1; 2; 3; 4]
         ++ [Element "span" [] []]) ].

Definition video_player (st : State) : Node :=
  Element "div"
    [handleVideoClick; onMouseEnter_showControls; onMouseLeave_showControlsTemporarily]
    [ Element "video" [] [Element "source" [] []];
      Element "div" []
        (when (negb (isPlaying st))
           (Element "div" [] [Element "div" [] [Element "Play" [] []]])
         ++ [ Element "div" []
                [ Element "div" [handleProgressClick] [Element "div" [] []];
                  Element "div" []
                    [ Element "div" []
                        [ button [toggleMute]
                            [Element (if isMuted st then "VolumeX" else "Volume2") [] []];
                          Element "span" [] [] ];
                      button [toggleFullscreen]
                        [Element (if isFullscreen st then "Minimize" else "Maximize")
                           [] []] ] ] ]) ].

Definition truthy (s : option string) : bool := Js.truthy_opt_string s.

Definition media (p : Prediction) (st : State) : list Node :=
  when (truthy (pd_image p) || truthy (pd_video p))
    (Element "div" []
       (if truthy (pd_video p) then [video_player st]
        else when (truthy (pd_image p)) (Element "img" [] []))).

Definition actions (p : Prediction) (st : State) : Node :=
  Element "div" []
    [ Element "div" []
        [ ProtectedComponent
            (button [] [Element "Heart" [] []; Element "span" [] [Num (likesCount st)]])
            (button [handleLike]
               [Element "Heart" [] []; Element "span" [] [Num (likesCount st)]]);
          ProtectedComponent
            (button [] [Element "MessageCircle" [] [];
                        Element "span" [] [Num (pd_comments p)]])
            (Element "CommentsBottomSheet" []
               [button [] [Element "MessageCircle" [] [];
                           Element "span" [] [Num (pd_comments p)]]]);
          ProtectedComponent
            (button [] [Element "Share" [] []; Element "span" [] [Num (pd_shares p)]])
            (button [handleShare]
               [Element "Share" [] []; Element "span" [] [Num (pd_shares p)]]) ];
      ProtectedComponent
        (Element "Button" [] [Text "Se connecter"])
        (Element "Dialog" []
           [ Element "DialogTrigger" [] [Element "Button" [] [Text "Voir pronos"]];
             Element "DialogContent" []
               [ Element "DialogHeader" [] [Element "DialogTitle" [] []];
                 Element "PredictionModal" [] [] ] ]) ].

(** The render of the component: [null] (here [None]) when the author is
    blocked, the card otherwise. *)
Definition PredictionCard (prediction : Prediction) (st : State) : option Node :=
  if isBlocked st then None
  else
    Some
      (Element "Card" []
         [ Element "CardContent" []
             ([header prediction st; match_info prediction st]
              ++ media prediction st
              ++ [ Element "div" [] [Element "p" [] [Text (pd_analysis prediction)]];
                   actions prediction st ]) ]).

(** Elements a user can act on: buttons and anything with a handler. *)
Definition is_interactive (n : Node) : bool :=
  match n with
  | Element tag hs _ =>
      String.eqb tag "button" || String.eqb tag "Button"
      || match hs with [] => false | _ :: _ => true end
  | _ => false
  end.

Fixpoint interactive_elements (n : Node) : list Node :=
  (if is_interactive n then [n] else [])
  ++ match n with
     | Element _ _ children =>
         (fix all (l : list Node) : list Node :=
            match l with
            | [] => []
            | c :: l' => interactive_elements c ++ all l'
            end) children
     | _ => []
     end.

Definition exposed (r : option Node) : list Node :=
  match r with
  | None => []
  | Some n => interactive_elements n
  end.

End Card.

(* ================================================================== *)
(** ** A small database and session, used to run the definitions *)

Module Sample.

Import Store.

Definition txt := Js.text_of_string.

(** Post p1 carries a root, a reply to it, a reply to that reply, and a
    second root that is older than the first but stored after it. *)
Definition c1 := mk_comment_row "c1" "u1" "p1" (txt "first") None (Some 1) 10 10.
Definition c2 := mk_comment_row "c2" "u2" "p1" (txt "reply") (Some "c1") (Some 0) 20 20.
Definition c3 := mk_comment_row "c3" "u1" "p1" (txt "nested") (Some "c2") (Some 0) 30 30.
Definition c4 := mk_comment_row "c4" "u2" "p1" (txt "older") None (Some 0) 5 5.
Definition c5 := mk_comment_row "c5" "u2" "p1" (txt "late") (Some "c1") (Some 0) 15 15.

Definition db0 : DB :=
  mk_DB ["u1"; "u2"]
    [mk_post_row "p1" (Some 5); mk_post_row "p2" (Some 0)]
    [mk_profile_row "u1" (Some "ana") (Some "Ana") None (Some "Pro")]
    [c1; c2; c3; c4; c5]
    [mk_like_row "l1" "c1" "u2" 40].

Definition fresh (n : nat) : string :=
  "g" ++ NilEmpty.string_of_uint (Nat.to_uint n).

(** An outside that serves every call. *)
Definition serving : nat -> Hook.Reply :=
  fun n => Hook.mk_Reply Hook.Deliver (fresh n) (100 + Z.of_nat n).

(** An outside whose first call comes back as an error. *)
Definition rejecting_first : nat -> Hook.Reply :=
  fun n => Hook.mk_Reply (match n with O => Hook.Reject | _ => Hook.Deliver end)
             (fresh n) (100 + Z.of_nat n).

(** An outside whose second call comes back as an error. *)
Definition rejecting_second : nat -> Hook.Reply :=
  fun n => Hook.mk_Reply (match n with 1%nat => Hook.Reject | _ => Hook.Deliver end)
             (fresh n) (100 + Z.of_nat n).

(** An outside whose first call rejects its promise. *)
Definition throwing_first : nat -> Hook.Reply :=
  fun n => Hook.mk_Reply (match n with O => Hook.Throw | _ => Hook.Deliver end)
             (fresh n) (100 + Z.of_nat n).

Definition world (e : nat -> Hook.Reply) : Hook.World :=
  Hook.mk_World db0 [] false [] [] [] e 0.

Definition u1 := Hook.mk_User "u1".
Definition u2 := Hook.mk_User "u2".

Definition blocked_state : Card.State :=
  Card.mk_State false true false 3 false false false false true.

Definition a_prediction : Card.Prediction :=
  Card.mk_Prediction 7 (Card.mk_PredictionUser "ana" "a.png" "Pro" "bg-blue-500")
    "PSG - OM" "1.85" 4 "solid form" 2 1 60 "2h" "Football"
    None (Some "clip.mp4") None.

End Sample.

(* ================================================================== *)
(** ** The schema as a whole: constraints, counters, sessions *)

Module Schema.

(** A comment row with its likes_count blanked: what the counter trigger
    never touches. *)
Definition shape (c : Store.comment_row) : Store.comment_row :=
  Store.set_likes_count None c.

(** The constraints the migration declares on comments and comment_likes:
    primary keys, UNIQUE(comment_id, user_id), the CHECK on content, and the
    foreign keys. *)
Record valid (db : Store.DB) : Prop := mk_valid {
  comments_pkey : Store.primary_key db;
  likes_pkey : NoDup (map Store.l_id (Store.comment_likes db));
  likes_unique : Store.unique_likes db;
  likes_fkeys : Store.likes_reference db;
  content_check :
    forall c, In c (Store.comments db) ->
              (List.length (Store.c_content c) <= 1000)%nat;
  comments_fkeys :
    forall c, In c (Store.comments db) ->
              Store.has_id (Store.auth_users db) (Store.c_user_id c) = true
              /\ Store.has_id (map Store.p_id (Store.posts db)) (Store.c_post_id c) = true
              /\ match Store.c_parent_id c with
                 | None => True
                 | Some p => Store.has_id (map Store.c_id (Store.comments db)) p = true
                 end
}.

(** Both denormalized counters agree with the rows, everywhere. *)
Definition counters_exact (db : Store.DB) : Prop :=
  (forall c, Store.likes_exact db c) /\ (forall p, Store.counter_exact db p).

(** The four statements the migration's policies let a client issue. *)
Inductive stmt :=
| CommentInsert (uid : option string) (new_id : string) (now : Z)
                (v : Store.comment_values)
| CommentsDelete (uid : option string) (where_ : Store.comment_row -> bool)
| LikeInsert (uid : option string) (new_id : string) (now : Z)
             (comment_id user_id : string)
| LikesDelete (uid : option string) (where_ : Store.like_row -> bool).

Definition exec (s : stmt) (db : Store.DB) : Store.DB :=
  match s with
  | CommentInsert uid new_id now v =>
      match Store.insert_comment uid new_id now v db with
      | inl _ => db
      | inr (_, db') => db'
      end
  | CommentsDelete uid where_ => Store.delete_comments uid where_ db
  | LikeInsert uid new_id now c u =>
      match Store.insert_like uid new_id now c u db with
      | inl _ => db
      | inr (_, db') => db'
      end
  | LikesDelete uid where_ => Store.delete_likes uid where_ db
  end.

Fixpoint run (ss : list stmt) (db : Store.DB) : Store.DB :=
  match ss with
  | [] => db
  | s :: ss' => run ss' (exec s db)
  end.

(** The calls of the hook, by any client on any post. *)
Inductive action :=
| Fetch (postId : string) (user : option Hook.User)
| Create (postId : string) (user : option Hook.User)
         (content : Js.text) (parentId : option string)
| Like (postId : string) (user : option Hook.User) (commentId : string).

Definition perform (a : action) (w : Hook.World) : Hook.World :=
  match a with
  | Fetch postId user => snd (Hook.fetchComments postId user w)
  | Create postId user content parentId =>
      snd (Hook.createComment postId user content parentId w)
  | Like postId user commentId => snd (Hook.likeComment postId user commentId w)
  end.

(** One hook call takes the database from [d] to [d'], whatever the rest of
    the calling client's world is. *)
Definition hook_step (d d' : Store.DB) : Prop :=
  exists a w, Hook.db w = d /\ Hook.db (perform a w) = d'.

Inductive reachable (d : Store.DB) : Store.DB -> Prop :=
| reach_here : reachable d d
| reach_step d1 d2 : reachable d d1 -> hook_step d1 d2 -> reachable d d2.

End Schema.

(* ================================================================== *)
(** ** What a client is shown *)

Module View.

(** The comment ids the session user has liked, as the second query of
    fetchComments returns them. *)
Definition user_likes (user : option Hook.User) (d : Store.DB) : list string :=
  match user with
  | Some u => Store.select_user_likes (Hook.u_id u) d
  | None => []
  end.

(** The tree fetchComments builds when both of its queries are served. *)
Definition tree (postId : string) (user : option Hook.User) (d : Store.DB)
    : list Hook.CommentWithReplies :=
  Hook.commentsWithReplies
    (map (Hook.transform (user_likes user d)) (Store.select_comments postId d)).

(** All comments of a tree, roots and replies. *)
Definition nodes (t : list Hook.CommentWithReplies) : list Hook.Comment :=
  flat_map (fun r => Hook.root r :: Hook.replies r) t.

(** Every call in a trace was served. *)
Definition all_served (l : list Hook.Call) : Prop :=
  forall c, In c l -> Hook.failure c = None.

End View.

(* ================================================================== *)
(** ** The realtime channel of useComments *)

Module Realtime.

(** A channel object of the client.  [ch_serial] is the position, among the
    calls on the client, of the [supabase.channel] call that made it: two
    channels are the same object exactly when they were made by the same
    call, whatever their names. *)
Record Channel := mk_Channel { ch_serial : nat; ch_name : string }.

Definition Channel_eqb (a b : Channel) : bool :=
  Nat.eqb (ch_serial a) (ch_serial b) && String.eqb (ch_name a) (ch_name b).

(** The calls the effect makes on the client and on a channel. *)
Inductive ClientCall :=
| channel (name : string)
| on_postgres_changes (c : Channel) (table : string) (filter : option string)
| subscribe (c : Channel)
| removeChannel (c : Channel).

Record Event := mk_Event { what : ClientCall; threw : bool }.

Inductive LogLine :=
| Log (msg : string) (arg : option string)
| Error (msg : string).

(** [channelRef.current], the calls made so far (oldest first), the console,
    and which calls of the client throw. *)
Record Conn := mk_Conn {
  channelRef : option Channel;
  trace : list Event;
  console : list LogLine;
  throws : nat -> bool
}.

Definition set_channelRef (c : option Channel) (s : Conn) : Conn :=
  mk_Conn c (trace s) (console s) (throws s).

Definition log (l : LogLine) (s : Conn) : Conn :=
  mk_Conn (channelRef s) (trace s) (console s ++ [l]) (throws s).

(** One call on the client: whether it threw, and the state after it. *)
Definition call (c : ClientCall) (s : Conn) : bool * Conn :=
  let t := throws s (List.length (trace s)) in
  (t, mk_Conn (channelRef s) (trace s ++ [mk_Event c t]) (console s) (throws s)).

(** The second half of the effect: the channel is named, created, given its
    two listeners and subscribed inside one [try]; [channelRef.current] is
    set only when all of it went through. *)
Definition setup (postId sessionId : string) (s : Conn) : Conn :=
  let channelName := ("comments_" ++ postId ++ "_" ++ sessionId)%string in
  let s := log (Log "Creating comments channel:" (Some channelName)) s in
  let failed := log (Error "Error setting up comments channel:") in
  let ch := mk_Channel (List.length (trace s)) channelName in
  let (t, s) := call (channel channelName) s in
  if t then failed s else
  let (t, s) :=
    call (on_postgres_changes ch "comments" (Some ("post_id=eq." ++ postId)%string)) s in
  if t then failed s else
  let (t, s) := call (on_postgres_changes ch "comment_likes" None) s in
  if t then failed s else
  let (t, s) := call (subscribe ch) s in
  if t then failed s else
  set_channelRef (Some ch) s.

(** What a run of the effect comes to: it returned early without a cleanup
    function, it returned its cleanup function, or it threw. *)
Inductive Returned := no_cleanup | cleanup_fn | thrown.

(** The body of the effect; [sessionId] is what
    [Math.random().toString(36).substring(2, 15)] gave. *)
Definition effect (postId sessionId : string) (s : Conn) : Returned * Conn :=
  if negb (Js.truthy_string postId) then (no_cleanup, s)
  else
    match channelRef s with
    | Some c =>
        let s := log (Log "Cleaning up existing comments channel" None) s in
        let (t, s) := call (removeChannel c) s in
        if t then (thrown, s)
        else (cleanup_fn, setup postId sessionId (set_channelRef None s))
    | None => (cleanup_fn, setup postId sessionId s)
    end.

(** The cleanup function the effect returns. *)
Definition cleanup (s : Conn) : Conn :=
  match channelRef s with
  | Some c =>
      let s := log (Log "Unsubscribing from comments channel" None) s in
      let (t, s) := call (removeChannel c) s in
      let s := if t then log (Error "Error removing comments channel:") s else s in
      set_channelRef None s
  | None => s
  end.

(** The life of the effect in a mounted component: each time its
    dependencies change the cleanup of the last run, if that run returned
    one, is called and the body runs again; on unmount the cleanup is
    called.  [None] when a body threw. *)
Inductive Step :=
| Render (postId sessionId : string)
| Unmount.

Record Mounted := mk_Mounted {
  conn : Conn;
  pending : bool
}.

Definition step (e : Step) (m : Mounted) : option Mounted :=
  let c := if pending m then cleanup (conn m) else conn m in
  match e with
  | Unmount => Some (mk_Mounted c false)
  | Render postId sessionId =>
      match effect postId sessionId c with
      | (thrown, _) => None
      | (cleanup_fn, c') => Some (mk_Mounted c' true)
      | (no_cleanup, c') => Some (mk_Mounted c' false)
      end
  end.

Fixpoint lifecycle (es : list Step) (m : Mounted) : option Mounted :=
  match es with
  | [] => Some m
  | e :: es' =>
      match step e m with
      | Some m' => lifecycle es' m'
      | None => None
      end
  end.

Definition first_mount (throws : nat -> bool) : Mounted :=
  mk_Mounted (mk_Conn None [] [] throws) false.

(** The channel was subscribed without error; how many times it was passed
    to [removeChannel]. *)
Definition subscribed (c : Channel) (tr : list Event) : Prop :=
  In (mk_Event (subscribe c) false) tr.

Definition removes (c : Channel) (e : Event) : bool :=
  match what e with
  | removeChannel c' => Channel_eqb c' c
  | _ => false
  end.

Definition removals (c : Channel) (tr : list Event) : nat :=
  List.length (filter (removes c) tr).

(** The channel a call is about, and whether a channel is the one
    [channelRef.current] holds. *)
Definition about (c : ClientCall) : option Channel :=
  match c with
  | channel _ => None
  | on_postgres_changes c _ _ | subscribe c | removeChannel c => Some c
  end.

Definition live (s : Conn) (c : Channel) : bool :=
  match channelRef s with
  | Some c' => Channel_eqb c' c
  | None => false
  end.

Definition cleaning_up : LogLine := Log "Cleaning up existing comments channel" None.

(** What holds of the connection between any two runs. *)
Record consistent (s : Conn) : Prop := mk_consistent {
  once_removed :
    forall c, subscribed c (trace s) ->
              removals c (trace s) = if live s c then 0%nat else 1%nat;
  ref_subscribed : forall c, channelRef s = Some c -> subscribed c (trace s);
  serials_past :
    forall e c, In e (trace s) -> about (what e) = Some c ->
                (ch_serial c < List.length (trace s))%nat;
  removed_subscribed :
    forall c, (0 < removals c (trace s))%nat -> subscribed c (trace s);
  failed_not_subscribed :
    forall c, In (mk_Event (subscribe c) true) (trace s) -> ~ subscribed c (trace s);
  never_cleaning_up : ~ In cleaning_up (console s)
}.

End Realtime.

(* ================================================================== *)
(** ** The handlers of PredictionCard that act for the session user *)

Module Actions.

(** What the functions of useAuth, useOptimizedPosts, usePostActions and of
    the browser answer during one run of a handler.  A [bool] says whether
    the promise resolves, an [option bool] what it resolves to ([None] when
    it rejects); [navigator_share] is [None] where [navigator.share] is not
    defined. *)
Record Outside := mk_Outside {
  requireAuth : bool;
  user : option string;
  origin : string;
  likePost : bool;
  followUser : bool;
  savePost : bool;
  reportPost : bool;
  hidePost : bool;
  blockUser : bool;
  sharePost : bool;
  checkIfUserFollowed : option bool;
  checkIfPostSaved : option bool;
  checkIfUserBlocked : option bool;
  navigator_share : option bool;
  clipboard_writeText : bool
}.

Inductive Call :=
| call_likePost (postId : string)
| call_followUser (username : string)
| call_savePost (postId : string)
| call_reportPost (postId reason description : string)
| call_hidePost (postId : string)
| call_blockUser (username : string)
| call_sharePost (postId kind : string)
| call_checkIfUserFollowed (username : string)
| call_checkIfPostSaved (postId : string)
| call_checkIfUserBlocked (username : string)
| call_navigator_share (title text url : string)
| call_writeText (url : string)
| call_navigate (path : string).

Inductive Toast :=
| toast_info (msg : string)
| toast_success (msg : string)
| toast_error (msg : string).

Inductive Arg :=
| arg_string (s : string)
| arg_number (n : Z)
| arg_states (followed saved blocked : bool).

Inductive LogLine :=
| console_log (msg : string) (args : list Arg)
| console_error (msg : string).

(** The state cells the handlers write, what they called, and what they
    showed and logged. *)
Record UI := mk_UI {
  state : Card.State;
  actionStatesLoaded : bool;
  calls : list Call;
  toasts : list Toast;
  console : list LogLine
}.

Definition set_state (f : Card.State -> Card.State) (u : UI) : UI :=
  mk_UI (f (state u)) (actionStatesLoaded u) (calls u) (toasts u) (console u).

Definition setIsLiked (b : bool) : UI -> UI :=
  set_state (fun s =>
    Card.mk_State (Card.isPlaying s) (Card.isMuted s) b (Card.likesCount s)
      (Card.showControls s) (Card.isFullscreen s) (Card.isFollowed s)
      (Card.isSaved s) (Card.isBlocked s)).

(** [setLikesCount(prev => ...)]: the update reads the current value. *)
Definition setLikesCount (f : Z -> Z) : UI -> UI :=
  set_state (fun s =>
    Card.mk_State (Card.isPlaying s) (Card.isMuted s) (Card.isLiked s)
      (f (Card.likesCount s))
      (Card.showControls s) (Card.isFullscreen s) (Card.isFollowed s)
      (Card.isSaved s) (Card.isBlocked s)).

Definition setIsFollowed (b : bool) : UI -> UI :=
  set_state (fun s =>
    Card.mk_State (Card.isPlaying s) (Card.isMuted s) (Card.isLiked s)
      (Card.likesCount s) (Card.showControls s) (Card.isFullscreen s) b
      (Card.isSaved s) (Card.isBlocked s)).

Definition setIsSaved (b : bool) : UI -> UI :=
  set_state (fun s =>
    Card.mk_State (Card.isPlaying s) (Card.isMuted s) (Card.isLiked s)
      (Card.likesCount s) (Card.showControls s) (Card.isFullscreen s)
      (Card.isFollowed s) b (Card.isBlocked s)).

Definition setIsBlocked (b : bool) : UI -> UI :=
  set_state (fun s =>
    Card.mk_State (Card.isPlaying s) (Card.isMuted s) (Card.isLiked s)
      (Card.likesCount s) (Card.showControls s) (Card.isFullscreen s)
      (Card.isFollowed s) (Card.isSaved s) b).

Definition setActionStatesLoaded (b : bool) (u : UI) : UI :=
  mk_UI (state u) b (calls u) (toasts u) (console u).

Definition call (c : Call) (u : UI) : UI :=
  mk_UI (state u) (actionStatesLoaded u) (calls u ++ [c]) (toasts u) (console u).

Definition toast (t : Toast) (u : UI) : UI :=
  mk_UI (state u) (actionStatesLoaded u) (calls u) (toasts u ++ [t]) (console u).

Definition log (l : LogLine) (u : UI) : UI :=
  mk_UI (state u) (actionStatesLoaded u) (calls u) (toasts u) (console u ++ [l]).

(** [prediction.id.toString()] *)
Definition toString (n : Z) : string := NilZero.string_of_int (Z.to_int n).

Section Handlers.

Variable prediction : Card.Prediction.

(** [prediction.prediction], which the render does not read. *)
Variable prediction_prediction : string.

Let username := Card.pu_username (Card.pd_user prediction).
Let id := toString (Card.pd_id prediction).

(** The effect that loads the three states.  [closure] is the render the
    effect belongs to. *)
Definition loadActionStates (closure : UI) (o : Outside) (u : UI) : UI :=
  match user o with
  | Some user_id =>
      if negb (actionStatesLoaded closure) then
        let u := log (console_log "Loading action states for user:"
                        [arg_string user_id; arg_string "post:";
                         arg_number (Card.pd_id prediction)]) u in
        let u := call (call_checkIfUserFollowed username) u in
        let u := call (call_checkIfPostSaved id) u in
        let u := call (call_checkIfUserBlocked username) u in
        match checkIfUserFollowed o, checkIfPostSaved o, checkIfUserBlocked o with
        | Some followed, Some saved, Some blocked =>
            let u := setIsFollowed followed u in
            let u := setIsSaved saved u in
            let u := setIsBlocked blocked u in
            let u := setActionStatesLoaded true u in
            log (console_log "Action states loaded:" [arg_states followed saved blocked]) u
        | _, _, _ => log (console_error "Error loading action states:") u
        end
      else u
  | None => u
  end.

Definition handleMenuAction (action : string) (o : Outside) (u : UI) : UI :=
  if negb (requireAuth o) then u
  else
    let u := log (console_log ("Executing action: " ++ action ++ " for post " ++ id)%string
                    []) u in
    let catch u :=
      toast (toast_error "Une erreur est survenue lors de l'opération")
        (log (console_error ("Error executing action " ++ action ++ ":")%string) u) in
    if String.eqb action "follow" then
      let u := call (call_followUser username) u in
      if followUser o then
        let u := call (call_checkIfUserFollowed username) u in
        match checkIfUserFollowed o with
        | Some newFollowState => setIsFollowed newFollowState u
        | None => catch u
        end
      else catch u
    else if String.eqb action "save" then
      let u := call (call_savePost id) u in
      if savePost o then
        let u := call (call_checkIfPostSaved id) u in
        match checkIfPostSaved o with
        | Some newSaveState => setIsSaved newSaveState u
        | None => catch u
        end
      else catch u
    else if String.eqb action "report" then
      let u := call (call_reportPost id "inappropriate" "Contenu inapproprié") u in
      if reportPost o then u else catch u
    else if String.eqb action "hide" then
      let u := call (call_hidePost id) u in
      if hidePost o then toast (toast_info "Ce post a été masqué") u else catch u
    else if String.eqb action "block" then
      let u := call (call_blockUser username) u in
      if blockUser o then
        let u := call (call_checkIfUserBlocked username) u in
        match checkIfUserBlocked o with
        | Some newBlockState => setIsBlocked newBlockState u
        | None => catch u
        end
      else catch u
    else
      log (console_log ("Action: " ++ action ++ " on prediction " ++ id)%string []) u.

Definition handleProfileClick (o : Outside) (u : UI) : UI :=
  if negb (requireAuth o) then u
  else call (call_navigate "/profile") u.

Definition handleShare (o : Outside) (u : UI) : UI :=
  if negb (requireAuth o) then u
  else
    let postUrl := (origin o ++ "/post/" ++ id)%string in
    match navigator_share o with
    | Some shared =>
        let cancelled := log (console_log "Partage annulé" []) in
        let u := call (call_navigator_share
                         ("Pronostic de " ++ username)%string
                         (Card.pd_match prediction ++ " - " ++ prediction_prediction)%string
                         postUrl) u in
        if shared then
          let u := call (call_sharePost id "social") u in
          if sharePost o then u else cancelled u
        else cancelled u
    | None =>
        let failed := toast (toast_error "Impossible de copier le lien") in
        let u := call (call_writeText postUrl) u in
        if clipboard_writeText o then
          let u := toast (toast_success "Lien copié dans le presse-papier !") u in
          let u := call (call_sharePost id "link") u in
          if sharePost o then u else failed u
        else failed u
    end.

(** [closure] is the render the handler was attached by: it reads [isLiked]
    there, after the call has come back. *)
Definition handleLike (closure : UI) (o : Outside) (u : UI) : UI :=
  if negb (requireAuth o) then u
  else
    let u := call (call_likePost id) u in
    if likePost o then
      if Card.isLiked (state closure) then
        setIsLiked false (setLikesCount (fun prev => prev - 1) u)
      else
        setIsLiked true (setLikesCount (fun prev => prev + 1) u)
    else log (console_error "Error liking post:") u.

(** What may happen to a mounted card: a click on one of the four, or a
    run of the effect.  Each is taken from the latest render. *)
Inductive Event :=
| EffectRun
| MenuAction (action : string)
| ProfileClick
| Share
| Like.

Definition dispatch (e : Event) (o : Outside) (u : UI) : UI :=
  match e with
  | EffectRun => loadActionStates u o u
  | MenuAction action => handleMenuAction action o u
  | ProfileClick => handleProfileClick o u
  | Share => handleShare o u
  | Like => handleLike u o u
  end.

Fixpoint run (es : list (Event * Outside)) (u : UI) : UI :=
  match es with
  | [] => u
  | (e, o) :: es' => run es' (dispatch e o u)
  end.

End Handlers.

(** What a handler showed, logged and called between two states. *)
Definition shown (u u' : UI) : list Toast :=
  skipn (List.length (toasts u)) (toasts u').

Definition logged (u u' : UI) : list LogLine :=
  skipn (List.length (console u)) (console u').

Definition called (u u' : UI) : list Call :=
  skipn (List.length (calls u)) (calls u').



End Actions.

(** A card that is showing, a visitor, and a member whose calls all go
    through. *)
Module SampleCard.

Definition showing : Actions.UI :=
  Actions.mk_UI (Card.mk_State false true false 3 false false false false false)
    false [] [] [].

Definition visitor : Actions.Outside :=
  Actions.mk_Outside false None "https://pendor.app" true true true true true true true
    (Some true) (Some true) (Some true) None true.

Definition member (blocked : bool) : Actions.Outside :=
  Actions.mk_Outside true (Some "u1") "https://pendor.app" true true true true true true
    true (Some true) (Some false) (Some blocked) None true.


End SampleCard.

(* ================================================================== *)
(** * Properties *)

(** ** Lists and text *)

Lemma skipn_length_app {A} (l l' : list A) :
  skipn (List.length l) (l ++ l') = l'.
Proof. induction l as [|x l IH]; simpl; auto. Qed.

Lemma issued_refl (w : Hook.World) : Hook.issued w w = [].
Proof.
  unfold Hook.issued. rewrite <- (app_nil_r (Hook.calls w)) at 2.
  apply skipn_length_app.
Qed.

Lemma trimStart_blank (s : Js.text) :
  forallb Js.isWhiteSpace s = true -> Js.trimStart s = [].
Proof.
  induction s as [|c s IH]; simpl; intros H; [reflexivity|].
  apply andb_true_iff in H. destruct H as [Hc Hs].
  rewrite Hc. auto.
Qed.

Lemma trimStart_nil (s : Js.text) :
  Js.trimStart s = [] -> forallb Js.isWhiteSpace s = true.
Proof.
  induction s as [|c s IH]; simpl; [reflexivity|].
  destruct (Js.isWhiteSpace c); [exact IH|discriminate].
Qed.

Lemma trim_blank (s : Js.text) :
  forallb Js.isWhiteSpace s = true -> Js.trim s = [].
Proof.
  intros H. unfold Js.trim. rewrite (trimStart_blank s H). reflexivity.
Qed.

(** [content.trim()] is the empty string exactly when [content] is made of
    white space only. *)
Lemma trim_nil_iff (s : Js.text) :
  Js.trim s = [] <-> forallb Js.isWhiteSpace s = true.
Proof.
  split; [|apply trim_blank].
  unfold Js.trim, Js.trimEnd. intros H.
  apply (f_equal (@rev N)) in H. rewrite rev_involutive in H. simpl in H.
  apply trimStart_nil in H. apply trimStart_nil.
  destruct (Js.trimStart s) as [|c r] eqn:E; [reflexivity|exfalso].
  assert (Hc : Js.isWhiteSpace c = false).
  { clear H. induction s as [|x s IH]; simpl in E; [discriminate|].
    destruct (Js.isWhiteSpace x) eqn:Hx; [auto|]. injection E as <- _. exact Hx. }
  rewrite forallb_forall in H. specialize (H c).
  rewrite H in Hc; [discriminate|]. apply in_rev. rewrite rev_involutive. left; reflexivity.
Qed.

(** ** The hook's guards *)

(** C5: an authenticated createComment whose content is empty or made of
    white space only issues no store call, shows the validation toast,
    returns null, and leaves the database and the comment state as they
    were. *)
Theorem createComment_blank_content_rejected :
  forall postId u content parentId w,
    forallb Js.isWhiteSpace content = true ->
    let (r, w') := Hook.createComment postId (Some u) content parentId w in
    r = Hook.Normal None
    /\ Hook.calls w' = Hook.calls w
    /\ Hook.db w' = Hook.db w
    /\ Hook.comments w' = Hook.comments w
    /\ Hook.loading w' = Hook.loading w
    /\ Hook.toasts w' =
         Hook.toasts w ++ [Hook.ToastError "Le commentaire ne peut pas être vide"].
Proof.
  intros postId u content parentId w Hblank.
  unfold Hook.createComment.
  rewrite (trim_blank content Hblank). simpl.
  repeat split; reflexivity.
Qed.

Lemma createComment_blank_content_rejected_witness :
  forallb Js.isWhiteSpace (Sample.txt "   ") = true
  /\ let (r, w') := Hook.createComment "p1" (Some Sample.u1) (Sample.txt "   ") None
                      (Sample.world Sample.serving) in
     r = Hook.Normal None
     /\ Hook.calls w' = []
     /\ Hook.db w' = Sample.db0
     /\ Hook.comments w' = []
     /\ Hook.loading w' = false
     /\ Hook.toasts w' = [Hook.ToastError "Le commentaire ne peut pas être vide"].
Proof.
  split; [reflexivity|].
  exact (createComment_blank_content_rejected "p1" Sample.u1 (Sample.txt "   ")
           None (Sample.world Sample.serving) eq_refl).
Defined.

(** C6: without a session, createComment and likeComment issue no store
    call, show the sign-in toast, and leave the database and the comment
    state as they were. *)
Theorem unauthenticated_mutations_rejected :
  forall postId w,
    (forall content parentId,
        let (r, w') := Hook.createComment postId None content parentId w in
        r = Hook.Normal None
        /\ Hook.calls w' = Hook.calls w
        /\ Hook.db w' = Hook.db w
        /\ Hook.comments w' = Hook.comments w
        /\ Hook.toasts w' =
             Hook.toasts w
             ++ [Hook.ToastError "Vous devez être connecté pour commenter"])
    /\ (forall commentId,
        let (r, w') := Hook.likeComment postId None commentId w in
        r = Hook.Normal tt
        /\ Hook.calls w' = Hook.calls w
        /\ Hook.db w' = Hook.db w
        /\ Hook.comments w' = Hook.comments w
        /\ Hook.toasts w' =
             Hook.toasts w
             ++ [Hook.ToastError "Vous devez être connecté pour liker un commentaire"]).
Proof.
  intros postId w. split; intros; simpl; repeat split; reflexivity.
Qed.

(** ** fetchComments *)

Ltac unfold_async :=
  unfold Hook.bind, Hook.ret, Hook.try_catch, Hook.try_finally, Hook.request,
    Hook.setLoading, Hook.setComments, Hook.console_error, Hook.toast.

(** What fetchComments never does: it completes normally, and touches
    neither the database, nor the toasts, nor the outside; the calls it adds
    are reads. *)
Lemma fetchComments_frame postId user w :
  fst (Hook.fetchComments postId user w) = Hook.Normal tt
  /\ Hook.db (snd (Hook.fetchComments postId user w)) = Hook.db w
  /\ Hook.toasts (snd (Hook.fetchComments postId user w)) = Hook.toasts w
  /\ Hook.env (snd (Hook.fetchComments postId user w)) = Hook.env w
  /\ (Hook.tick w <= Hook.tick (snd (Hook.fetchComments postId user w)))%nat
  /\ exists l, Hook.calls (snd (Hook.fetchComments postId user w)) = Hook.calls w ++ l
               /\ forallb Hook.is_query l = true.
Proof.
  unfold Hook.fetchComments.
  destruct (Js.truthy_string postId); simpl.
  2:{ repeat split; auto. exists []. rewrite app_nil_r. auto. }
  unfold_async. simpl.
  destruct (Hook.fault (Hook.env w (Hook.tick w))); simpl.
  - destruct user as [u|]; simpl.
    + destruct (Hook.fault (Hook.env w (S (Hook.tick w)))); simpl;
        (repeat split; auto; try lia;
         eexists; rewrite <- app_assoc; split; [reflexivity|reflexivity]).
    + repeat split; auto. eexists; split; [reflexivity|reflexivity].
  - repeat split; auto. eexists; split; [reflexivity|reflexivity].
  - repeat split; auto. eexists; split; [reflexivity|reflexivity].
Qed.

(** C7: when the comments query of fetchComments fails, whether it comes
    back as an error or its promise rejects, fetchComments still completes
    normally, logs the error, leaves the comment state as it was, and ends
    with the loading flag down. *)
Theorem fetchComments_query_failure_is_soft :
  forall postId user w e,
    let (r, w') := Hook.fetchComments postId user w in
    In (Hook.mk_Call (Hook.SelectComments postId) (Some e)) (Hook.issued w w') ->
    r = Hook.Normal tt
    /\ (exists l, Hook.console w' = Hook.console w ++ [Hook.mk_LogLine l e])
    /\ Hook.comments w' = Hook.comments w
    /\ Hook.db w' = Hook.db w
    /\ Hook.loading w' = false.
Proof.
  intros postId user w e.
  unfold Hook.fetchComments.
  destruct (Js.truthy_string postId); cbn [negb].
  2:{ unfold Hook.ret. rewrite issued_refl. intros []. }
  unfold_async. unfold Hook.issued. simpl.
  destruct (Hook.fault (Hook.env w (Hook.tick w))); simpl.
  - destruct user as [u|]; simpl.
    + destruct (Hook.fault (Hook.env w (S (Hook.tick w)))); simpl;
        rewrite <- app_assoc, skipn_length_app; simpl;
        intros [H|[H|[]]]; discriminate H.
    + rewrite skipn_length_app. simpl. intros [H|[]]; discriminate H.
  - rewrite skipn_length_app. simpl. intros [H|[]].
    injection H as <-. repeat split; eauto.
  - rewrite skipn_length_app. simpl. intros [H|[]].
    injection H as <-. repeat split; eauto.
Qed.

Lemma fetchComments_query_failure_is_soft_witness :
  let (r, w') := Hook.fetchComments "p1" (Some Sample.u2)
                   (Sample.world Sample.rejecting_first) in
  In (Hook.mk_Call (Hook.SelectComments "p1") (Some Hook.TransportError))
     (Hook.issued (Sample.world Sample.rejecting_first) w')
  /\ r = Hook.Normal tt
  /\ (exists l, Hook.console w' = [Hook.mk_LogLine l Hook.TransportError])
  /\ Hook.comments w' = []
  /\ Hook.db w' = Sample.db0
  /\ Hook.loading w' = false.
Proof.
  pose proof (fetchComments_query_failure_is_soft "p1" (Some Sample.u2)
                (Sample.world Sample.rejecting_first) Hook.TransportError) as H.
  cbv in H. cbv.
  split; [left; reflexivity|].
  apply H. left; reflexivity.
Defined.

(** ** createComment *)

Lemma insert_comment_inr uid new_id now v d row d' :
  Store.insert_comment uid new_id now v d = inr (row, d') ->
  row = Store.mk_comment_row new_id (Store.v_user_id v) (Store.v_post_id v)
          (Store.v_content v) (Store.v_parent_id v) (Some 0) now now
  /\ d' = Store.update_post_comments_count Store.INSERT row
            (Store.set_comments (Store.comments d ++ [row]) d).
Proof.
  unfold Store.insert_comment.
  repeat match goal with
         | |- context [if ?b then _ else _] => destruct b; try discriminate
         end.
  intros H. injection H as <- <-. split; reflexivity.
Qed.

(** C10: when createComment succeeds, the row it returns is the row that
    was appended to the comments table, and its content is the trimmed
    input. *)
Theorem createComment_stores_trimmed_content :
  forall postId user content parentId w row,
    let (r, w') := Hook.createComment postId user content parentId w in
    r = Hook.Normal (Some row) ->
    Store.c_content row = Js.trim content
    /\ Store.c_post_id row = postId
    /\ Store.c_parent_id row = parentId
    /\ Store.comments (Hook.db w') = Store.comments (Hook.db w) ++ [row].
Proof.
  intros postId user content parentId w row.
  unfold Hook.createComment.
  destruct user as [u|]; [|simpl; discriminate].
  destruct (Js.truthy_text (Js.trim content)); [|simpl; discriminate].
  cbn [negb]. unfold_async.
  destruct (Hook.fault (Hook.env w (Hook.tick w))); try (simpl; discriminate).
  destruct (Store.insert_comment _ _ _ _ _) as [e|[row' d']] eqn:Hins;
    [simpl; discriminate|].
  apply insert_comment_inr in Hins. destruct Hins as [Hrow Hd].
  cbn [Hook.error Hook.data].
  match goal with
  | |- context [Hook.fetchComments postId ?us ?W] =>
      pose proof (fetchComments_frame postId us W) as (Hr & Hdb & _);
      destruct (Hook.fetchComments postId us W) as [r1 w1]
  end.
  simpl in Hr, Hdb. subst r1. simpl.
  intros H. injection H as <-.
  rewrite Hdb, Hd, Hrow. simpl. repeat split; reflexivity.
Qed.

Lemma createComment_stores_trimmed_content_witness :
  let row := Store.mk_comment_row "g0" "u1" "p1" (Sample.txt "nice pick") None
               (Some 0) 100 100 in
  let (r, w') := Hook.createComment "p1" (Some Sample.u1) (Sample.txt "  nice pick ")
                   None (Sample.world Sample.serving) in
  r = Hook.Normal (Some row)
  /\ Store.c_content row = Sample.txt "nice pick"
  /\ Store.comments (Hook.db w') = Store.comments Sample.db0 ++ [row].
Proof.
  pose proof (createComment_stores_trimmed_content "p1" (Some Sample.u1)
                (Sample.txt "  nice pick ") None (Sample.world Sample.serving)
                (Store.mk_comment_row "g0" "u1" "p1" (Sample.txt "nice pick") None
                   (Some 0) 100 100)) as H.
  cbv in H. cbv.
  split; [reflexivity|].
  destruct (H eq_refl) as (H1 & _ & _ & H4).
  split; assumption.
Defined.

(** ** Store failures *)

Ltac world_proj :=
  cbn [Hook.db Hook.comments Hook.loading Hook.console Hook.toasts Hook.calls
       Hook.env Hook.tick Hook.data Hook.error Hook.fault fst snd].

Ltac no_calls :=
  unfold Hook.issued; cbn; rewrite skipn_all; intros [].

(** C8, as the claim states it, fails for likeComment: with the like insert
    coming back as an error, the failure is logged but no toast is shown. *)
Lemma likeComment_failure_without_toast :
  let (r, w') := Hook.likeComment "p1" (Some Sample.u1) "c1"
                   (Sample.world Sample.rejecting_second) in
  In (Hook.mk_Call (Hook.InsertLike "c1" "u1") (Some Hook.TransportError))
     (Hook.calls w')
  /\ Hook.console w' = [Hook.mk_LogLine "Error liking comment:" Hook.TransportError]
  /\ ~ (exists msg, In (Hook.ToastError msg) (Hook.toasts w')).
Proof.
  cbv. split; [right; left; reflexivity|].
  split; [reflexivity|].
  intros [msg []].
Qed.

(** C8 (amended): a failed comment insert is logged, shown as the generic
    toast, and createComment returns null; a failed like insert or delete is
    logged and shows no toast.  In both cases nothing is refetched and the
    database, the comment state and the loading flag stay as they were. *)
Theorem mutation_failure_handling :
  forall postId user w m e,
    Hook.is_mutation m = true ->
    (forall content parentId,
        let (r, w') := Hook.createComment postId user content parentId w in
        In (Hook.mk_Call m (Some e)) (Hook.issued w w') ->
        r = Hook.Normal None
        /\ Hook.db w' = Hook.db w
        /\ Hook.comments w' = Hook.comments w
        /\ Hook.loading w' = Hook.loading w
        /\ (exists l, Hook.console w' = Hook.console w ++ [Hook.mk_LogLine l e])
        /\ Hook.toasts w' =
             Hook.toasts w
             ++ [Hook.ToastError "Erreur lors de la création du commentaire"])
    /\ (forall commentId,
        let (r, w') := Hook.likeComment postId user commentId w in
        In (Hook.mk_Call m (Some e)) (Hook.issued w w') ->
        r = Hook.Normal tt
        /\ Hook.db w' = Hook.db w
        /\ Hook.comments w' = Hook.comments w
        /\ Hook.loading w' = Hook.loading w
        /\ (exists l, Hook.console w' = Hook.console w ++ [Hook.mk_LogLine l e])
        /\ Hook.toasts w' = Hook.toasts w).
Proof.
  intros postId user w m e Hm. split.
  - intros content parentId. unfold Hook.createComment.
    destruct user as [u|]; [|no_calls].
    destruct (Js.truthy_text (Js.trim content)); cbn [negb]; [|no_calls].
    unfold_async.
    destruct (Hook.fault (Hook.env w (Hook.tick w))).
    + destruct (Store.insert_comment _ _ _ _ _) as [e'|[row' d']] eqn:Hins.
      * unfold Hook.issued. cbn. rewrite skipn_length_app.
        intros [H|[]]. injection H as _ <-. repeat split; eauto.
      * cbn [Hook.error Hook.data].
        match goal with
        | |- context [Hook.fetchComments postId ?us ?W] =>
            pose proof (fetchComments_frame postId us W) as (Hr & _ & _ & _ & _ & l & Hl & Hq);
            destruct (Hook.fetchComments postId us W) as [r1 w1]
        end.
        cbn in Hr, Hl. subst r1. cbn. unfold Hook.issued. cbn. rewrite Hl.
        rewrite <- app_assoc, skipn_length_app.
        intros [H|H]; [discriminate H|].
        rewrite forallb_forall in Hq. apply Hq in H.
        unfold Hook.is_query in H. cbn in H. rewrite Hm in H. discriminate H.
    + unfold Hook.issued. cbn. rewrite skipn_length_app.
      intros [H|[]]. injection H as _ <-. repeat split; eauto.
    + unfold Hook.issued. cbn. rewrite skipn_length_app.
      intros [H|[]]. injection H as _ <-. repeat split; eauto.
  - intros commentId. unfold Hook.likeComment.
    destruct user as [u|]; [|no_calls].
    unfold_async.
    destruct (Hook.fault (Hook.env w (Hook.tick w)));
      [destruct (Store.select_like_single _ _ _) as [e'|l0]| |];
      world_proj;
      try (destruct (Hook.fault (Hook.env w (S (Hook.tick w))));
           [try (destruct (Store.insert_like _ _ _ _ _ _) as [e''|[row' d']])| |];
           world_proj);
      try (match goal with
           | |- context [Hook.fetchComments postId ?us ?W] =>
               pose proof (fetchComments_frame postId us W)
                 as (Hr & _ & _ & _ & _ & l & Hl & Hq);
               destruct (Hook.fetchComments postId us W) as [r1 w1];
               cbn in Hr, Hl; subst r1; unfold Hook.issued; cbn; rewrite Hl
           end);
      unfold Hook.issued; cbn; rewrite <- ?app_assoc, skipn_length_app; cbn;
      intros H;
      repeat (destruct H as [H|H];
              [first [ discriminate H
                     | injection H as Hs He; rewrite <- Hs in Hm; discriminate Hm
                     | injection H as _ <-; repeat split; eauto ]|]);
      try contradiction.
    all: rewrite forallb_forall in Hq; apply Hq in H;
      unfold Hook.is_query in H; cbn in H; rewrite Hm in H; discriminate H.
Qed.

Lemma mutation_failure_handling_witness :
  Hook.is_mutation (Hook.InsertLike "c1" "u1") = true
  /\ let w := Sample.world Sample.rejecting_second in
     let (r, w') := Hook.likeComment "p1" (Some Sample.u1) "c1" w in
     In (Hook.mk_Call (Hook.InsertLike "c1" "u1") (Some Hook.TransportError))
        (Hook.issued w w')
     /\ r = Hook.Normal tt
     /\ Hook.db w' = Hook.db w
     /\ Hook.comments w' = Hook.comments w
     /\ Hook.loading w' = Hook.loading w
     /\ (exists l, Hook.console w' =
                   Hook.console w ++ [Hook.mk_LogLine l Hook.TransportError])
     /\ Hook.toasts w' = Hook.toasts w.
Proof.
  split; [reflexivity|].
  destruct (mutation_failure_handling "p1" (Some Sample.u1)
              (Sample.world Sample.rejecting_second)
              (Hook.InsertLike "c1" "u1") Hook.TransportError eq_refl) as [_ H].
  specialize (H "c1"). cbv in H. cbv.
  split; [right; left; reflexivity|].
  apply H. right; left; reflexivity.
Defined.

(** ** The post card *)

(** C9: when the blocked flag is set the card renders null, so it exposes no
    element a user could act on. *)
Theorem PredictionCard_blocked_renders_nothing :
  forall prediction st,
    Card.isBlocked st = true ->
    Card.PredictionCard prediction st = None
    /\ Card.exposed (Card.PredictionCard prediction st) = [].
Proof.
  intros prediction st Hb. unfold Card.PredictionCard. rewrite Hb.
  split; reflexivity.
Qed.

Lemma PredictionCard_blocked_renders_nothing_witness :
  Card.isBlocked Sample.blocked_state = true
  /\ Card.PredictionCard Sample.a_prediction Sample.blocked_state = None
  /\ Card.exposed (Card.PredictionCard Sample.a_prediction Sample.blocked_state) = [].
Proof.
  split; [reflexivity|].
  exact (PredictionCard_blocked_renders_nothing Sample.a_prediction
           Sample.blocked_state eq_refl).
Defined.

(** The guard is what hides the card: without the flag the same card is
    rendered and carries the profile link among its interactive elements. *)
Lemma PredictionCard_unblocked_is_interactive prediction st :
  Card.isBlocked st = false ->
  exists n, Card.PredictionCard prediction st = Some n
            /\ Card.exposed (Some n) <> [].
Proof.
  intros Hb. unfold Card.PredictionCard. rewrite Hb.
  eexists. split; [reflexivity|].
  cbn. intros H. discriminate H.
Qed.

(** ** The comment tree *)

Section ListFacts.

Context {A B : Type}.

Lemma Permutation_filter (f : A -> bool) (l l' : list A) :
  Permutation l l' -> Permutation (filter f l) (filter f l').
Proof.
  induction 1 as [|x l l' _ IH|x y l|l l' l'' _ IH1 _ IH2]; simpl.
  - constructor.
  - destruct (f x); auto.
  - destruct (f x), (f y); auto. constructor.
  - eapply perm_trans; eauto.
Qed.

Lemma filter_filter (f g : A -> bool) (l : list A) :
  filter f (filter g l) = filter (fun x => g x && f x) l.
Proof.
  induction l as [|x l IH]; simpl; auto.
  destruct (g x); simpl; [destruct (f x)|]; rewrite IH; reflexivity.
Qed.

Lemma StronglySorted_filter (R : A -> A -> Prop) (f : A -> bool) (l : list A) :
  StronglySorted R l -> StronglySorted R (filter f l).
Proof.
  induction 1 as [|x l _ IH Hx]; simpl; [constructor|].
  destruct (f x); auto. constructor; auto.
  rewrite Forall_forall in *. intros y Hy. apply filter_In in Hy. apply Hx, Hy.
Qed.

Lemma StronglySorted_map (R : B -> B -> Prop) (g : A -> B) (l : list A) :
  StronglySorted R (map g l) <-> StronglySorted (fun a b => R (g a) (g b)) l.
Proof.
  induction l as [|x l IH]; simpl.
  - split; constructor.
  - split; intros H; inversion H; subst; constructor;
      try (apply IH; assumption);
      rewrite Forall_forall in *; intros y Hy.
    + match goal with H : forall _, In _ (map g l) -> _ |- _ => apply H end.
      apply in_map, Hy.
    + apply in_map_iff in Hy. destruct Hy as (z & <- & Hz). auto.
Qed.

Lemma NoDup_map_inj (g : A -> B) (l : list A) (x y : A) :
  NoDup (map g l) -> In x l -> In y l -> g x = g y -> x = y.
Proof.
  induction l as [|a l IH]; simpl; intros Hnd Hx Hy Heq; [contradiction|].
  inversion Hnd as [|? ? Hna Hnd']; subst.
  destruct Hx as [<-|Hx], Hy as [<-|Hy]; auto.
  - exfalso. apply Hna. rewrite Heq. apply in_map, Hy.
  - exfalso. apply Hna. rewrite <- Heq. apply in_map, Hx.
Qed.

End ListFacts.

Lemma insert_sorted_perm r l : Permutation (r :: l) (Store.insert_sorted r l).
Proof.
  induction l as [|x l IH]; simpl; auto.
  destruct (Store.c_created_at r <=? Store.c_created_at x); auto.
  eapply perm_trans; [apply perm_swap|]. constructor. exact IH.
Qed.

Lemma order_by_created_at_perm l : Permutation l (Store.order_by_created_at l).
Proof.
  induction l as [|x l IH]; simpl; auto.
  eapply perm_trans; [|apply insert_sorted_perm]. constructor. exact IH.
Qed.

Lemma insert_sorted_sorted r l :
  StronglySorted Store.created_le l -> StronglySorted Store.created_le (Store.insert_sorted r l).
Proof.
  induction 1 as [|x l Hs IH Hx]; simpl.
  - repeat constructor.
  - destruct (Store.c_created_at r <=? Store.c_created_at x) eqn:Hle.
    + apply Z.leb_le in Hle. constructor; [constructor; auto|].
      constructor; [exact Hle|].
      rewrite Forall_forall in *. intros y Hy. specialize (Hx y Hy).
      unfold Store.created_le in *. lia.
    + apply Z.leb_gt in Hle. constructor; auto.
      rewrite Forall_forall in *. intros y Hy.
      apply (Permutation_in _ (Permutation_sym (insert_sorted_perm r l))) in Hy.
      destruct Hy as [<-|Hy]; [unfold Store.created_le; lia|auto].
Qed.

Lemma order_by_created_at_sorted l :
  StronglySorted Store.created_le (Store.order_by_created_at l).
Proof.
  induction l as [|x l IH]; simpl; [constructor|].
  apply insert_sorted_sorted, IH.
Qed.

(** The rows behind the transformed list are the post's rows, sorted. *)
Lemma row_of_transformed ul p d :
  map Hook.row_of (map (Hook.transform ul) (Store.select_comments p d)) =
  Store.order_by_created_at
    (filter (fun c => String.eqb (Store.c_post_id c) p) (Store.comments d)).
Proof.
  unfold Store.select_comments. rewrite !map_map. apply map_id.
Qed.

(** A fetch that went through stores the tree built from the post's rows. *)
Lemma fetchComments_tree postId user w :
  let (r, w') := Hook.fetchComments postId user w in
  Hook.fetch_went_through postId (Hook.issued w w') ->
  exists ul,
    Hook.comments w' =
    Hook.commentsWithReplies
      (map (Hook.transform ul) (Store.select_comments postId (Hook.db w))).
Proof.
  unfold Hook.fetchComments, Hook.fetch_went_through.
  destruct (Js.truthy_string postId); cbn [negb].
  2:{ unfold Hook.ret. rewrite issued_refl. intros [[] _]. }
  unfold_async. unfold Hook.issued. world_proj.
  destruct (Hook.fault (Hook.env w (Hook.tick w))); world_proj.
  - destruct user as [u|]; world_proj.
    + destruct (Hook.fault (Hook.env w (S (Hook.tick w)))); world_proj;
        rewrite <- app_assoc, skipn_length_app; intros [_ Hok].
      * eexists; reflexivity.
      * eexists; reflexivity.
      * exfalso. eapply Hok; [right; left; reflexivity|reflexivity].
    + intros _. eexists; reflexivity.
  - rewrite skipn_length_app. intros [[H|[]] _]. discriminate H.
  - rewrite skipn_length_app. intros [[H|[]] _]. discriminate H.
Qed.

Lemma falsy_parent_is_null (c : Store.comment_row) :
  Store.c_parent_id c <> Some "" ->
  negb (Js.truthy_opt_string (Store.c_parent_id c)) =
  match Store.c_parent_id c with None => true | Some _ => false end.
Proof.
  destruct (Store.c_parent_id c) as [q|]; simpl; auto.
  intros Hq. unfold Js.truthy_string.
  destruct (String.eqb_spec q "") as [->|_]; [|reflexivity].
  exfalso. apply Hq. reflexivity.
Qed.

Lemma roots_of_tree T :
  map Hook.root (Hook.commentsWithReplies T) = Hook.rootComments T.
Proof.
  unfold Hook.commentsWithReplies. rewrite map_map. apply map_id.
Qed.

(** The shape of the tree, on the rows of the database. *)
Lemma tree_shape ul p d :
  Store.parents_are_uuids d ->
  let T := Hook.commentsWithReplies
             (map (Hook.transform ul) (Store.select_comments p d)) in
  Permutation (map Hook.row_of (map Hook.root T))
    (filter (Store.is_root_of p) (Store.comments d))
  /\ Hook.ascending (map Hook.root T)
  /\ Forall (fun t =>
               Permutation (map Hook.row_of (Hook.replies t))
                 (filter (Store.is_reply_to p (Hook.id (Hook.root t)))
                    (Store.comments d))
               /\ Hook.ascending (Hook.replies t)) T.
Proof.
  intros Hu. cbv zeta.
  set (S := map (Hook.transform ul) (Store.select_comments p d)).
  pose proof (row_of_transformed ul p d) as HS. fold S in HS.
  assert (Hasc : forall f, Hook.ascending (filter f S)).
  { intros f. apply StronglySorted_filter.
    apply (StronglySorted_map Store.created_le Hook.row_of).
    rewrite HS. apply order_by_created_at_sorted. }
  assert (Hperm : forall f : Store.comment_row -> bool,
             Permutation (map Hook.row_of (filter (fun c => f (Hook.row_of c)) S))
               (filter (fun c => String.eqb (Store.c_post_id c) p && f c)
                  (Store.comments d))).
  { intros f. rewrite <- filter_map_swap, HS, <- filter_filter.
    apply Permutation_filter, Permutation_sym, order_by_created_at_perm. }
  rewrite roots_of_tree. repeat split.
  - unfold Hook.rootComments.
    eapply perm_trans; [apply (Hperm (fun c => negb (Js.truthy_opt_string
                                                       (Store.c_parent_id c))))|].
    erewrite filter_ext_in; [reflexivity|].
    intros c Hc. unfold Store.is_root_of.
    rewrite falsy_parent_is_null by (apply Hu, Hc). reflexivity.
  - apply Hasc.
  - unfold Hook.commentsWithReplies.
    rewrite Forall_map. apply Forall_forall. intros c _. cbn [Hook.root Hook.replies].
    split; [|apply Hasc].
    apply (Hperm (fun r => Js.strict_eq_opt (Store.c_parent_id r) (Hook.id c))).
Qed.

(** C1: after a fetch that went through, the roots of the tree are exactly
    the post's rows without a parent, the replies of each root are exactly
    the post's rows whose parent is that root, and roots and replies are in
    ascending creation time. *)
Theorem fetchComments_builds_one_level_tree :
  forall postId user w,
    Store.parents_are_uuids (Hook.db w) ->
    let (r, w') := Hook.fetchComments postId user w in
    Hook.fetch_went_through postId (Hook.issued w w') ->
    Permutation (map Hook.row_of (map Hook.root (Hook.comments w')))
      (filter (Store.is_root_of postId) (Store.comments (Hook.db w)))
    /\ Hook.ascending (map Hook.root (Hook.comments w'))
    /\ Forall (fun t =>
                 Permutation (map Hook.row_of (Hook.replies t))
                   (filter (Store.is_reply_to postId (Hook.id (Hook.root t)))
                      (Store.comments (Hook.db w)))
                 /\ Hook.ascending (Hook.replies t))
         (Hook.comments w').
Proof.
  intros postId user w Hu.
  pose proof (fetchComments_tree postId user w) as Htree.
  destruct (Hook.fetchComments postId user w) as [r w'].
  intros Hok. destruct (Htree Hok) as [ul ->].
  apply tree_shape, Hu.
Qed.

Lemma sample_parents_are_uuids : Store.parents_are_uuids Sample.db0.
Proof.
  intros c Hc. simpl in Hc.
  repeat (destruct Hc as [<-|Hc]; [discriminate|]). contradiction.
Qed.

Lemma sample_fetch_went_through :
  Hook.fetch_went_through "p1"
    (Hook.issued (Sample.world Sample.serving)
       (snd (Hook.fetchComments "p1" (Some Sample.u2) (Sample.world Sample.serving)))).
Proof.
  split; [left; reflexivity|].
  intros c Hc. cbv in Hc. destruct Hc as [<-|[<-|[]]]; discriminate.
Qed.

Lemma fetchComments_builds_one_level_tree_witness :
  let w := Sample.world Sample.serving in
  let w' := snd (Hook.fetchComments "p1" (Some Sample.u2) w) in
  Store.parents_are_uuids (Hook.db w)
  /\ Hook.fetch_went_through "p1" (Hook.issued w w')
  /\ map (fun t => (Hook.id (Hook.root t), map Hook.id (Hook.replies t)))
         (Hook.comments w') = [("c4", []); ("c1", ["c5"; "c2"])]
  /\ Permutation (map Hook.row_of (map Hook.root (Hook.comments w')))
       (filter (Store.is_root_of "p1") (Store.comments (Hook.db w)))
  /\ Forall (fun t =>
               Permutation (map Hook.row_of (Hook.replies t))
                 (filter (Store.is_reply_to "p1" (Hook.id (Hook.root t)))
                    (Store.comments (Hook.db w)))
               /\ Hook.ascending (Hook.replies t))
       (Hook.comments w').
Proof.
  cbv zeta.
  split; [exact sample_parents_are_uuids|].
  split; [exact sample_fetch_went_through|].
  split; [reflexivity|].
  pose proof (fetchComments_builds_one_level_tree "p1" (Some Sample.u2)
                (Sample.world Sample.serving) sample_parents_are_uuids) as H.
  destruct (Hook.fetchComments "p1" (Some Sample.u2) (Sample.world Sample.serving))
    as [r w'] eqn:E.
  pose proof sample_fetch_went_through as Hok. rewrite E in Hok.
  destruct (H Hok) as (H1 & _ & H3). split; assumption.
Defined.

(** Every comment of a transformed list stands for a row of the table. *)
Lemma transformed_in_table ul p d x :
  In x (map (Hook.transform ul) (Store.select_comments p d)) ->
  In (Hook.row_of x) (Store.comments d).
Proof.
  intros Hx. apply (in_map Hook.row_of) in Hx.
  rewrite row_of_transformed in Hx.
  apply (Permutation_in _ (Permutation_sym (order_by_created_at_perm _))) in Hx.
  apply filter_In in Hx. apply Hx.
Qed.

(** A comment whose parent is itself a reply has no place in the tree. *)
Lemma nested_reply_not_in_tree ul p d c q :
  Store.primary_key d -> Store.parents_are_uuids d ->
  In c (Store.comments d) -> In q (Store.comments d) ->
  Store.c_parent_id c = Some (Store.c_id q) ->
  Store.c_parent_id q <> None ->
  ~ In (Store.c_id c)
      (Hook.tree_ids
         (Hook.commentsWithReplies
            (map (Hook.transform ul) (Store.select_comments p d)))).
Proof.
  intros Hpk Hu Hc Hq Hpar Hnonroot Hin.
  set (S := map (Hook.transform ul) (Store.select_comments p d)) in *.
  assert (Hrow : forall x, In x S -> Hook.id x = Store.c_id c -> Hook.row_of x = c).
  { intros x Hx Hid.
    apply (NoDup_map_inj Store.c_id (Store.comments d)); auto.
    eapply transformed_in_table; exact Hx. }
  assert (Htruthy : forall r, In r (Store.comments d) -> Store.c_parent_id r <> None ->
                       negb (Js.truthy_opt_string (Store.c_parent_id r)) = false).
  { intros r Hr Hn. rewrite falsy_parent_is_null by (apply Hu, Hr).
    destruct (Store.c_parent_id r); congruence. }
  unfold Hook.tree_ids in Hin. apply in_flat_map in Hin.
  destruct Hin as (t & Ht & Hin).
  unfold Hook.commentsWithReplies in Ht. apply in_map_iff in Ht.
  destruct Ht as (c0 & <- & Hc0). cbn [Hook.root Hook.replies] in Hin.
  unfold Hook.rootComments in Hc0. apply filter_In in Hc0.
  destruct Hc0 as [Hc0 Hfalsy].
  destruct Hin as [Hid|Hin].
  - (* c would be a root *)
    pose proof (Hrow c0 Hc0 Hid) as E.
    unfold Hook.parent_id in Hfalsy. fold (Hook.row_of c0) in Hfalsy.
    rewrite E, Htruthy in Hfalsy; [discriminate|exact Hc|congruence].
  - (* c would be a reply of the root c0, so c0 would be q *)
    apply in_map_iff in Hin. destruct Hin as (x & Hid & Hx).
    apply filter_In in Hx. destruct Hx as [Hx Heq].
    pose proof (Hrow x Hx Hid) as E.
    unfold Hook.parent_id in Heq. fold (Hook.row_of x) in Heq.
    rewrite E, Hpar in Heq. simpl in Heq. apply String.eqb_eq in Heq.
    assert (E0 : Hook.row_of c0 = q).
    { apply (NoDup_map_inj Store.c_id (Store.comments d)); auto.
      eapply transformed_in_table; exact Hc0. }
    unfold Hook.parent_id in Hfalsy. fold (Hook.row_of c0) in Hfalsy.
    rewrite E0, Htruthy in Hfalsy; [discriminate|exact Hq|exact Hnonroot].
Qed.

(** C3: after a fetch that went through, a comment whose parent is not a
    root (a reply to a reply) appears neither among the roots nor in any
    root's replies. *)
Theorem fetchComments_drops_nested_replies :
  forall postId user w c q,
    Store.primary_key (Hook.db w) ->
    Store.parents_are_uuids (Hook.db w) ->
    In c (Store.comments (Hook.db w)) ->
    In q (Store.comments (Hook.db w)) ->
    Store.c_parent_id c = Some (Store.c_id q) ->
    Store.c_parent_id q <> None ->
    let (r, w') := Hook.fetchComments postId user w in
    Hook.fetch_went_through postId (Hook.issued w w') ->
    ~ In (Store.c_id c) (Hook.tree_ids (Hook.comments w')).
Proof.
  intros postId user w c q Hpk Hu Hc Hq Hpar Hnonroot.
  pose proof (fetchComments_tree postId user w) as Htree.
  destruct (Hook.fetchComments postId user w) as [r w'].
  intros Hok. destruct (Htree Hok) as [ul ->].
  eapply nested_reply_not_in_tree; eauto.
Qed.

Lemma sample_primary_key : Store.primary_key Sample.db0.
Proof.
  unfold Store.primary_key. simpl.
  repeat (constructor; [simpl; intuition discriminate|]). constructor.
Qed.

Lemma fetchComments_drops_nested_replies_witness :
  let w := Sample.world Sample.serving in
  let w' := snd (Hook.fetchComments "p1" (Some Sample.u2) w) in
  Store.primary_key (Hook.db w)
  /\ Store.parents_are_uuids (Hook.db w)
  /\ In Sample.c3 (Store.comments (Hook.db w))
  /\ In Sample.c2 (Store.comments (Hook.db w))
  /\ Store.c_parent_id Sample.c3 = Some (Store.c_id Sample.c2)
  /\ Store.c_parent_id Sample.c2 <> None
  /\ Hook.fetch_went_through "p1" (Hook.issued w w')
  /\ ~ In (Store.c_id Sample.c3) (Hook.tree_ids (Hook.comments w')).
Proof.
  cbv zeta.
  assert (H3 : In Sample.c3 (Store.comments Sample.db0))
    by (right; right; left; reflexivity).
  assert (H2 : In Sample.c2 (Store.comments Sample.db0))
    by (right; left; reflexivity).
  assert (Hn : Store.c_parent_id Sample.c2 <> None) by discriminate.
  repeat (split; [first [ exact sample_primary_key | exact sample_parents_are_uuids
                        | exact H3 | exact H2 | reflexivity | exact Hn
                        | exact sample_fetch_went_through ]|]).
  pose proof (fetchComments_drops_nested_replies "p1" (Some Sample.u2)
                (Sample.world Sample.serving) Sample.c3 Sample.c2
                sample_primary_key sample_parents_are_uuids H3 H2 eq_refl Hn) as H.
  destruct (Hook.fetchComments "p1" (Some Sample.u2) (Sample.world Sample.serving))
    as [r w'] eqn:E.
  pose proof sample_fetch_went_through as Hok. rewrite E in Hok.
  exact (H Hok).
Defined.

(** ** The cascade reaches every reply *)

Section Cascade.

Variable t : list Store.comment_row.
Variable target : Store.comment_row -> bool.

Lemma cascades_S k c :
  Store.cascades (S k) t target c =
  target c ||
  match Store.c_parent_id c with
  | None => false
  | Some p =>
      existsb (fun q => String.eqb (Store.c_id q) p && Store.cascades k t target q) t
  end.
Proof. reflexivity. Qed.

Lemma cascades_mono k :
  forall c, Store.cascades k t target c = true ->
            Store.cascades (S k) t target c = true.
Proof.
  induction k as [|k IH]; intros c H; rewrite cascades_S.
  - simpl in H. rewrite orb_false_r in H. rewrite H. reflexivity.
  - rewrite cascades_S in H. apply orb_true_iff in H. apply orb_true_iff.
    destruct H as [H|H]; [left; exact H|right].
    destruct (Store.c_parent_id c) as [p|]; [|discriminate].
    apply existsb_exists in H. destruct H as (q & Hq & Hc).
    apply andb_true_iff in Hc. destruct Hc as [Hid Hd].
    apply existsb_exists. exists q. split; [exact Hq|].
    rewrite Hid. apply IH, Hd.
Qed.

Lemma existsb_ext_in {A} (f g : A -> bool) (l : list A) :
  (forall x, In x l -> f x = g x) -> existsb f l = existsb g l.
Proof.
  induction l as [|x l IH]; simpl; intros H; [reflexivity|].
  rewrite (H x) by auto. rewrite IH by auto. reflexivity.
Qed.

(** Once a round adds no row of the table, no later round adds anything. *)
Lemma cascades_stable_step k :
  (forall q, In q t -> Store.cascades (S k) t target q = Store.cascades k t target q) ->
  forall c, Store.cascades (S (S k)) t target c = Store.cascades (S k) t target c.
Proof.
  intros H c. rewrite (cascades_S (S k)), (cascades_S k). f_equal.
  destruct (Store.c_parent_id c) as [p|]; [|reflexivity].
  apply existsb_ext_in. intros q Hq. rewrite (H q Hq). reflexivity.
Qed.

Lemma cascades_stable_from j :
  (forall q, In q t -> Store.cascades (S j) t target q = Store.cascades j t target q) ->
  forall k, (j <= k)%nat ->
  forall q, In q t -> Store.cascades (S k) t target q = Store.cascades k t target q.
Proof.
  intros Hj k Hk. induction Hk as [|k Hk IH]; [exact Hj|].
  intros q _. apply cascades_stable_step, IH.
Qed.

Lemma filter_length_grows {A} (f g : A -> bool) (l : list A) :
  (forall x, In x l -> f x = true -> g x = true) ->
  (List.length (filter f l) <= List.length (filter g l))%nat
  /\ ((exists x, In x l /\ f x = false /\ g x = true) ->
      (List.length (filter f l) < List.length (filter g l))%nat).
Proof.
  induction l as [|x l IH]; intros Himp.
  - split; [reflexivity|]. intros (x & [] & _).
  - destruct IH as [IHle IHlt]; [intros y Hy; apply Himp; right; exact Hy|].
    specialize (Himp x (or_introl eq_refl)).
    simpl. destruct (f x) eqn:Hf, (g x) eqn:Hg; simpl.
    + split; [lia|]. intros (y & [<-|Hy] & Hfy & Hgy); [congruence|].
      assert (List.length (filter f l) < List.length (filter g l))%nat
        by (apply IHlt; eauto). lia.
    + specialize (Himp eq_refl). discriminate.
    + split; lia.
    + split; [lia|]. intros (y & [<-|Hy] & Hfy & Hgy); [congruence|].
      apply IHlt; eauto.
Qed.

(** Within as many rounds as the table has rows, a round adds nothing. *)
Lemma cascades_stabilises_within k :
  (exists j, (j < k)%nat
             /\ forall q, In q t ->
                  Store.cascades (S j) t target q = Store.cascades j t target q)
  \/ (k <= List.length (filter (Store.cascades k t target) t))%nat.
Proof.
  induction k as [|k [(j & Hj & Hst)|Hcount]].
  - right. lia.
  - left. exists j. split; [lia|exact Hst].
  - destruct (forallb (fun q => Bool.eqb (Store.cascades (S k) t target q)
                                  (Store.cascades k t target q)) t) eqn:Hall.
    + left. exists k. split; [lia|]. intros q Hq.
      rewrite forallb_forall in Hall. apply eqb_prop, Hall, Hq.
    + right.
      assert (Hex : exists q, In q t /\ Store.cascades k t target q = false
                              /\ Store.cascades (S k) t target q = true).
      { destruct (forallb_forall
                    (fun q => Bool.eqb (Store.cascades (S k) t target q)
                                (Store.cascades k t target q)) t) as [_ Hb].
        destruct (existsb (fun q => negb (Bool.eqb (Store.cascades (S k) t target q)
                                            (Store.cascades k t target q))) t) eqn:Hsome.
        - apply existsb_exists in Hsome. destruct Hsome as (q & Hq & Hne).
          exists q. split; [exact Hq|].
          pose proof (cascades_mono k q) as Hm.
          destruct (Store.cascades k t target q), (Store.cascades (S k) t target q);
            simpl in Hne; try discriminate; auto.
          discriminate (Hm eq_refl).
        - exfalso. rewrite Hb in Hall; [discriminate|].
          intros q Hq.
          destruct (Bool.eqb (Store.cascades (S k) t target q)
                      (Store.cascades k t target q)) eqn:E; [reflexivity|].
          assert (Hin : existsb (fun q => negb (Bool.eqb (Store.cascades (S k) t target q)
                                                  (Store.cascades k t target q))) t = true)
            by (apply existsb_exists; exists q; rewrite E; auto).
          congruence. }
      destruct (filter_length_grows (Store.cascades k t target)
                  (Store.cascades (S k) t target) t) as [_ Hlt];
        [intros q _; apply cascades_mono|].
      specialize (Hlt Hex). lia.
Qed.

(** The fuel is enough: one more round adds no row of the table. *)
Lemma cascades_fuel_enough :
  forall q, In q t ->
    Store.cascades (S (List.length t)) t target q
    = Store.cascades (List.length t) t target q.
Proof.
  destruct (cascades_stabilises_within (S (List.length t)))
    as [(j & Hj & Hst)|Hcount].
  - apply (cascades_stable_from j Hst). lia.
  - pose proof (filter_length_le (Store.cascades (S (List.length t)) t target) t).
    lia.
Qed.

(** A reply of a removed row is removed. *)
Lemma cascades_closed c q :
  In c t -> In q t ->
  Store.c_parent_id c = Some (Store.c_id q) ->
  Store.cascades (List.length t) t target q = true ->
  Store.cascades (List.length t) t target c = true.
Proof.
  intros Hc Hq Hpar Hd.
  rewrite <- (cascades_fuel_enough c Hc), cascades_S, Hpar.
  apply orb_true_iff. right. apply existsb_exists.
  exists q. split; [exact Hq|]. rewrite String.eqb_refl. exact Hd.
Qed.

End Cascade.

(** ON DELETE CASCADE is followed to the end: a DELETE on comments that
    removes a row removes every reply to it. *)
Lemma removed_comments_closed uid where_ db c q :
  In c (Store.comments db) -> In q (Store.comments db) ->
  Store.c_parent_id c = Some (Store.c_id q) ->
  Store.removed_comments uid where_ db q = true ->
  Store.removed_comments uid where_ db c = true.
Proof.
  unfold Store.removed_comments. apply cascades_closed.
Qed.

(** ** The post counter *)

Lemma count_comments_by_posts p d d' :
  map Store.c_post_id (Store.comments d) = map Store.c_post_id (Store.comments d') ->
  Store.count_comments p d = Store.count_comments p d'.
Proof.
  intros H. unfold Store.count_comments. f_equal.
  rewrite <- (length_map Store.c_post_id (filter _ (Store.comments d))).
  rewrite <- (length_map Store.c_post_id (filter _ (Store.comments d'))).
  rewrite <- !(filter_map_swap (fun x => String.eqb x p) Store.c_post_id).
  do 2 f_equal. exact H.
Qed.

Lemma likes_trigger_keeps_posts op l d :
  Store.posts (Store.update_comment_likes_count op l d) = Store.posts d
  /\ map Store.c_post_id (Store.comments (Store.update_comment_likes_count op l d))
     = map Store.c_post_id (Store.comments d).
Proof.
  destruct op; simpl; split; auto;
    rewrite map_map; apply map_ext; intros c;
    destruct (String.eqb (Store.c_id c) (Store.l_comment_id l)); reflexivity.
Qed.

Lemma likes_triggers_keep_posts ls d :
  let d' := fold_left (fun d l => Store.update_comment_likes_count Store.DELETE l d) ls d in
  Store.posts d' = Store.posts d
  /\ map Store.c_post_id (Store.comments d') = map Store.c_post_id (Store.comments d).
Proof.
  revert d. induction ls as [|l ls IH]; intros d; simpl; [auto|].
  destruct (IH (Store.update_comment_likes_count Store.DELETE l d)) as [H1 H2].
  destruct (likes_trigger_keeps_posts Store.DELETE l d) as [H3 H4].
  simpl in *. split; congruence.
Qed.

Lemma recount_keeps_comments op r d :
  Store.comments (Store.update_post_comments_count op r d) = Store.comments d.
Proof. destruct op; reflexivity. Qed.

Section Recount.

Variable op : Store.TgOp.
Hypothesis row_op : op = Store.INSERT \/ op = Store.DELETE.

Lemma recount_sets_counter r d :
  Store.counter_is (Store.update_post_comments_count op r d) (Store.c_post_id r)
    (Store.count_comments (Store.c_post_id r) d).
Proof.
  assert (H : forall ps,
             forall row,
               In row (map (fun p => if String.eqb (Store.p_id p) (Store.c_post_id r)
                                     then Store.mk_post_row (Store.p_id p)
                                            (Some (Store.count_comments (Store.c_post_id r) d))
                                     else p) ps) ->
               Store.p_id row = Store.c_post_id r ->
               Store.p_comments row = Some (Store.count_comments (Store.c_post_id r) d)).
  { intros ps row Hin Hid. apply in_map_iff in Hin. destruct Hin as (x & Hx & _).
    destruct (String.eqb_spec (Store.p_id x) (Store.c_post_id r)); subst row; auto.
    contradiction. }
  destruct row_op; subst op; intros row Hin Hid; apply (H (Store.posts d)); auto.
Qed.

Lemma recount_keeps_other_counters r d p n :
  p <> Store.c_post_id r ->
  Store.counter_is d p n ->
  Store.counter_is (Store.update_post_comments_count op r d) p n.
Proof.
  intros Hp Hd.
  assert (H : forall row,
             In row (map (fun q => if String.eqb (Store.p_id q) (Store.c_post_id r)
                                   then Store.mk_post_row (Store.p_id q)
                                          (Some (Store.count_comments (Store.c_post_id r) d))
                                   else q) (Store.posts d)) ->
             Store.p_id row = p -> Store.p_comments row = Some n).
  { intros row Hin Hid. apply in_map_iff in Hin. destruct Hin as (x & Hx & Hxin).
    destruct (String.eqb_spec (Store.p_id x) (Store.c_post_id r)); subst row.
    - simpl in Hid. congruence.
    - apply Hd; auto. }
  destruct row_op; subst op; exact H.
Qed.

End Recount.

Lemma recounts_keep_comments gone d :
  Store.comments
    (fold_left (fun d c => Store.update_post_comments_count Store.DELETE c d) gone d)
  = Store.comments d.
Proof.
  revert d. induction gone as [|r gone IH]; intros d; cbn [fold_left]; [reflexivity|].
  rewrite IH. apply (recount_keeps_comments Store.DELETE).
Qed.

Lemma recounts_keep_other_counters gone d p n :
  ~ In p (map Store.c_post_id gone) ->
  Store.counter_is d p n ->
  Store.counter_is
    (fold_left (fun d c => Store.update_post_comments_count Store.DELETE c d) gone d)
    p n.
Proof.
  revert d. induction gone as [|r gone IH]; intros d Hp Hd;
    cbn [fold_left map In] in *; [exact Hd|].
  apply IH; [tauto|].
  apply (recount_keeps_other_counters Store.DELETE); auto.
Qed.

Lemma recounts_set_counter gone d p :
  In p (map Store.c_post_id gone) ->
  Store.counter_is
    (fold_left (fun d c => Store.update_post_comments_count Store.DELETE c d) gone d)
    p (Store.count_comments p d).
Proof.
  revert d. induction gone as [|r gone IH]; intros d Hp;
    cbn [fold_left map In] in *; [contradiction|].
  destruct (in_dec string_dec p (map Store.c_post_id gone)) as [Hin|Hout].
  - erewrite count_comments_by_posts; [apply IH, Hin|].
    rewrite (recount_keeps_comments Store.DELETE). reflexivity.
  - destruct Hp as [<-|Hp]; [|contradiction].
    apply recounts_keep_other_counters; auto.
    apply (recount_sets_counter Store.DELETE); auto.
Qed.

(** Removing rows of other posts leaves the number of rows of [p] alone. *)
Lemma count_after_removal p (doomed : Store.comment_row -> bool) l :
  ~ In p (map Store.c_post_id (filter doomed l)) ->
  filter (fun c => String.eqb (Store.c_post_id c) p) (filter (fun c => negb (doomed c)) l)
  = filter (fun c => String.eqb (Store.c_post_id c) p) l.
Proof.
  induction l as [|c l IH]; simpl; intros Hp; [reflexivity|].
  destruct (doomed c) eqn:Hd; simpl in *.
  - destruct (String.eqb_spec (Store.c_post_id c) p) as [E|_]; [tauto|].
    apply IH. tauto.
  - rewrite IH by exact Hp. reflexivity.
Qed.

Lemma exec_keeps_counter_exact s d p :
  Store.counter_exact d p \/ In p (Store.recounted s d) ->
  Store.counter_exact (Store.exec s d) p.
Proof.
  destruct s as [uid new_id now v|uid where_]; cbn [Store.exec Store.recounted].
  - (* INSERT *)
    destruct (Store.insert_comment uid new_id now v d) as [e|[row d']] eqn:Hins.
    { intros [H|[]]. exact H. }
    apply insert_comment_inr in Hins. destruct Hins as [Hrow ->].
    set (d1 := Store.set_comments (Store.comments d ++ [row]) d).
    unfold Store.counter_exact.
    rewrite (count_comments_by_posts p
               (Store.update_post_comments_count Store.INSERT row d1) d1)
      by (rewrite recount_keeps_comments; reflexivity).
    destruct (string_dec p (Store.c_post_id row)) as [->|Hne].
    + intros _. apply (recount_sets_counter Store.INSERT); auto.
    + intros [H|[H|[]]]; [|congruence].
      apply (recount_keeps_other_counters Store.INSERT); auto.
      unfold Store.count_comments, d1. simpl. rewrite filter_app. simpl.
      destruct (String.eqb_spec (Store.c_post_id row) p); [congruence|].
      rewrite app_nil_r. exact H.
  - (* DELETE *)
    unfold Store.delete_comments.
    set (doomed := Store.removed_comments uid where_ d).
    set (gone := filter doomed (Store.comments d)).
    set (kept := filter (fun c => negb (doomed c)) (Store.comments d)).
    match goal with
    | |- context [fold_left ?g gone (fold_left ?f ?ls ?d1)] =>
        set (d2 := fold_left f ls d1);
        pose proof (likes_triggers_keep_posts ls d1) as [Hposts Hcs];
        fold d2 in Hposts, Hcs;
        unfold Store.counter_exact;
        rewrite (count_comments_by_posts p (fold_left g gone d2) d2)
          by (rewrite recounts_keep_comments; reflexivity)
    end.
    simpl in Hposts, Hcs.
    destruct (in_dec string_dec p (map Store.c_post_id gone)) as [Hin|Hout].
    + intros _. apply recounts_set_counter, Hin.
    + intros [H|H]; [|contradiction].
      apply recounts_keep_other_counters; [exact Hout|].
      intros row Hrow Hid. rewrite Hposts in Hrow.
      rewrite (H row Hrow Hid). f_equal.
      rewrite (count_comments_by_posts p d2 (Store.set_comments kept d)) by exact Hcs.
      unfold Store.count_comments. simpl. unfold kept.
      rewrite count_after_removal by exact Hout. reflexivity.
Qed.

(** C4: after any sequence of comment inserts and deletes, each followed by
    the recount trigger on the rows it touched, the counter of a post is the
    number of comment rows of that post, as soon as it was so before the
    sequence or one of the statements inserted or removed a row of the
    post. *)
Theorem post_counter_exact_after_statements :
  forall ss db p,
    Store.counter_exact db p \/ In p (Store.recounted_during ss db) ->
    Store.counter_exact (Store.run ss db) p.
Proof.
  induction ss as [|s ss IH]; intros db p H; simpl in *.
  - destruct H as [H|[]]. exact H.
  - apply IH. rewrite in_app_iff in H.
    destruct H as [H|[H|H]]; [left|left|right; exact H];
      apply exec_keeps_counter_exact; auto.
Qed.

(** The counter law at work: an insert on p1, then the delete of the root
    c1, which takes its replies c2, c5 and c3 with it. *)
Lemma post_counter_exact_after_statements_witness :
  let ss := [ Store.InsertComment (Some "u1") "n1" 50
                (Store.mk_comment_values "u1" "p1" (Sample.txt "nice pick") None);
              Store.DeleteComments (Some "u1")
                (fun c => String.eqb (Store.c_id c) "c1") ] in
  (Store.counter_exact Sample.db0 "p1"
   \/ In "p1" (Store.recounted_during ss Sample.db0))
  /\ Store.posts (Store.run ss Sample.db0) =
       [Store.mk_post_row "p1" (Some 2); Store.mk_post_row "p2" (Some 0)]
  /\ Store.counter_exact (Store.run ss Sample.db0) "p1".
Proof.
  cbv zeta.
  assert (H : In "p1"
                (Store.recounted_during
                   [ Store.InsertComment (Some "u1") "n1" 50
                       (Store.mk_comment_values "u1" "p1" (Sample.txt "nice pick") None);
                     Store.DeleteComments (Some "u1")
                       (fun c => String.eqb (Store.c_id c) "c1") ] Sample.db0))
    by (left; reflexivity).
  split; [right; exact H|].
  split; [reflexivity|].
  apply post_counter_exact_after_statements. right. exact H.
Defined.


(** ** The like toggle *)

Lemma likeComment_served postId u c w :
  (forall n, (Hook.tick w <= n)%nat -> Hook.fault (Hook.env w n) = Hook.Deliver) ->
  let w' := snd (Hook.likeComment postId (Some u) c w) in
  Hook.db w' = Hook.toggle_like (Hook.u_id u) c (Hook.env w (S (Hook.tick w))) (Hook.db w)
  /\ Hook.env w' = Hook.env w
  /\ (Hook.tick w <= Hook.tick w')%nat.
Proof.
  intros Hrel. cbv zeta.
  unfold Hook.likeComment, Hook.toggle_like. unfold_async.
  rewrite (Hrel (Hook.tick w)) by lia.
  destruct (Store.select_like_single c (Hook.u_id u) (Hook.db w)) as [e|l];
    world_proj; rewrite (Hrel (S (Hook.tick w))) by lia.
  - unfold Hook.session_uid. cbn [option_map].
    destruct (Store.insert_like _ _ _ _ _ _) as [e'|[row d']]; world_proj.
    + cbn. repeat split; auto.
    + match goal with
      | |- context [Hook.fetchComments postId ?us ?W] =>
          pose proof (fetchComments_frame postId us W) as (_ & Hdb & _ & Henv & Htick & _);
          destruct (Hook.fetchComments postId us W) as [r1 w1]
      end.
      cbn in Hdb, Henv, Htick |- *. destruct r1; cbn; repeat split; auto; lia.
  - world_proj.
    match goal with
    | |- context [Hook.fetchComments postId ?us ?W] =>
        pose proof (fetchComments_frame postId us W) as (_ & Hdb & _ & Henv & Htick & _);
        destruct (Hook.fetchComments postId us W) as [r1 w1]
    end.
    cbn in Hdb, Henv, Htick |- *. destruct r1; cbn; repeat split; auto; lia.
Qed.

(** *** What the two statements do to the like rows *)

Lemma like_of_spec c u l :
  Store.like_of c u l = true <-> Store.l_comment_id l = c /\ Store.l_user_id l = u.
Proof.
  unfold Store.like_of. rewrite andb_true_iff, !String.eqb_eq. tauto.
Qed.

Lemma has_id_map_likes_count (f : Store.comment_row -> Store.comment_row) cs x :
  (forall c, Store.c_id (f c) = Store.c_id c) ->
  Store.has_id (map Store.c_id (map f cs)) x = Store.has_id (map Store.c_id cs) x.
Proof.
  intros Hf. rewrite map_map. f_equal. apply map_ext. exact Hf.
Qed.

Lemma likes_trigger_likes op l d :
  Store.comment_likes (Store.update_comment_likes_count op l d) = Store.comment_likes d
  /\ Store.auth_users (Store.update_comment_likes_count op l d) = Store.auth_users d.
Proof. destruct op; split; reflexivity. Qed.

Lemma likes_trigger_ids op l d x :
  Store.has_id (map Store.c_id (Store.comments (Store.update_comment_likes_count op l d))) x
  = Store.has_id (map Store.c_id (Store.comments d)) x.
Proof.
  destruct op; cbn [Store.update_comment_likes_count Store.comments Store.set_comments];
    try reflexivity;
    apply has_id_map_likes_count; intros c;
    destruct (String.eqb (Store.c_id c) (Store.l_comment_id l)); reflexivity.
Qed.

(** A row of the comment the trigger updates carries the old count moved
    by one. *)
Lemma likes_trigger_row (d : Store.DB) l row :
  forall op delta,
    (op = Store.INSERT /\ delta = 1) \/ (op = Store.DELETE /\ delta = -1) ->
    In row (Store.comments (Store.update_comment_likes_count op l d)) ->
    Store.c_id row = Store.l_comment_id l ->
    exists old, In old (Store.comments d)
                /\ Store.c_id old = Store.c_id row
                /\ Store.c_likes_count row = Store.bump delta (Store.c_likes_count old).
Proof.
  intros op delta Hop Hin Hid.
  assert (H : In row (map (fun c => if String.eqb (Store.c_id c) (Store.l_comment_id l)
                                    then Store.set_likes_count
                                           (Store.bump delta (Store.c_likes_count c)) c
                                    else c) (Store.comments d))).
  { destruct Hop as [[-> ->]|[-> ->]]; exact Hin. }
  apply in_map_iff in H. destruct H as (old & Hold & Hoin).
  exists old. split; [exact Hoin|].
  destruct (String.eqb_spec (Store.c_id old) (Store.l_comment_id l)).
  - subst row. split; reflexivity.
  - subst row. contradiction.
Qed.

Lemma filter_split_length {A} (f g : A -> bool) (l : list A) :
  List.length (filter f l) =
  (List.length (filter f (filter g l))
   + List.length (filter f (filter (fun x => negb (g x)) l)))%nat.
Proof.
  induction l as [|x l IH]; simpl; [reflexivity|].
  destruct (g x) eqn:Hg, (f x) eqn:Hf; simpl; rewrite ?Hf; simpl; lia.
Qed.

Lemma existsb_false_filter {A} (f : A -> bool) (l : list A) :
  existsb f l = false -> filter f l = [] /\ filter (fun x => negb (f x)) l = l.
Proof.
  induction l as [|x l IH]; simpl; [auto|].
  destruct (f x); simpl; [discriminate|].
  intros H. destruct (IH H) as [-> ->]. auto.
Qed.

Lemma has_id_false ids x : ~ In x ids -> Store.has_id ids x = false.
Proof.
  intros H. unfold Store.has_id. apply not_true_is_false. intros E.
  apply existsb_exists in E. destruct E as (y & Hy & Heq).
  apply String.eqb_eq in Heq. subst y. contradiction.
Qed.

(** With a fresh key, the insert of a user's own like is decided by the
    unique constraint and the two foreign keys. *)
Lemma insert_like_cases u g t c d :
  ~ In g (map Store.l_id (Store.comment_likes d)) ->
  let row := Store.mk_like_row g c u t in
  (Store.insert_like (Some u) g t c u d =
     inr (row, Store.update_comment_likes_count Store.INSERT row
                 (Store.set_comment_likes (Store.comment_likes d ++ [row]) d))
   /\ existsb (Store.like_of c u) (Store.comment_likes d) = false
   /\ Store.has_id (map Store.c_id (Store.comments d)) c = true
   /\ Store.has_id (Store.auth_users d) u = true)
  \/ ((exists e, Store.insert_like (Some u) g t c u d = inl e)
      /\ (existsb (Store.like_of c u) (Store.comment_likes d) = true
          \/ Store.has_id (map Store.c_id (Store.comments d)) c = false
          \/ Store.has_id (Store.auth_users d) u = false)).
Proof.
  intros Hg. cbv zeta. unfold Store.insert_like.
  cbn [Store.owned_by]. rewrite String.eqb_refl, (has_id_false _ _ Hg). cbn [negb].
  destruct (existsb (Store.like_of c u) (Store.comment_likes d)); [right; eauto|].
  destruct (Store.has_id (map Store.c_id (Store.comments d)) c); cbn [negb];
    [|right; eauto].
  destruct (Store.has_id (Store.auth_users d) u); cbn [negb]; [|right; eauto 6].
  left. auto.
Qed.

Lemma delete_own_like u c d :
  Store.delete_likes (Some u) (Store.like_of c u) d =
  fold_left (fun d l => Store.update_comment_likes_count Store.DELETE l d)
    (filter (Store.like_of c u) (Store.comment_likes d))
    (Store.set_comment_likes
       (filter (fun l => negb (Store.like_of c u l)) (Store.comment_likes d)) d).
Proof.
  unfold Store.delete_likes.
  assert (E : forall l, Store.like_of c u l && Store.owned_by (Some u) (Store.l_user_id l)
                        = Store.like_of c u l).
  { intros l. destruct (Store.like_of c u l) eqn:H; [|reflexivity].
    apply like_of_spec in H. destruct H as [_ ->]. simpl. apply String.eqb_refl. }
  rewrite (filter_ext _ _ E).
  rewrite (filter_ext (fun l => negb (Store.like_of c u l
                                      && Store.owned_by (Some u) (Store.l_user_id l)))
             (fun l => negb (Store.like_of c u l))) by (intros l; rewrite E; reflexivity).
  reflexivity.
Qed.

(** One trigger run keeps likes_count exact when the like rows of the
    comment moved by the same amount. *)
Lemma likes_exact_step d l c op delta K :
  (op = Store.INSERT /\ delta = 1) \/ (op = Store.DELETE /\ delta = -1) ->
  Store.l_comment_id l = c ->
  Store.likes_exact d c ->
  Store.count_likes c (Store.set_comment_likes K d) = Store.count_likes c d + delta ->
  Store.likes_exact
    (Store.update_comment_likes_count op l (Store.set_comment_likes K d)) c.
Proof.
  intros Hop Hl Hd Hcount row Hrow Hid.
  destruct (likes_trigger_row (Store.set_comment_likes K d) l row op delta Hop Hrow)
    as (old & Hold & Hoid & Hcnt); [congruence|].
  rewrite Hcnt, (Hd old Hold) by congruence. cbn [Store.bump option_map].
  f_equal. rewrite <- Hcount. unfold Store.count_likes.
  destruct (likes_trigger_likes op l (Store.set_comment_likes K d)) as [-> _].
  reflexivity.
Qed.

Lemma count_likes_after_insert d c row :
  Store.l_comment_id row = c ->
  Store.count_likes c (Store.set_comment_likes (Store.comment_likes d ++ [row]) d)
  = Store.count_likes c d + 1.
Proof.
  intros Hc. unfold Store.count_likes. cbn [Store.comment_likes Store.set_comment_likes].
  rewrite filter_app, length_app. cbn [filter]. rewrite Hc, String.eqb_refl.
  cbn [List.length]. lia.
Qed.

Lemma count_likes_after_delete d c u l :
  filter (Store.like_of c u) (Store.comment_likes d) = [l] ->
  Store.count_likes c
    (Store.set_comment_likes
       (filter (fun l => negb (Store.like_of c u l)) (Store.comment_likes d)) d)
  = Store.count_likes c d + -1.
Proof.
  intros HF. unfold Store.count_likes. cbn [Store.comment_likes Store.set_comment_likes].
  rewrite (filter_split_length (fun l => String.eqb (Store.l_comment_id l) c)
             (Store.like_of c u) (Store.comment_likes d)).
  rewrite HF. cbn [filter].
  assert (Hl : Store.like_of c u l = true).
  { apply (proj1 (filter_In (Store.like_of c u) l (Store.comment_likes d))).
    rewrite HF. left; reflexivity. }
  apply like_of_spec in Hl. destruct Hl as [-> _]. rewrite String.eqb_refl.
  cbn [List.length]. lia.
Qed.

Lemma existsb_split {A} (f g : A -> bool) (l : list A) :
  existsb f l =
  existsb f (filter g l) || existsb f (filter (fun x => negb (g x)) l).
Proof.
  induction l as [|x l IH]; simpl; [reflexivity|].
  rewrite IH. destruct (g x); simpl; destruct (f x); simpl; auto using orb_true_r.
Qed.

(** The three courses of a served toggle: the user's row is deleted, a row
    is inserted, or the insert is refused and nothing changes. *)
Lemma toggle_like_cases u c o d :
  ~ In (Hook.fresh_uuid o) (map Store.l_id (Store.comment_likes d)) ->
  let L := Store.comment_likes d in
  let row := Store.mk_like_row (Hook.fresh_uuid o) c u (Hook.now o) in
  (exists l,
      filter (Store.like_of c u) L = [l]
      /\ Hook.toggle_like u c o d =
         Store.update_comment_likes_count Store.DELETE l
           (Store.set_comment_likes
              (filter (fun l => negb (Store.like_of c u l)) L) d))
  \/ (existsb (Store.like_of c u) L = false
      /\ Store.has_id (map Store.c_id (Store.comments d)) c = true
      /\ Store.has_id (Store.auth_users d) u = true
      /\ Hook.toggle_like u c o d =
         Store.update_comment_likes_count Store.INSERT row
           (Store.set_comment_likes (L ++ [row]) d))
  \/ (Hook.toggle_like u c o d = d
      /\ (forall l, filter (Store.like_of c u) L <> [l])
      /\ (existsb (Store.like_of c u) L = true
          \/ Store.has_id (map Store.c_id (Store.comments d)) c = false
          \/ Store.has_id (Store.auth_users d) u = false)).
Proof.
  intros Hg. cbv zeta. unfold Hook.toggle_like, Store.select_like_single.
  destruct (filter (Store.like_of c u) (Store.comment_likes d))
    as [|l [|l' F]] eqn:HF.
  2:{ left. exists l. split; [reflexivity|].
      rewrite delete_own_like, HF. reflexivity. }
  all: right;
    destruct (insert_like_cases u (Hook.fresh_uuid o) (Hook.now o) c d Hg)
      as [(-> & H1 & H2 & H3)|[[e ->] Hbad]];
    [left; auto | right; repeat split; auto; intros x; discriminate].
Qed.


Lemma toggle_like_deletes u c o d l :
  filter (Store.like_of c u) (Store.comment_likes d) = [l] ->
  Hook.toggle_like u c o d =
  Store.update_comment_likes_count Store.DELETE l
    (Store.set_comment_likes
       (filter (fun l => negb (Store.like_of c u l)) (Store.comment_likes d)) d).
Proof.
  intros HF. unfold Hook.toggle_like, Store.select_like_single.
  rewrite HF, delete_own_like, HF. reflexivity.
Qed.

Lemma filter_negb_self {A} (f : A -> bool) (l : list A) :
  filter f (filter (fun x => negb (f x)) l) = [].
Proof.
  rewrite filter_filter. erewrite filter_ext; [apply filter_false|].
  intros x. cbv beta. destruct (f x); reflexivity.
Qed.

(** Two served toggles in a row, on the database alone. *)
Lemma toggle_like_twice u c o1 o2 d :
  Store.likes_reference d ->
  ~ In (Hook.fresh_uuid o1) (map Store.l_id (Store.comment_likes d)) ->
  ~ In (Hook.fresh_uuid o2) (map Store.l_id (Store.comment_likes d)) ->
  let d1 := Hook.toggle_like u c o1 d in
  let d2 := Hook.toggle_like u c o2 d1 in
  (forall c' u', Store.has_like d2 c' u' = Store.has_like d c' u')
  /\ (Store.likes_exact d c -> Store.likes_exact d1 c /\ Store.likes_exact d2 c).
Proof.
  intros Href Hg1 Hg2. cbv zeta.
  destruct (toggle_like_cases u c o1 d Hg1)
    as [(l & HF & E1)|[(Hex & Hc & Hu & E1)|(E1 & Hns & Hbad)]]; rewrite E1; clear E1.
  - (* the row is deleted, then inserted again *)
    set (K := filter (fun l => negb (Store.like_of c u l)) (Store.comment_likes d)).
    set (d1 := Store.update_comment_likes_count Store.DELETE l
                 (Store.set_comment_likes K d)).
    assert (Hlin : In l (Store.comment_likes d) /\ Store.like_of c u l = true).
    { apply filter_In. rewrite HF. left; reflexivity. }
    destruct Hlin as [Hlin Hl]. apply like_of_spec in Hl. destruct Hl as [Hlc Hlu].
    assert (HL1 : Store.comment_likes d1 = K)
      by (unfold d1; destruct (likes_trigger_likes Store.DELETE l
                                 (Store.set_comment_likes K d)) as [-> _]; reflexivity).
    assert (HK : filter (Store.like_of c u) K = []) by apply filter_negb_self.
    assert (Hg2' : ~ In (Hook.fresh_uuid o2) (map Store.l_id (Store.comment_likes d1))).
    { rewrite HL1. unfold K. intros Hin. apply Hg2.
      apply in_map_iff in Hin. destruct Hin as (x & Hx & Hxin).
      apply filter_In in Hxin. apply in_map_iff. exists x. tauto. }
    destruct (toggle_like_cases u c o2 d1 Hg2')
      as [(l2 & HF2 & _)|[(_ & _ & _ & E2)|(_ & _ & Hbad)]].
    + rewrite HL1, HK in HF2. discriminate HF2.
    + rewrite E2. clear E2.
      set (row := Store.mk_like_row (Hook.fresh_uuid o2) c u (Hook.now o2)).
      split.
      * intros c' u'. unfold Store.has_like.
        destruct (likes_trigger_likes Store.INSERT row
                    (Store.set_comment_likes (Store.comment_likes d1 ++ [row]) d1))
          as [-> _].
        cbn [Store.comment_likes Store.set_comment_likes]. rewrite HL1.
        rewrite existsb_app. cbn [existsb]. rewrite orb_false_r.
        rewrite (existsb_split (Store.like_of c' u') (Store.like_of c u)
                   (Store.comment_likes d)).
        rewrite HF. cbn [existsb]. rewrite orb_false_r. fold K.
        rewrite orb_comm. f_equal.
        unfold Store.like_of. cbn. rewrite Hlc, Hlu. reflexivity.
      * intros Hexact.
        assert (H1 : Store.likes_exact d1 c).
        { unfold d1. apply (likes_exact_step d l c Store.DELETE (-1) K); auto.
          apply (count_likes_after_delete d c u l HF). }
        split; [exact H1|].
        apply (likes_exact_step d1 row c Store.INSERT 1); auto.
        apply count_likes_after_insert. reflexivity.
    + (* the insert cannot be refused: the deleted row satisfied the keys *)
      exfalso. rewrite HL1 in Hbad.
      destruct (Href l Hlin) as [Hc Hu]. rewrite Hlc in Hc. rewrite Hlu in Hu.
      unfold d1 in Hbad. rewrite likes_trigger_ids in Hbad.
      destruct (likes_trigger_likes Store.DELETE l (Store.set_comment_likes K d))
        as [_ Hau]. rewrite Hau in Hbad.
      cbn [Store.comments Store.auth_users Store.set_comment_likes] in Hbad.
      assert (HKe : existsb (Store.like_of c u) K = false).
      { destruct (existsb (Store.like_of c u) K) eqn:E; [|reflexivity].
        apply existsb_exists in E. destruct E as (x & Hx & Hq).
        assert (Hin : In x (filter (Store.like_of c u) K)) by (apply filter_In; auto).
        rewrite HK in Hin. contradiction. }
      intuition congruence.
  - (* a row is inserted, then deleted *)
    set (row := Store.mk_like_row (Hook.fresh_uuid o1) c u (Hook.now o1)).
    set (d1 := Store.update_comment_likes_count Store.INSERT row
                 (Store.set_comment_likes (Store.comment_likes d ++ [row]) d)).
    destruct (existsb_false_filter _ _ Hex) as [HF0 HK0].
    assert (HL1 : Store.comment_likes d1 = Store.comment_likes d ++ [row])
      by (unfold d1; destruct (likes_trigger_likes Store.INSERT row
                                 (Store.set_comment_likes
                                    (Store.comment_likes d ++ [row]) d))
            as [-> _]; reflexivity).
    assert (Hrow : Store.like_of c u row = true)
      by (apply like_of_spec; split; reflexivity).
    assert (HF1 : filter (Store.like_of c u) (Store.comment_likes d1) = [row]).
    { rewrite HL1, filter_app, HF0. cbn [filter app]. rewrite Hrow. reflexivity. }
    assert (HK1 : filter (fun l => negb (Store.like_of c u l)) (Store.comment_likes d1)
                  = Store.comment_likes d).
    { rewrite HL1, filter_app, HK0. cbn [filter]. rewrite Hrow. cbn [negb].
      apply app_nil_r. }
    rewrite (toggle_like_deletes u c o2 d1 row HF1), HK1.
    split.
    + intros c' u'. unfold Store.has_like.
      destruct (likes_trigger_likes Store.DELETE row
                  (Store.set_comment_likes (Store.comment_likes d) d1)) as [-> _].
      reflexivity.
    + intros Hexact.
      assert (H1 : Store.likes_exact d1 c).
      { unfold d1. apply (likes_exact_step d row c Store.INSERT 1); auto.
        apply count_likes_after_insert. reflexivity. }
      split; [exact H1|].
      rewrite <- HK1.
      apply (likes_exact_step d1 row c Store.DELETE (-1)); auto.
      apply (count_likes_after_delete d1 c u row HF1).
  - (* the insert is refused, twice *)
    destruct (toggle_like_cases u c o2 d Hg2)
      as [(l2 & HF2 & _)|[(Hex2 & Hc2 & Hu2 & _)|(E2 & _ & _)]].
    + exfalso. exact (Hns l2 HF2).
    + exfalso. intuition congruence.
    + rewrite E2. split; auto.
Qed.

(** C2: with every call served, two likeComment calls in a row for the same
    comment leave every like row as present or absent as it was; and when
    likes_count of the comment was the number of its like rows before, it
    still is after the first and after the second call. *)
Theorem likeComment_twice_restores_like :
  forall postId user commentId w,
    Hook.well_behaved w ->
    Store.likes_reference (Hook.db w) ->
    let w1 := snd (Hook.likeComment postId user commentId w) in
    let w2 := snd (Hook.likeComment postId user commentId w1) in
    (forall c u, Store.has_like (Hook.db w2) c u = Store.has_like (Hook.db w) c u)
    /\ (Store.likes_exact (Hook.db w) commentId ->
        Store.likes_exact (Hook.db w1) commentId
        /\ Store.likes_exact (Hook.db w2) commentId).
Proof.
  intros postId user commentId w Hwb Href. cbv zeta.
  destruct user as [u|]; [|cbn; auto].
  assert (Hrel : forall n, (Hook.tick w <= n)%nat ->
                           Hook.fault (Hook.env w n) = Hook.Deliver)
    by (intros n Hn; apply Hwb, Hn).
  destruct (likeComment_served postId u commentId w Hrel) as (Hdb1 & Henv1 & Htick1).
  set (w1 := snd (Hook.likeComment postId (Some u) commentId w)) in *.
  assert (Hrel1 : forall n, (Hook.tick w1 <= n)%nat ->
                            Hook.fault (Hook.env w1 n) = Hook.Deliver)
    by (intros n Hn; rewrite Henv1; apply Hrel; lia).
  destruct (likeComment_served postId u commentId w1 Hrel1) as (Hdb2 & _ & _).
  rewrite Hdb2, Hdb1, Henv1.
  apply toggle_like_twice; [exact Href| |]; apply Hwb; lia.
Qed.

Lemma sample_well_behaved : Hook.well_behaved (Sample.world Sample.serving).
Proof.
  intros n _. split; [reflexivity|].
  cbn. intros [H|[]]. discriminate H.
Qed.

Lemma sample_likes_reference : Store.likes_reference Sample.db0.
Proof.
  intros l [<-|[]]. split; reflexivity.
Qed.

Lemma sample_likes_exact : Store.likes_exact Sample.db0 "c1".
Proof.
  intros row Hrow Hid. simpl in Hrow.
  repeat (destruct Hrow as [<-|Hrow]; [first [reflexivity | discriminate Hid]|]).
  contradiction.
Qed.

Lemma likeComment_twice_restores_like_witness :
  let w := Sample.world Sample.serving in
  let w1 := snd (Hook.likeComment "p1" (Some Sample.u1) "c1" w) in
  let w2 := snd (Hook.likeComment "p1" (Some Sample.u1) "c1" w1) in
  Hook.well_behaved w
  /\ Store.likes_reference (Hook.db w)
  /\ Store.likes_exact (Hook.db w) "c1"
  /\ Store.has_like (Hook.db w) "c1" "u1" = false
  /\ Store.has_like (Hook.db w1) "c1" "u1" = true
  /\ Store.has_like (Hook.db w2) "c1" "u1" = false
  /\ Store.likes_exact (Hook.db w1) "c1"
  /\ Store.likes_exact (Hook.db w2) "c1".
Proof.
  cbv zeta.
  destruct (likeComment_twice_restores_like "p1" (Some Sample.u1) "c1"
              (Sample.world Sample.serving)
              sample_well_behaved sample_likes_reference) as [Hsame Hexact].
  destruct (Hexact sample_likes_exact) as [H1 H2].
  split; [exact sample_well_behaved|].
  split; [exact sample_likes_reference|].
  split; [exact sample_likes_exact|].
  split; [reflexivity|].
  split; [reflexivity|].
  split; [rewrite Hsame; reflexivity|].
  split; assumption.
Defined.

(** One served likeComment does flip the like of the session user, as long
    as the comment and the user exist. *)
Lemma likeComment_flips_like postId u commentId w :
  Hook.well_behaved w ->
  Store.unique_likes (Hook.db w) ->
  Store.has_id (map Store.c_id (Store.comments (Hook.db w))) commentId = true ->
  Store.has_id (Store.auth_users (Hook.db w)) (Hook.u_id u) = true ->
  let w1 := snd (Hook.likeComment postId (Some u) commentId w) in
  Store.has_like (Hook.db w1) commentId (Hook.u_id u)
  = negb (Store.has_like (Hook.db w) commentId (Hook.u_id u)).
Proof.
  intros Hwb Huniq Hc Hu. cbv zeta.
  assert (Hrel : forall n, (Hook.tick w <= n)%nat ->
                           Hook.fault (Hook.env w n) = Hook.Deliver)
    by (intros n Hn; apply Hwb, Hn).
  destruct (likeComment_served postId u commentId w Hrel) as (-> & _ & _).
  assert (Hg : ~ In (Hook.fresh_uuid (Hook.env w (S (Hook.tick w))))
                 (map Store.l_id (Store.comment_likes (Hook.db w))))
    by (apply Hwb; lia).
  set (d := Hook.db w) in *. set (o := Hook.env w (S (Hook.tick w))) in *.
  unfold Store.has_like.
  destruct (toggle_like_cases (Hook.u_id u) commentId o d Hg)
    as [(l & HF & ->)|[(Hex & _ & _ & ->)|(_ & Hns & Hbad)]].
  - destruct (likes_trigger_likes Store.DELETE l
                (Store.set_comment_likes
                   (filter (fun l => negb (Store.like_of commentId (Hook.u_id u) l))
                      (Store.comment_likes d)) d)) as [-> _].
    cbn [Store.comment_likes Store.set_comment_likes].
    rewrite (existsb_split (Store.like_of commentId (Hook.u_id u))
               (Store.like_of commentId (Hook.u_id u)) (Store.comment_likes d)).
    rewrite HF. cbn [existsb].
    assert (Hl : Store.like_of commentId (Hook.u_id u) l = true).
    { apply (proj1 (filter_In (Store.like_of commentId (Hook.u_id u)) l
                      (Store.comment_likes d))). rewrite HF. left; reflexivity. }
    rewrite Hl. cbn [orb negb].
    destruct (existsb _ _) eqn:E; [|reflexivity].
    apply existsb_exists in E. destruct E as (x & Hx & Hq).
    assert (Hin : In x (filter (Store.like_of commentId (Hook.u_id u))
                          (filter (fun l => negb (Store.like_of commentId (Hook.u_id u) l))
                             (Store.comment_likes d))))
      by (apply filter_In; auto).
    rewrite filter_negb_self in Hin. contradiction.
  - set (row := Store.mk_like_row (Hook.fresh_uuid o) commentId (Hook.u_id u) (Hook.now o)).
    destruct (likes_trigger_likes Store.INSERT row
                (Store.set_comment_likes (Store.comment_likes d ++ [row]) d)) as [-> _].
    cbn [Store.comment_likes Store.set_comment_likes].
    rewrite existsb_app, Hex. cbn [existsb orb negb].
    unfold Store.like_of. cbn. rewrite !String.eqb_refl. reflexivity.
  - exfalso. destruct Hbad as [Hex|[Hbad|Hbad]]; [|congruence|congruence].
    specialize (Huniq commentId (Hook.u_id u)). fold d in Huniq.
    destruct (filter (Store.like_of commentId (Hook.u_id u)) (Store.comment_likes d))
      as [|l [|l' F]] eqn:HF.
    + apply existsb_exists in Hex. destruct Hex as (x & Hx & Hq).
      assert (Hin : In x (filter (Store.like_of commentId (Hook.u_id u))
                            (Store.comment_likes d))) by (apply filter_In; auto).
      rewrite HF in Hin. contradiction.
    + exact (Hns l eq_refl).
    + simpl in Huniq. lia.
Qed.

(* ================================================================== *)
(** * Further properties *)

(** ** The schema's constraints are kept by every statement *)

Lemma has_id_true ids x : Store.has_id ids x = true <-> In x ids.
Proof.
  unfold Store.has_id. rewrite existsb_exists. split.
  - intros (y & Hy & E). apply String.eqb_eq in E. subst. exact Hy.
  - intros H. exists x. split; [exact H|apply String.eqb_refl].
Qed.

Lemma has_id_not ids x : Store.has_id ids x = false <-> ~ In x ids.
Proof.
  rewrite <- has_id_true. destruct (Store.has_id ids x); split; congruence.
Qed.

Lemma shape_fields c c' :
  Schema.shape c = Schema.shape c' ->
  Store.c_id c = Store.c_id c'
  /\ Store.c_user_id c = Store.c_user_id c'
  /\ Store.c_post_id c = Store.c_post_id c'
  /\ Store.c_content c = Store.c_content c'
  /\ Store.c_parent_id c = Store.c_parent_id c'
  /\ Store.c_created_at c = Store.c_created_at c'.
Proof.
  unfold Schema.shape, Store.set_likes_count. intros H.
  injection H as H1 H2 H3 H4 H5 H6 H7. repeat split; assumption.
Qed.

Lemma shapes_ids l l' :
  map Schema.shape l' = map Schema.shape l ->
  map Store.c_id l' = map Store.c_id l
  /\ map Store.c_post_id l' = map Store.c_post_id l.
Proof.
  intros H. split.
  - apply (f_equal (map Store.c_id)) in H. rewrite !map_map in H. exact H.
  - apply (f_equal (map Store.c_post_id)) in H. rewrite !map_map in H. exact H.
Qed.

Lemma shapes_in l l' c :
  map Schema.shape l' = map Schema.shape l ->
  In c l' -> exists c0, In c0 l /\ Schema.shape c0 = Schema.shape c.
Proof.
  intros H Hc. apply (in_map Schema.shape) in Hc. rewrite H in Hc.
  apply in_map_iff in Hc. destruct Hc as (c0 & E & Hc0). eauto.
Qed.

(** The constraints read the comment rows up to likes_count, the like rows,
    the users and the keys of the posts. *)
Lemma valid_ext d d' :
  map Schema.shape (Store.comments d') = map Schema.shape (Store.comments d) ->
  Store.comment_likes d' = Store.comment_likes d ->
  Store.auth_users d' = Store.auth_users d ->
  map Store.p_id (Store.posts d') = map Store.p_id (Store.posts d) ->
  Schema.valid d -> Schema.valid d'.
Proof.
  intros Hc Hl Hu Hp [H1 H2 H3 H4 H5 H6].
  destruct (shapes_ids _ _ Hc) as [Hids _].
  constructor.
  - unfold Store.primary_key in *. rewrite Hids. exact H1.
  - rewrite Hl. exact H2.
  - unfold Store.unique_likes in *. rewrite Hl. exact H3.
  - unfold Store.likes_reference in *. rewrite Hl, Hids, Hu. exact H4.
  - intros c Hin. destruct (shapes_in _ _ c Hc Hin) as (c0 & Hc0 & E).
    apply shape_fields in E. destruct E as (_ & _ & _ & E & _). rewrite <- E. auto.
  - intros c Hin. destruct (shapes_in _ _ c Hc Hin) as (c0 & Hc0 & E).
    apply shape_fields in E. destruct E as (_ & E2 & E3 & _ & E5 & _).
    rewrite Hu, Hp, Hids, <- E2, <- E3, <- E5. auto.
Qed.

Lemma likes_trigger_shape op l d :
  map Schema.shape (Store.comments (Store.update_comment_likes_count op l d))
  = map Schema.shape (Store.comments d).
Proof.
  destruct op; cbn [Store.update_comment_likes_count Store.comments Store.set_comments];
    try reflexivity;
    rewrite map_map; apply map_ext; intros c;
    destruct (String.eqb (Store.c_id c) (Store.l_comment_id l)); reflexivity.
Qed.

Lemma likes_triggers_frame op ls d :
  let d' := fold_left (fun d l => Store.update_comment_likes_count op l d) ls d in
  map Schema.shape (Store.comments d') = map Schema.shape (Store.comments d)
  /\ Store.comment_likes d' = Store.comment_likes d
  /\ Store.auth_users d' = Store.auth_users d
  /\ Store.posts d' = Store.posts d.
Proof.
  revert d. induction ls as [|l ls IH]; intros d; cbn [fold_left]; [auto|].
  destruct (IH (Store.update_comment_likes_count op l d)) as (H1 & H2 & H3 & H4).
  destruct (likes_trigger_likes op l d) as [H5 H6].
  destruct (likes_trigger_keeps_posts op l d) as [H7 _].
  cbv zeta in *. rewrite H1, H2, H3, H4, likes_trigger_shape. auto.
Qed.

Lemma recount_frame op r d :
  Store.comments (Store.update_post_comments_count op r d) = Store.comments d
  /\ Store.comment_likes (Store.update_post_comments_count op r d) = Store.comment_likes d
  /\ Store.auth_users (Store.update_post_comments_count op r d) = Store.auth_users d
  /\ map Store.p_id (Store.posts (Store.update_post_comments_count op r d))
     = map Store.p_id (Store.posts d).
Proof.
  destruct op; cbn; repeat split; try reflexivity;
    rewrite map_map; apply map_ext; intros p;
    destruct (String.eqb (Store.p_id p) (Store.c_post_id r)); reflexivity.
Qed.

Lemma recounts_frame gone d :
  let d' := fold_left (fun d c => Store.update_post_comments_count Store.DELETE c d)
              gone d in
  Store.comments d' = Store.comments d
  /\ Store.comment_likes d' = Store.comment_likes d
  /\ Store.auth_users d' = Store.auth_users d
  /\ map Store.p_id (Store.posts d') = map Store.p_id (Store.posts d).
Proof.
  revert d. induction gone as [|r gone IH]; intros d; cbn [fold_left]; [auto|].
  destruct (IH (Store.update_post_comments_count Store.DELETE r d)) as (H1 & H2 & H3 & H4).
  destruct (recount_frame Store.DELETE r d) as (H5 & H6 & H7 & H8).
  cbv zeta in *. rewrite H1, H2, H3, H4. auto.
Qed.

(** What a successful insert has been checked for. *)
Lemma insert_comment_checked uid new_id now v d row d' :
  Store.insert_comment uid new_id now v d = inr (row, d') ->
  Store.owned_by uid (Store.v_user_id v) = true
  /\ (List.length (Store.v_content v) <= 1000)%nat
  /\ ~ In new_id (map Store.c_id (Store.comments d))
  /\ In (Store.v_user_id v) (Store.auth_users d)
  /\ In (Store.v_post_id v) (map Store.p_id (Store.posts d))
  /\ match Store.v_parent_id v with
     | None => True
     | Some p => In p (map Store.c_id (Store.comments d ++ [row]))
     end.
Proof.
  intros H. pose proof (insert_comment_inr _ _ _ _ _ _ _ H) as [Hrow _].
  unfold Store.insert_comment in H. rewrite <- Hrow in H.
  destruct (Store.owned_by uid (Store.v_user_id v)); [|discriminate].
  destruct (Nat.leb_spec (List.length (Store.v_content v)) 1000); [|discriminate].
  destruct (Store.has_id (map Store.c_id (Store.comments d)) new_id) eqn:E1;
    [discriminate|].
  destruct (Store.has_id (Store.auth_users d) (Store.v_user_id v)) eqn:E2;
    [|discriminate].
  destruct (Store.has_id (map Store.p_id (Store.posts d)) (Store.v_post_id v)) eqn:E3;
    [|discriminate].
  cbn [negb] in H.
  apply has_id_not in E1. apply has_id_true in E2. apply has_id_true in E3.
  repeat split; auto.
  destruct (Store.v_parent_id v) as [p|]; [|exact I].
  destruct (Store.has_id (map Store.c_id (Store.comments d ++ [row])) p) eqn:E4;
    [|discriminate].
  apply has_id_true in E4. exact E4.
Qed.

Lemma insert_like_checked uid g t c u d row d' :
  Store.insert_like uid g t c u d = inr (row, d') ->
  row = Store.mk_like_row g c u t
  /\ d' = Store.update_comment_likes_count Store.INSERT row
            (Store.set_comment_likes (Store.comment_likes d ++ [row]) d)
  /\ Store.owned_by uid u = true
  /\ ~ In g (map Store.l_id (Store.comment_likes d))
  /\ existsb (Store.like_of c u) (Store.comment_likes d) = false
  /\ In c (map Store.c_id (Store.comments d))
  /\ In u (Store.auth_users d).
Proof.
  unfold Store.insert_like.
  destruct (Store.owned_by uid u); [|discriminate].
  destruct (Store.has_id (map Store.l_id (Store.comment_likes d)) g) eqn:E1;
    [discriminate|].
  destruct (existsb (Store.like_of c u) (Store.comment_likes d)); [discriminate|].
  destruct (Store.has_id (map Store.c_id (Store.comments d)) c) eqn:E2; [|discriminate].
  destruct (Store.has_id (Store.auth_users d) u) eqn:E3; [|discriminate].
  cbn [negb]. intros H. injection H as <- <-.
  apply has_id_not in E1. apply has_id_true in E2. apply has_id_true in E3.
  repeat split; auto.
Qed.

Ltac db_proj :=
  cbn [Store.comments Store.comment_likes Store.auth_users Store.posts
       Store.set_comments Store.set_comment_likes Store.set_posts] in *.

Lemma NoDup_snoc {A} (l : list A) x : NoDup l -> ~ In x l -> NoDup (l ++ [x]).
Proof.
  intros Hl Hx. apply NoDup_app; auto.
  - repeat constructor. intros [].
  - intros y Hy [<-|[]]. contradiction.
Qed.

Lemma NoDup_map_filter {A B} (f : A -> B) (g : A -> bool) (l : list A) :
  NoDup (map f l) -> NoDup (map f (filter g l)).
Proof.
  induction l as [|x l IH]; simpl; intros H; [constructor|].
  inversion H as [|? ? Hx Hl]; subst.
  destruct (g x); simpl; auto. constructor; auto.
  intros Hin. apply Hx. apply in_map_iff in Hin. destruct Hin as (y & E & Hy).
  apply filter_In in Hy. apply in_map_iff. exists y. tauto.
Qed.

Lemma filter_filter_length {A} (f g : A -> bool) (l : list A) :
  (List.length (filter f (filter g l)) <= List.length (filter f l))%nat.
Proof.
  rewrite (filter_split_length f g l). lia.
Qed.

Lemma valid_insert_comment uid new_id now v d row d' :
  Schema.valid d ->
  Store.insert_comment uid new_id now v d = inr (row, d') ->
  Schema.valid d'.
Proof.
  intros Hv Hins.
  destruct (insert_comment_checked _ _ _ _ _ _ _ Hins) as (_ & Hlen & Hnew & Hu & Hp & Hpar).
  destruct (insert_comment_inr _ _ _ _ _ _ _ Hins) as [Hrow ->].
  set (d1 := Store.set_comments (Store.comments d ++ [row]) d).
  destruct (recount_frame Store.INSERT row d1) as (F1 & F2 & F3 & F4).
  apply (valid_ext d1); [rewrite F1; reflexivity|assumption..|].
  destruct Hv as [H1 H2 H3 H4 H5 H6].
  assert (Hid : Store.c_id row = new_id) by (rewrite Hrow; reflexivity).
  constructor; unfold d1;
    cbn [Store.comments Store.comment_likes Store.auth_users Store.posts
         Store.set_comments].
  - unfold Store.primary_key. cbn [Store.comments Store.set_comments].
    rewrite map_app. cbn [map]. apply NoDup_snoc; [exact H1|]. rewrite Hid. exact Hnew.
  - exact H2.
  - exact H3.
  - intros l Hl. db_proj. destruct (H4 l Hl) as [Ha Hb]. split; [|exact Hb].
    apply has_id_true. rewrite map_app, in_app_iff. left. apply has_id_true, Ha.
  - intros c Hc. db_proj. apply in_app_iff in Hc. destruct Hc as [Hc|[<-|[]]]; [auto|].
    rewrite Hrow. exact Hlen.
  - intros c Hc. db_proj. apply in_app_iff in Hc. destruct Hc as [Hc|[<-|[]]].
    + destruct (H6 c Hc) as (Ha & Hb & Hq). repeat split; auto.
      destruct (Store.c_parent_id c) as [p|]; [|exact I].
      apply has_id_true. rewrite map_app, in_app_iff. left. apply has_id_true, Hq.
    + rewrite Hrow at 1 2 3. cbn [Store.c_user_id Store.c_post_id Store.c_parent_id].
      repeat split; try (apply has_id_true; assumption).
      destruct (Store.v_parent_id v) as [p|]; [|exact I].
      apply has_id_true. exact Hpar.
Qed.

Lemma valid_insert_like uid g t c u d row d' :
  Schema.valid d ->
  Store.insert_like uid g t c u d = inr (row, d') ->
  Schema.valid d'.
Proof.
  intros Hv Hins.
  destruct (insert_like_checked _ _ _ _ _ _ _ _ Hins)
    as (Hrow & -> & _ & Hg & Hex & Hc & Hu).
  set (d1 := Store.set_comment_likes (Store.comment_likes d ++ [row]) d).
  destruct (likes_trigger_likes Store.INSERT row d1) as [F2 F3].
  destruct (likes_trigger_keeps_posts Store.INSERT row d1) as [F4 _].
  apply (valid_ext d1);
    [apply likes_trigger_shape|assumption|assumption|rewrite F4; reflexivity|].
  destruct Hv as [H1 H2 H3 H4 H5 H6].
  constructor; unfold d1;
    cbn [Store.comments Store.comment_likes Store.auth_users Store.posts
         Store.set_comment_likes]; auto.
  - rewrite map_app. cbn [map]. apply NoDup_snoc; [exact H2|].
    rewrite Hrow. exact Hg.
  - intros c' u'. cbn [Store.comment_likes Store.set_comment_likes].
    rewrite filter_app, length_app. cbn [filter].
    destruct (Store.like_of c' u' row) eqn:E; cbn [List.length].
    + apply like_of_spec in E. rewrite Hrow in E. cbn in E. destruct E as [<- <-].
      destruct (existsb_false_filter _ _ Hex) as [-> _]. cbn. lia.
    + specialize (H3 c' u'). lia.
  - intros l Hl. cbn [Store.comment_likes Store.comments Store.auth_users
                      Store.set_comment_likes] in *.
    apply in_app_iff in Hl. destruct Hl as [Hl|[<-|[]]]; [auto|].
    rewrite Hrow. cbn. split; apply has_id_true; assumption.
Qed.

Lemma valid_delete_likes uid where_ d :
  Schema.valid d -> Schema.valid (Store.delete_likes uid where_ d).
Proof.
  intros Hv. unfold Store.delete_likes.
  set (target := fun l => where_ l && Store.owned_by uid (Store.l_user_id l)).
  set (kept := filter (fun l => negb (target l)) (Store.comment_likes d)).
  set (d1 := Store.set_comment_likes kept d).
  destruct (likes_triggers_frame Store.DELETE
              (filter target (Store.comment_likes d)) d1) as (F1 & F2 & F3 & F4).
  apply (valid_ext d1);
    [assumption..|exact (f_equal (map Store.p_id) F4)|].
  destruct Hv as [H1 H2 H3 H4 H5 H6].
  constructor; unfold d1, kept;
    cbn [Store.comments Store.comment_likes Store.auth_users Store.posts
         Store.set_comment_likes]; auto.
  - apply NoDup_map_filter, H2.
  - intros c u. cbn [Store.comment_likes Store.set_comment_likes].
    specialize (H3 c u).
    pose proof (filter_filter_length (Store.like_of c u)
                  (fun l => negb (target l)) (Store.comment_likes d)). lia.
  - intros l Hl. cbn [Store.comment_likes Store.comments Store.auth_users
                      Store.set_comment_likes] in *.
    apply filter_In in Hl. apply H4, Hl.
Qed.

Lemma valid_delete_comments uid where_ d :
  Schema.valid d -> Schema.valid (Store.delete_comments uid where_ d).
Proof.
  intros Hv. unfold Store.delete_comments.
  set (doomed := Store.removed_comments uid where_ d).
  set (gone := filter doomed (Store.comments d)).
  set (kept := filter (fun c => negb (doomed c)) (Store.comments d)).
  set (orphan := fun l => Store.has_id (map Store.c_id gone) (Store.l_comment_id l)).
  set (d1 := Store.set_comment_likes
               (filter (fun l => negb (orphan l)) (Store.comment_likes d))
               (Store.set_comments kept d)).
  set (d2 := fold_left (fun d l => Store.update_comment_likes_count Store.DELETE l d)
               (filter orphan (Store.comment_likes d)) d1).
  destruct (likes_triggers_frame Store.DELETE (filter orphan (Store.comment_likes d)) d1)
    as (F1 & F2 & F3 & F4). fold d2 in F1, F2, F3, F4.
  destruct (recounts_frame gone d2) as (G1 & G2 & G3 & G4).
  change (Schema.valid
            (fold_left (fun d c => Store.update_post_comments_count Store.DELETE c d)
               gone d2)).
  apply (valid_ext d1); [congruence..|].
  destruct Hv as [H1 H2 H3 H4 H5 H6].
  assert (Hkept : forall p, In p (map Store.c_id (Store.comments d)) ->
                            (forall q, In q (Store.comments d) -> Store.c_id q = p ->
                                       doomed q = false) ->
                            In p (map Store.c_id kept)).
  { intros p Hp Hq. apply in_map_iff in Hp. destruct Hp as (q & E & Hin).
    apply in_map_iff. exists q. split; [exact E|].
    apply filter_In. split; [exact Hin|]. rewrite (Hq q Hin E). reflexivity. }
  constructor; unfold d1; db_proj.
  - unfold Store.primary_key. db_proj. apply NoDup_map_filter, H1.
  - apply NoDup_map_filter, H2.
  - intros c u. db_proj. specialize (H3 c u).
    pose proof (filter_filter_length (Store.like_of c u)
                  (fun l => negb (orphan l)) (Store.comment_likes d)). lia.
  - intros l Hl. db_proj. apply filter_In in Hl. destruct Hl as [Hl Hno].
    destruct (H4 l Hl) as [Ha Hb]. split; [|exact Hb].
    apply has_id_true, Hkept; [apply has_id_true, Ha|].
    intros q Hq E. destruct (doomed q) eqn:Hd; [|reflexivity].
    exfalso. unfold orphan in Hno. apply negb_true_iff, has_id_not in Hno.
    apply Hno. rewrite <- E. apply in_map. apply filter_In. auto.
  - intros c Hc. apply filter_In in Hc. apply H5, Hc.
  - intros c Hc. apply filter_In in Hc. destruct Hc as [Hc Hnd].
    destruct (H6 c Hc) as (Ha & Hb & Hp). repeat split; auto.
    destruct (Store.c_parent_id c) as [p|] eqn:Hpar; [|exact I].
    apply has_id_true, Hkept; [apply has_id_true, Hp|].
    intros q Hq E. destruct (doomed q) eqn:Hd; [|reflexivity].
    exfalso. rewrite <- E in Hpar.
    pose proof (removed_comments_closed uid where_ d c q Hc Hq Hpar Hd) as Hcd.
    fold doomed in Hcd. rewrite Hcd in Hnd. discriminate Hnd.
Qed.

Lemma valid_exec s db : Schema.valid db -> Schema.valid (Schema.exec s db).
Proof.
  intros Hv. destruct s as [uid g t v|uid wh|uid g t c u|uid wh]; cbn [Schema.exec].
  - destruct (Store.insert_comment uid g t v db) as [e|[row d']] eqn:E; [exact Hv|].
    eapply valid_insert_comment; eauto.
  - apply valid_delete_comments, Hv.
  - destruct (Store.insert_like uid g t c u db) as [e|[row d']] eqn:E; [exact Hv|].
    eapply valid_insert_like; eauto.
  - apply valid_delete_likes, Hv.
Qed.

(** X1: each of the four statements a client may issue leaves the
    migration's constraints in force: primary keys, the unique pair on
    likes, the CHECK on content and every foreign key.  In particular a
    DELETE on comments leaves no reply without its parent and no like
    without its comment. *)
Theorem statements_keep_constraints :
  forall ss db, Schema.valid db -> Schema.valid (Schema.run ss db).
Proof.
  induction ss as [|s ss IH]; intros db Hv; cbn [Schema.run]; [exact Hv|].
  apply IH, valid_exec, Hv.
Qed.

(** ** The counters are kept exact by every statement *)

Lemma bump_bump a b x : Store.bump a (Store.bump b x) = Store.bump (b + a) x.
Proof. destruct x; simpl; f_equal; lia. Qed.

Lemma bump_zero x : Store.bump 0 x = x.
Proof. destruct x; simpl; f_equal; lia. Qed.

(** What one run of the likes trigger does to any comment row. *)
Lemma likes_trigger_row_any (d : Store.DB) l row op delta :
  (op = Store.INSERT /\ delta = 1) \/ (op = Store.DELETE /\ delta = -1) ->
  In row (Store.comments (Store.update_comment_likes_count op l d)) ->
  exists old, In old (Store.comments d)
              /\ Schema.shape old = Schema.shape row
              /\ Store.c_likes_count row =
                 if String.eqb (Store.c_id old) (Store.l_comment_id l)
                 then Store.bump delta (Store.c_likes_count old)
                 else Store.c_likes_count old.
Proof.
  intros Hop Hin.
  assert (H : In row (map (fun c => if String.eqb (Store.c_id c) (Store.l_comment_id l)
                                    then Store.set_likes_count
                                           (Store.bump delta (Store.c_likes_count c)) c
                                    else c) (Store.comments d))).
  { destruct Hop as [[-> ->]|[-> ->]]; exact Hin. }
  apply in_map_iff in H. destruct H as (old & Hold & Hoin).
  exists old. split; [exact Hoin|].
  destruct (String.eqb (Store.c_id old) (Store.l_comment_id l)); subst row;
    split; reflexivity.
Qed.

Lemma likes_triggers_rows gone : forall (d : Store.DB) row,
  In row (Store.comments
            (fold_left (fun d l => Store.update_comment_likes_count Store.DELETE l d)
               gone d)) ->
  exists old, In old (Store.comments d)
              /\ Schema.shape old = Schema.shape row
              /\ Store.c_likes_count row =
                 Store.bump
                   (- Z.of_nat (List.length
                                  (filter (fun l => String.eqb (Store.l_comment_id l)
                                                      (Store.c_id row)) gone)))
                   (Store.c_likes_count old).
Proof.
  induction gone as [|l gone IH]; intros d row Hin; cbn [fold_left] in Hin.
  - exists row. cbn. rewrite bump_zero. auto.
  - destruct (IH _ _ Hin) as (old1 & Hold1 & Hs1 & Hc1).
    destruct (likes_trigger_row_any d l old1 Store.DELETE (-1)) as (old & Hold & Hs & Hc);
      [auto|exact Hold1|].
    exists old. split; [exact Hold|]. split; [congruence|].
    rewrite Hc1, Hc. cbn [filter].
    apply shape_fields in Hs. destruct Hs as (Hid & _).
    apply shape_fields in Hs1. destruct Hs1 as (Hid1 & _).
    rewrite (String.eqb_sym (Store.l_comment_id l)), <- Hid1, <- Hid.
    destruct (String.eqb (Store.c_id old) (Store.l_comment_id l)); cbn [List.length].
    + rewrite bump_bump. f_equal. lia.
    + reflexivity.
Qed.

Lemma counter_exact_ext d d' p :
  Store.posts d' = Store.posts d ->
  map Store.c_post_id (Store.comments d') = map Store.c_post_id (Store.comments d) ->
  Store.counter_exact d p -> Store.counter_exact d' p.
Proof.
  intros Hp Hc H row Hrow Hid. rewrite Hp in Hrow.
  rewrite (H row Hrow Hid). f_equal. symmetry.
  apply count_comments_by_posts, Hc.
Qed.

Lemma likes_exact_insert_comment uid new_id now v d row d' c :
  Schema.valid d ->
  Store.insert_comment uid new_id now v d = inr (row, d') ->
  Store.likes_exact d c -> Store.likes_exact d' c.
Proof.
  intros Hv Hins Hex.
  destruct (insert_comment_checked _ _ _ _ _ _ _ Hins) as (_ & _ & Hnew & _).
  destruct (insert_comment_inr _ _ _ _ _ _ _ Hins) as [Hrow ->].
  set (d1 := Store.set_comments (Store.comments d ++ [row]) d).
  destruct (recount_frame Store.INSERT row d1) as (F1 & F2 & _).
  intros r Hr Hid. rewrite F1 in Hr. unfold Store.count_likes. rewrite F2.
  unfold d1 in *. db_proj.
  apply in_app_iff in Hr. destruct Hr as [Hr|[<-|[]]]; [exact (Hex r Hr Hid)|].
  rewrite Hrow at 1. cbn [Store.c_likes_count]. f_equal.
  assert (E : filter (fun l => String.eqb (Store.l_comment_id l) c)
                (Store.comment_likes d) = []).
  { destruct (filter _ _) as [|l ls] eqn:HF; [reflexivity|exfalso].
    assert (Hl : In l (filter (fun l => String.eqb (Store.l_comment_id l) c)
                         (Store.comment_likes d))) by (rewrite HF; left; reflexivity).
    apply filter_In in Hl. destruct Hl as [Hl E]. apply String.eqb_eq in E.
    destruct (Schema.likes_fkeys d Hv l Hl) as [Hc _]. apply has_id_true in Hc.
    apply Hnew. rewrite Hrow in Hid. cbn in Hid. congruence. }
  rewrite E. reflexivity.
Qed.

Lemma likes_exact_insert_like uid g t c0 u d row d' c :
  Store.insert_like uid g t c0 u d = inr (row, d') ->
  Store.likes_exact d c -> Store.likes_exact d' c.
Proof.
  intros Hins Hex.
  destruct (insert_like_checked _ _ _ _ _ _ _ _ Hins) as (Hrow & -> & _).
  set (d1 := Store.set_comment_likes (Store.comment_likes d ++ [row]) d).
  intros r Hr Hid.
  destruct (likes_trigger_row_any d1 row r Store.INSERT 1) as (old & Hold & Hs & Hc);
    [auto|exact Hr|].
  apply shape_fields in Hs. destruct Hs as (Hoid & _).
  rewrite Hc, (Hex old Hold) by congruence.
  unfold Store.count_likes.
  destruct (likes_trigger_likes Store.INSERT row d1) as [-> _].
  unfold d1. db_proj. rewrite filter_app, length_app. cbn [filter].
  rewrite Hoid, Hid, (String.eqb_sym c).
  destruct (String.eqb (Store.l_comment_id row) c); cbn [List.length Store.bump option_map];
    f_equal; lia.
Qed.

Lemma likes_exact_delete_likes uid where_ d c :
  Store.likes_exact d c -> Store.likes_exact (Store.delete_likes uid where_ d) c.
Proof.
  intros Hex. unfold Store.delete_likes.
  set (target := fun l => where_ l && Store.owned_by uid (Store.l_user_id l)).
  set (d1 := Store.set_comment_likes
               (filter (fun l => negb (target l)) (Store.comment_likes d)) d).
  change (Store.likes_exact
            (fold_left (fun d l => Store.update_comment_likes_count Store.DELETE l d)
               (filter target (Store.comment_likes d)) d1) c).
  intros r Hr Hid.
  destruct (likes_triggers_rows _ _ _ Hr) as (old & Hold & Hs & Hc).
  apply shape_fields in Hs. destruct Hs as (Hoid & _).
  rewrite Hc, (Hex old Hold) by congruence.
  unfold Store.count_likes.
  destruct (likes_triggers_frame Store.DELETE (filter target (Store.comment_likes d)) d1)
    as (_ & -> & _).
  unfold d1. db_proj. cbn [Store.bump option_map]. f_equal.
  rewrite (filter_split_length (fun l => String.eqb (Store.l_comment_id l) c) target
             (Store.comment_likes d)).
  rewrite Hid. lia.
Qed.

Lemma likes_exact_delete_comments uid where_ d c :
  Schema.valid d ->
  Store.likes_exact d c -> Store.likes_exact (Store.delete_comments uid where_ d) c.
Proof.
  intros Hv Hex. unfold Store.delete_comments.
  set (doomed := Store.removed_comments uid where_ d).
  set (gone := filter doomed (Store.comments d)).
  set (kept := filter (fun c => negb (doomed c)) (Store.comments d)).
  set (orphan := fun l => Store.has_id (map Store.c_id gone) (Store.l_comment_id l)).
  set (d1 := Store.set_comment_likes
               (filter (fun l => negb (orphan l)) (Store.comment_likes d))
               (Store.set_comments kept d)).
  set (d2 := fold_left (fun d l => Store.update_comment_likes_count Store.DELETE l d)
               (filter orphan (Store.comment_likes d)) d1).
  change (Store.likes_exact
            (fold_left (fun d c => Store.update_post_comments_count Store.DELETE c d)
               gone d2) c).
  destruct (likes_triggers_frame Store.DELETE (filter orphan (Store.comment_likes d)) d1)
    as (_ & F2 & _). fold d2 in F2.
  destruct (recounts_frame gone d2) as (G1 & G2 & _).
  intros r Hr Hid. rewrite G1 in Hr. unfold Store.count_likes. rewrite G2, F2.
  destruct (likes_triggers_rows _ _ _ Hr) as (old & Hold & Hs & Hc).
  apply shape_fields in Hs. destruct Hs as (Hoid & _).
  unfold d1 in Hold |- *. db_proj. apply filter_In in Hold. destruct Hold as [Hold Hkept].
  (* no removed like belongs to a comment that stays *)
  assert (Hnone : filter (fun l => String.eqb (Store.l_comment_id l) c)
                    (filter orphan (Store.comment_likes d)) = []).
  { clear Hc.
    destruct (filter (fun l => String.eqb (Store.l_comment_id l) c)
                (filter orphan (Store.comment_likes d))) as [|l ls] eqn:HF;
      [reflexivity|exfalso].
    assert (Hl : In l (filter (fun l => String.eqb (Store.l_comment_id l) c)
                         (filter orphan (Store.comment_likes d))))
      by (rewrite HF; left; reflexivity).
    apply filter_In in Hl. destruct Hl as [Hl E]. apply String.eqb_eq in E.
    apply filter_In in Hl. destruct Hl as [_ Ho].
    unfold orphan in Ho. apply has_id_true, in_map_iff in Ho.
    destruct Ho as (g & Hg & Hgin). apply filter_In in Hgin. destruct Hgin as [Hgin Hgd].
    assert (g = old).
    { apply (NoDup_map_inj Store.c_id (Store.comments d)); auto.
      - apply (Schema.comments_pkey d Hv).
      - congruence. }
    subst g. rewrite Hgd in Hkept. discriminate Hkept. }
  rewrite Hc, Hid, Hnone, (Hex old Hold) by congruence.
  cbn [List.length Z.of_nat Z.opp]. rewrite bump_zero. f_equal.
  unfold Store.count_likes.
  rewrite (filter_split_length (fun l => String.eqb (Store.l_comment_id l) c) orphan
             (Store.comment_likes d)), Hnone.
  reflexivity.
Qed.

Lemma counters_exact_exec s d :
  Schema.valid d -> Schema.counters_exact d -> Schema.counters_exact (Schema.exec s d).
Proof.
  intros Hv [HL HC]. destruct s as [uid g t v|uid wh|uid g t c u|uid wh];
    cbn [Schema.exec].
  - destruct (Store.insert_comment uid g t v d) as [e|[row d']] eqn:E; [split; auto|].
    split.
    + intros c. eapply likes_exact_insert_comment; eauto.
    + intros p.
      pose proof (exec_keeps_counter_exact (Store.InsertComment uid g t v) d p
                    (or_introl (HC p))) as H.
      cbn [Store.exec] in H. rewrite E in H. exact H.
  - split.
    + intros c. apply likes_exact_delete_comments; auto.
    + intros p.
      exact (exec_keeps_counter_exact (Store.DeleteComments uid wh) d p
               (or_introl (HC p))).
  - destruct (Store.insert_like uid g t c u d) as [e|[row d']] eqn:E; [split; auto|].
    split.
    + intros c'. eapply likes_exact_insert_like; eauto.
    + intros p.
      destruct (insert_like_checked _ _ _ _ _ _ _ _ E) as (_ & -> & _).
      destruct (likes_trigger_keeps_posts Store.INSERT row
                  (Store.set_comment_likes (Store.comment_likes d ++ [row]) d))
        as [Hp Hc].
      apply (counter_exact_ext d); [exact Hp|exact Hc|apply HC].
  - split.
    + intros c. apply likes_exact_delete_likes; auto.
    + intros p. unfold Store.delete_likes.
      match goal with
      | |- Store.counter_exact (fold_left ?f ?ls ?d1) p =>
          destruct (likes_triggers_frame Store.DELETE ls d1) as (Hs & _ & _ & Hp)
      end.
      apply shapes_ids in Hs. destruct Hs as [_ Hc].
      apply (counter_exact_ext d); [exact Hp|exact Hc|apply HC].
Qed.


(** ** What the hook can do to the database *)

Ltac after_fetch :=
  match goal with
  | |- context [Hook.fetchComments ?p ?us ?W] =>
      let Hr := fresh "Hr" in
      let Hdb := fresh "Hdb" in
      pose proof (fetchComments_frame p us W) as (Hr & Hdb & _);
      destruct (Hook.fetchComments p us W) as [?r ?w];
      cbn in Hr, Hdb; rewrite Hr; cbn; exact Hdb
  end.

(** createComment leaves the database alone or runs one INSERT on comments,
    in the name of the session user, on the hook's post, with the trimmed
    content. *)
Lemma createComment_db postId user content parentId w :
  let d' := Hook.db (snd (Hook.createComment postId user content parentId w)) in
  d' = Hook.db w
  \/ exists u o,
       user = Some u
       /\ d' = Schema.exec
                 (Schema.CommentInsert (Some (Hook.u_id u)) (Hook.fresh_uuid o) (Hook.now o)
                    (Store.mk_comment_values (Hook.u_id u) postId (Js.trim content)
                       parentId))
                 (Hook.db w).
Proof.
  cbv zeta. unfold Hook.createComment.
  destruct user as [u|]; [|left; reflexivity].
  destruct (Js.truthy_text (Js.trim content)); cbn [negb]; [|left; reflexivity].
  unfold_async.
  destruct (Hook.fault (Hook.env w (Hook.tick w))); try (left; reflexivity).
  right. exists u, (Hook.env w (Hook.tick w)). split; [reflexivity|].
  cbn [Schema.exec]. unfold Hook.session_uid. cbn [option_map].
  destruct (Store.insert_comment _ _ _ _ _) as [e|[row d']]; [reflexivity|].
  world_proj. after_fetch.
Qed.

(** likeComment leaves the database alone, or runs one INSERT on
    comment_likes, or, having read exactly one like row of the session user
    on the comment, one DELETE of that user's like on that comment. *)
Lemma likeComment_db postId user commentId w :
  let d' := Hook.db (snd (Hook.likeComment postId user commentId w)) in
  d' = Hook.db w
  \/ exists u o,
       user = Some u
       /\ (d' = Schema.exec
                  (Schema.LikeInsert (Some (Hook.u_id u)) (Hook.fresh_uuid o) (Hook.now o)
                     commentId (Hook.u_id u))
                  (Hook.db w)
           \/ ((exists l, Store.select_like_single commentId (Hook.u_id u) (Hook.db w)
                          = inr l)
               /\ d' = Schema.exec
                         (Schema.LikesDelete (Some (Hook.u_id u))
                            (Store.like_of commentId (Hook.u_id u)))
                         (Hook.db w))).
Proof.
  cbv zeta. unfold Hook.likeComment.
  destruct user as [u|]; [|left; reflexivity].
  unfold_async. unfold Hook.session_uid. cbn [option_map].
  destruct (Hook.fault (Hook.env w (Hook.tick w)));
    [destruct (Store.select_like_single commentId (Hook.u_id u) (Hook.db w))
       as [e|l] eqn:Hsel| |];
    world_proj; try (left; reflexivity);
    (destruct (Hook.fault (Hook.env w (S (Hook.tick w)))); world_proj;
     try (left; reflexivity)).
  - right. exists u, (Hook.env w (S (Hook.tick w))). split; [reflexivity|left].
    cbn [Schema.exec].
    destruct (Store.insert_like _ _ _ _ _ _) as [e'|[row d']]; [reflexivity|].
    world_proj. after_fetch.
  - right. exists u, (Hook.env w (S (Hook.tick w))). split; [reflexivity|right].
    split; [eauto|]. cbn [Schema.exec]. after_fetch.
  - right. exists u, (Hook.env w (S (Hook.tick w))). split; [reflexivity|left].
    cbn [Schema.exec].
    destruct (Store.insert_like _ _ _ _ _ _) as [e'|[row d']]; [reflexivity|].
    world_proj. after_fetch.
Qed.

Lemma hook_step_runs d d' :
  Schema.hook_step d d' -> exists ss, d' = Schema.run ss d.
Proof.
  intros (a & w & <- & <-). destruct a as [p us|p us c par|p us c]; cbn [Schema.perform].
  - exists []. apply (fetchComments_frame p us w).
  - destruct (createComment_db p us c par w) as [E|(u & o & _ & E)].
    + exists []. exact E.
    + eexists [_]. exact E.
  - destruct (likeComment_db p us c w) as [E|(u & o & _ & [E|[_ E]])].
    + exists []. exact E.
    + eexists [_]. exact E.
    + eexists [_]. exact E.
Qed.

(** X3: whatever clients do through the hook, in whatever order and
    whichever of their calls fail, a database that satisfied its constraints
    with exact counters still does. *)
Theorem hook_keeps_database_consistent :
  forall d d',
    Schema.valid d -> Schema.counters_exact d ->
    Schema.reachable d d' ->
    Schema.valid d' /\ Schema.counters_exact d'.
Proof.
  intros d d' Hv Hc Hreach. induction Hreach as [|d1 d2 _ [Hv1 Hc1] Hstep].
  - split; assumption.
  - destruct (hook_step_runs _ _ Hstep) as [ss ->].
    clear Hstep. revert d1 Hv1 Hc1.
    induction ss as [|s ss IH]; intros d1 Hv1 Hc1; cbn [Schema.run]; [auto|].
    apply IH; [apply valid_exec, Hv1|apply counters_exact_exec; assumption].
Qed.

Lemma sample_valid : Schema.valid Sample.db0.
Proof.
  constructor.
  - exact sample_primary_key.
  - repeat constructor. intros [].
  - intros c u. cbn. destruct (Store.like_of c u _); cbn; lia.
  - exact sample_likes_reference.
  - intros c Hc. cbn in Hc.
    repeat (destruct Hc as [<-|Hc]; [cbn; lia|]). contradiction.
  - intros c Hc. cbn in Hc.
    repeat (destruct Hc as [<-|Hc]; [repeat split; reflexivity|]). contradiction.
Qed.

Lemma sample_counters_exact : Schema.counters_exact Sample.db0.
Proof.
  split.
  - intros c row Hrow Hid. cbn in Hrow.
    repeat (destruct Hrow as [<-|Hrow]; [subst c; reflexivity|]). contradiction.
  - intros p row Hrow Hid. cbn in Hrow.
    repeat (destruct Hrow as [<-|Hrow]; [subst p; reflexivity|]). contradiction.
Qed.

(** A session on the sample database: u2 likes c2, u1 deletes the root c1
    (which takes c2, c5, c3 and the likes on them along), u2 comments. *)
Lemma statements_keep_constraints_witness :
  let ss := [ Schema.LikeInsert (Some "u2") "l2" 41 "c2" "u2";
              Schema.CommentsDelete (Some "u1") (fun c => String.eqb (Store.c_id c) "c1");
              Schema.CommentInsert (Some "u2") "c6" 60
                (Store.mk_comment_values "u2" "p1" (Sample.txt "again") (Some "c4")) ] in
  Schema.valid Sample.db0
  /\ map Store.c_id (Store.comments (Schema.run ss Sample.db0)) = ["c4"; "c6"]
  /\ Store.comment_likes (Schema.run ss Sample.db0) = []
  /\ Schema.valid (Schema.run ss Sample.db0).
Proof.
  cbv zeta. split; [exact sample_valid|].
  split; [reflexivity|]. split; [reflexivity|].
  apply statements_keep_constraints. exact sample_valid.
Defined.


Lemma hook_keeps_database_consistent_witness :
  let w1 := Schema.perform (Schema.Create "p1" (Some Sample.u1) (Sample.txt " hi ") None)
              (Sample.world Sample.serving) in
  let w2 := Schema.perform (Schema.Like "p1" (Some Sample.u2) "c1") w1 in
  Schema.valid Sample.db0
  /\ Schema.counters_exact Sample.db0
  /\ Schema.reachable Sample.db0 (Hook.db w2)
  /\ Schema.valid (Hook.db w2)
  /\ Schema.counters_exact (Hook.db w2).
Proof.
  cbv zeta.
  assert (Hreach : Schema.reachable Sample.db0
                     (Hook.db
                        (Schema.perform (Schema.Like "p1" (Some Sample.u2) "c1")
                           (Schema.perform
                              (Schema.Create "p1" (Some Sample.u1) (Sample.txt " hi ") None)
                              (Sample.world Sample.serving))))).
  { eapply Schema.reach_step; [eapply Schema.reach_step; [apply Schema.reach_here|]|].
    - eexists _, (Sample.world Sample.serving). split; reflexivity.
    - eexists _, _. split; reflexivity. }
  split; [exact sample_valid|]. split; [exact sample_counters_exact|].
  split; [exact Hreach|].
  exact (hook_keeps_database_consistent _ _ sample_valid sample_counters_exact Hreach).
Defined.

(** ** What the hook's calls leave alone *)

(** X4: fetchComments only reads.  Whatever fails, it completes normally,
    issues at most two calls, both reads, and changes neither the database
    nor the toasts; with an empty post id it does nothing at all, and
    otherwise it ends with the loading flag down. *)
Theorem fetchComments_only_reads :
  forall postId user w,
    let (r, w') := Hook.fetchComments postId user w in
    r = Hook.Normal tt
    /\ Hook.db w' = Hook.db w
    /\ Hook.toasts w' = Hook.toasts w
    /\ forallb Hook.is_query (Hook.issued w w') = true
    /\ (List.length (Hook.issued w w') <= 2)%nat
    /\ (if Js.truthy_string postId then Hook.loading w' = false else w' = w).
Proof.
  intros postId user w. unfold Hook.fetchComments.
  destruct (Js.truthy_string postId); cbn [negb].
  2:{ unfold Hook.ret. rewrite issued_refl. repeat split; auto. }
  unfold_async. unfold Hook.issued. world_proj.
  destruct (Hook.fault (Hook.env w (Hook.tick w))); world_proj;
    [destruct user as [u|]; world_proj;
     [destruct (Hook.fault (Hook.env w (S (Hook.tick w)))); world_proj|]| |];
    rewrite <- ?app_assoc, skipn_length_app; cbn; repeat split; auto; lia.
Qed.



(** X6: createComment never throws, and it returns null exactly when it
    stored nothing: a null result leaves the whole database as it was, and a
    row result means the database changed.  Like rows and users are never
    touched. *)
Theorem createComment_null_iff_nothing_stored :
  forall postId user content parentId w,
    let (r, w') := Hook.createComment postId user content parentId w in
    (exists o, r = Hook.Normal o)
    /\ (r = Hook.Normal None <-> Hook.db w' = Hook.db w)
    /\ Store.comment_likes (Hook.db w') = Store.comment_likes (Hook.db w)
    /\ Store.auth_users (Hook.db w') = Store.auth_users (Hook.db w).
Proof.
  intros postId user content parentId w. unfold Hook.createComment.
  destruct user as [u|]; [|cbn; intuition eauto].
  destruct (Js.truthy_text (Js.trim content)); cbn [negb]; [|cbn; intuition eauto].
  unfold_async.
  destruct (Hook.fault (Hook.env w (Hook.tick w))); try (cbn; intuition eauto).
  destruct (Store.insert_comment _ _ _ _ _) as [e|[row d']] eqn:Hins;
    [cbn; intuition eauto|].
  apply insert_comment_inr in Hins. destruct Hins as [Hrow Hd].
  world_proj.
  match goal with
  | |- context [Hook.fetchComments postId ?us ?W] =>
      pose proof (fetchComments_frame postId us W) as (Hr & Hdb & _);
      destruct (Hook.fetchComments postId us W) as [r1 w1]
  end.
  cbn in Hr, Hdb. subst r1. cbn. rewrite Hdb, Hd.
  destruct (recount_frame Store.INSERT row
              (Store.set_comments (Store.comments (Hook.db w) ++ [row]) (Hook.db w)))
    as (F1 & F2 & F3 & _).
  split; [eauto|]. split; [|split; assumption].
  split; [discriminate|]. intros E. exfalso.
  apply (f_equal (fun d => List.length (Store.comments d))) in E.
  rewrite F1 in E. cbn in E. rewrite length_app in E. cbn in E. lia.
Qed.

(** ** What a fetch shows *)

Lemma issued_app w l : forall w',
  Hook.calls w' = Hook.calls w ++ l -> Hook.issued w w' = l.
Proof. intros w' E. unfold Hook.issued. rewrite E. apply skipn_length_app. Qed.

(** With both queries served, the stored tree is the view of the database. *)
Lemma fetchComments_all_served postId user w :
  let (r, w') := Hook.fetchComments postId user w in
  View.all_served (Hook.issued w w') ->
  Hook.comments w' =
  if Js.truthy_string postId then View.tree postId user (Hook.db w)
  else Hook.comments w.
Proof.
  unfold Hook.fetchComments, View.all_served, View.tree.
  destruct (Js.truthy_string postId); cbn [negb]; [|intros _; reflexivity].
  unfold_async. unfold Hook.issued. world_proj.
  destruct (Hook.fault (Hook.env w (Hook.tick w))); world_proj.
  - destruct user as [u|]; world_proj; [|reflexivity].
    destruct (Hook.fault (Hook.env w (S (Hook.tick w)))); world_proj;
      rewrite <- app_assoc, skipn_length_app; intros Hok; [reflexivity| |];
      exfalso; specialize (Hok _ (or_intror (or_introl eq_refl))); discriminate Hok.
  - rewrite skipn_length_app. intros Hok.
    specialize (Hok _ (or_introl eq_refl)). discriminate Hok.
  - rewrite skipn_length_app. intros Hok.
    specialize (Hok _ (or_introl eq_refl)). discriminate Hok.
Qed.

(** X7: fetching twice in a row, with every query served, stores the same
    tree the second time as the first. *)
Theorem fetchComments_twice_same_tree :
  forall postId user w,
    let w1 := snd (Hook.fetchComments postId user w) in
    let w2 := snd (Hook.fetchComments postId user w1) in
    View.all_served (Hook.issued w w2) ->
    Hook.comments w2 = Hook.comments w1.
Proof.
  intros postId user w. cbv zeta. intros Hok.
  pose proof (fetchComments_frame postId user w) as (_ & Hdb1 & _ & _ & _ & l1 & Hl1 & _).
  pose proof (fetchComments_all_served postId user w) as H1.
  destruct (Hook.fetchComments postId user w) as [r1 w1]. cbn [snd] in *.
  pose proof (fetchComments_frame postId user w1) as (_ & _ & _ & _ & _ & l2 & Hl2 & _).
  pose proof (fetchComments_all_served postId user w1) as H2.
  destruct (Hook.fetchComments postId user w1) as [r2 w2]. cbn [snd] in *.
  rewrite (issued_app w1 _ w2 Hl2) in H2.
  rewrite Hl1, <- app_assoc in Hl2.
  rewrite (issued_app w _ w2 Hl2) in Hok.
  rewrite (issued_app w _ w1 Hl1) in H1.
  assert (Hok1 : View.all_served l1) by (intros c Hc; apply Hok, in_app_iff; auto).
  assert (Hok2 : View.all_served l2) by (intros c Hc; apply Hok, in_app_iff; auto).
  rewrite (H2 Hok2), Hdb1.
  destruct (Js.truthy_string postId); [|reflexivity].
  symmetry. apply H1, Hok1.
Qed.

Lemma includes_user_likes u d c :
  Js.includes (Store.select_user_likes u d) c = Store.has_like d c u.
Proof.
  unfold Js.includes, Store.select_user_likes, Store.has_like, Store.like_of.
  induction (Store.comment_likes d) as [|l ls IH]; cbn [filter map existsb]; [reflexivity|].
  rewrite <- IH. rewrite (String.eqb_sym (Store.l_comment_id l) c).
  destruct (String.eqb (Store.l_user_id l) u); cbn [map existsb].
  - rewrite andb_true_r. reflexivity.
  - rewrite andb_false_r. reflexivity.
Qed.

Lemma nodes_of_tree T x :
  In x (View.nodes (Hook.commentsWithReplies T)) -> In x T.
Proof.
  unfold View.nodes, Hook.commentsWithReplies, Hook.rootComments. intros H.
  apply in_flat_map in H. destruct H as (t & Ht & Hx).
  apply in_map_iff in Ht. destruct Ht as (c & <- & Hc). cbn [Hook.root Hook.replies] in Hx.
  apply filter_In in Hc. destruct Hx as [<-|Hx]; [apply Hc|].
  apply filter_In in Hx. apply Hx.
Qed.

(** A fetch that went through used the user's likes, or none when the
    second query came back as an error. *)
Lemma fetchComments_tree_likes postId user w :
  let (r, w') := Hook.fetchComments postId user w in
  Hook.fetch_went_through postId (Hook.issued w w') ->
  exists ul,
    (ul = View.user_likes user (Hook.db w) \/ ul = [])
    /\ Hook.comments w' =
       Hook.commentsWithReplies
         (map (Hook.transform ul) (Store.select_comments postId (Hook.db w))).
Proof.
  unfold Hook.fetchComments, Hook.fetch_went_through.
  destruct (Js.truthy_string postId); cbn [negb].
  2:{ unfold Hook.ret. rewrite issued_refl. intros [[] _]. }
  unfold_async. unfold Hook.issued. world_proj.
  destruct (Hook.fault (Hook.env w (Hook.tick w))); world_proj.
  - destruct user as [u|]; world_proj.
    + destruct (Hook.fault (Hook.env w (S (Hook.tick w)))); world_proj;
        rewrite <- app_assoc, skipn_length_app; intros [_ Hok].
      * eexists; split; [left; reflexivity|reflexivity].
      * eexists; split; [right; reflexivity|reflexivity].
      * exfalso. eapply Hok; [right; left; reflexivity|reflexivity].
    + intros _. eexists; split; [left; reflexivity|reflexivity].
  - rewrite skipn_length_app. intros [[H|[]] _]. discriminate H.
  - rewrite skipn_length_app. intros [[H|[]] _]. discriminate H.
Qed.

(** X8: the liked flag of every comment shown.  When both queries of a
    fetch are served, a comment is flagged exactly when the session user has
    a like row on it (never without a session); and whenever a tree is
    stored at all, no comment is flagged without such a row. *)
Theorem fetchComments_liked_flags :
  forall postId user w,
    let (r, w') := Hook.fetchComments postId user w in
    (Js.truthy_string postId = true ->
     View.all_served (Hook.issued w w') ->
     forall x, In x (View.nodes (Hook.comments w')) ->
       Hook.is_liked x =
       match user with
       | Some u => Store.has_like (Hook.db w) (Hook.id x) (Hook.u_id u)
       | None => false
       end)
    /\ (Hook.fetch_went_through postId (Hook.issued w w') ->
        forall x, In x (View.nodes (Hook.comments w')) ->
          Hook.is_liked x = true ->
          exists u, user = Some u
                    /\ Store.has_like (Hook.db w) (Hook.id x) (Hook.u_id u) = true).
Proof.
  intros postId user w.
  pose proof (fetchComments_all_served postId user w) as H1.
  pose proof (fetchComments_tree_likes postId user w) as H2.
  destruct (Hook.fetchComments postId user w) as [r w'].
  assert (Hflag : forall ul x,
             In x (View.nodes
                     (Hook.commentsWithReplies
                        (map (Hook.transform ul)
                           (Store.select_comments postId (Hook.db w))))) ->
             Hook.is_liked x = Js.includes ul (Hook.id x)).
  { intros ul x Hx. apply nodes_of_tree, in_map_iff in Hx.
    destruct Hx as (row & <- & _). reflexivity. }
  split.
  - intros Ht Hok x Hx. rewrite (H1 Hok), Ht in Hx. unfold View.tree in Hx.
    rewrite (Hflag _ _ Hx). destruct user as [u|]; [apply includes_user_likes|reflexivity].
  - intros Hok x Hx Hl. destruct (H2 Hok) as (ul & Hul & E). rewrite E in Hx.
    rewrite (Hflag _ _ Hx) in Hl.
    destruct Hul as [->| ->]; [|discriminate Hl].
    destruct user as [u|]; [|discriminate Hl].
    exists u. split; [reflexivity|]. rewrite <- includes_user_likes. exact Hl.
Qed.

(** ** A created comment *)

(** A createComment that returns a row: the insert it ran, and the fetch
    that followed. *)
Lemma createComment_success postId user content parentId w row :
  let (r, w') := Hook.createComment postId user content parentId w in
  r = Hook.Normal (Some row) ->
  exists u o W1 d1,
    user = Some u
    /\ Js.truthy_text (Js.trim content) = true
    /\ Store.insert_comment (Some (Hook.u_id u)) (Hook.fresh_uuid o) (Hook.now o)
         (Store.mk_comment_values (Hook.u_id u) postId (Js.trim content) parentId)
         (Hook.db w) = inr (row, d1)
    /\ Hook.db W1 = d1
    /\ (exists c, Hook.calls W1 = Hook.calls w ++ [c] /\ Hook.is_query c = false)
    /\ w' = snd (Hook.fetchComments postId user W1).
Proof.
  unfold Hook.createComment.
  destruct user as [u|]; [|cbn; discriminate].
  destruct (Js.truthy_text (Js.trim content)) eqn:Ht; cbn [negb]; [|cbn; discriminate].
  unfold_async. unfold Hook.session_uid. cbn [option_map].
  destruct (Hook.fault (Hook.env w (Hook.tick w))); try (cbn; discriminate).
  destruct (Store.insert_comment _ _ _ _ _) as [e|[row' d']] eqn:Hins;
    [cbn; discriminate|].
  world_proj.
  match goal with
  | |- context [Hook.fetchComments postId ?us ?W] => set (W1 := W)
  end.
  pose proof (fetchComments_frame postId (Some u) W1) as (Hr & _).
  destruct (Hook.fetchComments postId (Some u) W1) as [r1 w1] eqn:Hf.
  cbn in Hr. subst r1. cbn. intros H. injection H as <-.
  exists u, (Hook.env w (Hook.tick w)), W1, d'.
  split; [reflexivity|]. split; [reflexivity|].
  split; [exact Hins|]. split; [reflexivity|].
  split; [eexists; split; reflexivity|]. rewrite Hf. reflexivity.
Qed.

Lemma in_select_comments p d row :
  In row (Store.comments d) -> Store.c_post_id row = p ->
  In (Store.join_profile d row) (Store.select_comments p d).
Proof.
  intros Hin Hp. unfold Store.select_comments. apply in_map.
  apply (Permutation_in _ (order_by_created_at_perm _)).
  apply filter_In. split; [exact Hin|]. rewrite Hp. apply String.eqb_refl.
Qed.

(** X9: a comment that createComment returns is counted and, once the
    refetch has gone through, shown.  The post's counter holds the former
    number of its comment rows plus one; a comment without parent is among
    the roots, and a reply is in the replies of every root it names. *)
Theorem createComment_counted_and_shown :
  forall postId user content parentId w row,
    let (r, w') := Hook.createComment postId user content parentId w in
    r = Hook.Normal (Some row) ->
    Store.counter_is (Hook.db w') postId
      (Store.count_comments postId (Hook.db w) + 1)
    /\ (Hook.fetch_went_through postId (Hook.issued w w') ->
        match parentId with
        | None => In (Store.c_id row) (map Hook.id (map Hook.root (Hook.comments w')))
        | Some p =>
            forall t, In t (Hook.comments w') -> Hook.id (Hook.root t) = p ->
                      In (Store.c_id row) (map Hook.id (Hook.replies t))
        end).
Proof.
  intros postId user content parentId w row.
  pose proof (createComment_success postId user content parentId w row) as H.
  destruct (Hook.createComment postId user content parentId w) as [r w'].
  intros Hr. destruct (H Hr) as (u & o & W1 & d1 & -> & _ & Hins & Hd1 & (c & Hc & Hq) & ->).
  clear H Hr.
  destruct (insert_comment_inr _ _ _ _ _ _ _ Hins) as [Hrow Hd].
  pose proof (fetchComments_frame postId (Some u) W1) as (_ & Hdb & _ & _ & _ & l & Hl & _).
  pose proof (fetchComments_tree postId (Some u) W1) as Htree.
  destruct (Hook.fetchComments postId (Some u) W1) as [r1 w1]. cbn [snd] in *.
  assert (Hpost : Store.c_post_id row = postId) by (rewrite Hrow; reflexivity).
  assert (Hpar : Store.c_parent_id row = parentId) by (rewrite Hrow; reflexivity).
  set (db1 := Store.set_comments (Store.comments (Hook.db w) ++ [row]) (Hook.db w)) in *.
  split.
  - rewrite Hdb, Hd1, Hd, <- Hpost.
    replace (Store.count_comments (Store.c_post_id row) (Hook.db w) + 1)
      with (Store.count_comments (Store.c_post_id row) db1).
    + apply (recount_sets_counter Store.INSERT); auto.
    + unfold Store.count_comments, db1. db_proj. rewrite filter_app, length_app.
      cbn [filter]. rewrite String.eqb_refl. cbn [List.length]. lia.
  - intros [Hsel Hnothrow].
    rewrite Hc, <- app_assoc in Hl. rewrite (issued_app w _ w1 Hl) in Hsel, Hnothrow.
    assert (Hok : Hook.fetch_went_through postId (Hook.issued W1 w1)).
    { rewrite (issued_app W1 l w1) by (rewrite Hc, <- app_assoc; exact Hl).
      split.
      - destruct Hsel as [E|Hsel]; [|exact Hsel].
        subst c. discriminate Hq.
      - intros x Hx. apply Hnothrow. right. exact Hx. }
    destruct (Htree Hok) as [ul ->].
    set (T := map (Hook.transform ul) (Store.select_comments postId (Hook.db W1))).
    set (x := Hook.transform ul (Store.join_profile (Hook.db W1) row)).
    assert (HxT : In x T).
    { apply in_map, in_select_comments; [|exact Hpost].
      rewrite Hd1, Hd. destruct (recount_frame Store.INSERT row db1) as [-> _].
      unfold db1. db_proj. apply in_app_iff. right. left. reflexivity. }
    assert (Hxid : Hook.id x = Store.c_id row) by reflexivity.
    assert (Hxpar : Hook.parent_id x = parentId) by exact Hpar.
    destruct parentId as [p|].
    + intros t Ht Hp. unfold Hook.commentsWithReplies in Ht.
      apply in_map_iff in Ht. destruct Ht as (c0 & <- & _).
      cbn [Hook.root Hook.replies] in *. apply in_map_iff. exists x.
      split; [exact Hxid|]. apply filter_In. split; [exact HxT|].
      rewrite Hxpar. cbn. rewrite Hp. apply String.eqb_refl.
    + rewrite roots_of_tree. apply in_map_iff. exists x. split; [exact Hxid|].
      unfold Hook.rootComments. apply filter_In. split; [exact HxT|].
      rewrite Hxpar. reflexivity.
Qed.

(** X10: a comment whose trimmed content is longer than 1000 characters is
    never stored.  Whatever the outside does, createComment returns null,
    shows the generic error toast, and leaves the database and the comment
    state as they were; when the call is served, what is logged is the
    violated CHECK. *)
Theorem createComment_too_long_rejected :
  forall postId u content parentId w,
    (1000 < List.length (Js.trim content))%nat ->
    let (r, w') := Hook.createComment postId (Some u) content parentId w in
    r = Hook.Normal None
    /\ Hook.db w' = Hook.db w
    /\ Hook.comments w' = Hook.comments w
    /\ Hook.toasts w' =
         Hook.toasts w ++ [Hook.ToastError "Erreur lors de la création du commentaire"]
    /\ (Hook.fault (Hook.env w (Hook.tick w)) = Hook.Deliver ->
        Hook.console w' =
        Hook.console w
        ++ [Hook.mk_LogLine "Error creating comment:"
              (Hook.PostgrestError Store.CheckViolation)]).
Proof.
  intros postId u content parentId w Hlen. unfold Hook.createComment.
  destruct (Js.trim content) as [|a s] eqn:Ht; [cbn in Hlen; lia|].
  cbn [Js.truthy_text negb]. unfold_async. unfold Hook.session_uid. cbn [option_map].
  assert (Hins : forall g t,
             Store.insert_comment (Some (Hook.u_id u)) g t
               (Store.mk_comment_values (Hook.u_id u) postId (a :: s) parentId)
               (Hook.db w) = inl Store.CheckViolation).
  { intros g t. unfold Store.insert_comment.
    cbn [Store.owned_by Store.v_user_id Store.v_content]. rewrite String.eqb_refl.
    cbn [negb]. destruct (Nat.leb_spec (List.length (a :: s)) 1000); [lia|reflexivity]. }
  destruct (Hook.fault (Hook.env w (Hook.tick w))); [rewrite Hins| |]; cbn;
    repeat split; auto; discriminate.
Qed.

Lemma createComment_too_long_rejected_witness :
  let content := repeat 120%N 1001 ++ [32%N] in
  (1000 < List.length (Js.trim content))%nat
  /\ let (r, w') := Hook.createComment "p1" (Some Sample.u1) content None
                      (Sample.world Sample.serving) in
     r = Hook.Normal None /\ Hook.db w' = Sample.db0.
Proof.
  cbv zeta.
  assert (H : (1000 < List.length (Js.trim (repeat 120%N 1001 ++ [32%N])))%nat)
    by (vm_compute; lia).
  split; [exact H|].
  pose proof (createComment_too_long_rejected "p1" Sample.u1
                (repeat 120%N 1001 ++ [32%N]) None (Sample.world Sample.serving) H) as P.
  destruct (Hook.createComment "p1" (Some Sample.u1) (repeat 120%N 1001 ++ [32%N]) None
              (Sample.world Sample.serving)) as [r w'].
  destruct P as (P1 & P2 & _). split; assumption.
Defined.

(** *** The trimmed content *)

Lemma trimStart_head s a r :
  Js.trimStart s = a :: r -> Js.isWhiteSpace a = false.
Proof.
  induction s as [|x s IH]; cbn; [discriminate|].
  destruct (Js.isWhiteSpace x) eqn:Hx; [exact IH|].
  intros H. injection H as <- _. exact Hx.
Qed.

Lemma trimStart_snoc l a :
  Js.isWhiteSpace a = false -> Js.trimStart (l ++ [a]) = Js.trimStart l ++ [a].
Proof.
  intros Ha. induction l as [|x l IH]; cbn; [rewrite Ha; reflexivity|].
  destruct (Js.isWhiteSpace x); [exact IH|reflexivity].
Qed.

(** A trimmed text is empty, or begins and ends with a character that is
    not white space. *)
Lemma trim_ends s :
  Js.trim s = []
  \/ (exists a, hd_error (Js.trim s) = Some a /\ Js.isWhiteSpace a = false)
     /\ (exists b, hd_error (rev (Js.trim s)) = Some b /\ Js.isWhiteSpace b = false).
Proof.
  unfold Js.trim, Js.trimEnd.
  destruct (Js.trimStart s) as [|a r] eqn:E; [left; reflexivity|right].
  pose proof (trimStart_head _ _ _ E) as Ha.
  cbn [rev]. rewrite (trimStart_snoc _ _ Ha), rev_app_distr. cbn [rev app].
  split; [exists a; auto|].
  rewrite rev_involutive.
  destruct (Js.trimStart (rev r)) as [|b t] eqn:E2; cbn; [exists a; auto|].
  exists b. split; [reflexivity|]. exact (trimStart_head _ _ _ E2).
Qed.

(** X11: the content of every comment createComment stores is between 1
    and 1000 characters long and neither begins nor ends with white space. *)
Theorem createComment_content_well_formed :
  forall postId user content parentId w row,
    let (r, w') := Hook.createComment postId user content parentId w in
    r = Hook.Normal (Some row) ->
    (1 <= List.length (Store.c_content row) <= 1000)%nat
    /\ (exists a, hd_error (Store.c_content row) = Some a /\ Js.isWhiteSpace a = false)
    /\ (exists b, hd_error (rev (Store.c_content row)) = Some b
                  /\ Js.isWhiteSpace b = false).
Proof.
  intros postId user content parentId w row.
  pose proof (createComment_success postId user content parentId w row) as H.
  destruct (Hook.createComment postId user content parentId w) as [r w'].
  intros Hr. destruct (H Hr) as (u & o & W1 & d1 & _ & Ht & Hins & _).
  destruct (insert_comment_checked _ _ _ _ _ _ _ Hins) as (_ & Hlen & _).
  destruct (insert_comment_inr _ _ _ _ _ _ _ Hins) as [Hrow _].
  assert (Hc : Store.c_content row = Js.trim content) by (rewrite Hrow; reflexivity).
  rewrite Hc. cbn [Store.v_content] in Hlen.
  destruct (trim_ends content) as [E|[Ha Hb]].
  - rewrite E in Ht. discriminate Ht.
  - split; [|split; assumption].
    split; [|exact Hlen].
    destruct (Js.trim content); [discriminate Ht|cbn; lia].
Qed.

Lemma createComment_content_well_formed_witness :
  let row := Store.mk_comment_row "g0" "u1" "p1" (Sample.txt "nice pick") None
               (Some 0) 100 100 in
  let (r, w') := Hook.createComment "p1" (Some Sample.u1)
                   (Sample.txt (String (ascii_of_nat 9) " nice pick  ")) None
                   (Sample.world Sample.serving) in
  r = Hook.Normal (Some row)
  /\ (1 <= List.length (Store.c_content row) <= 1000)%nat
  /\ (exists a, hd_error (Store.c_content row) = Some a /\ Js.isWhiteSpace a = false)
  /\ (exists b, hd_error (rev (Store.c_content row)) = Some b
                /\ Js.isWhiteSpace b = false).
Proof.
  pose proof (createComment_content_well_formed "p1" (Some Sample.u1)
                (Sample.txt (String (ascii_of_nat 9) " nice pick  ")) None
                (Sample.world Sample.serving)
                (Store.mk_comment_row "g0" "u1" "p1" (Sample.txt "nice pick") None
                   (Some 0) 100 100)) as H.
  cbv zeta.
  destruct (Hook.createComment "p1" (Some Sample.u1)
              (Sample.txt (String (ascii_of_nat 9) " nice pick  ")) None
              (Sample.world Sample.serving)) as [r w'] eqn:E.
  assert (Hr : r = Hook.Normal
                     (Some (Store.mk_comment_row "g0" "u1" "p1" (Sample.txt "nice pick")
                              None (Some 0) 100 100))).
  { vm_compute in E. injection E as <- _. reflexivity. }
  split; [exact Hr|]. exact (H Hr).
Defined.

(** *** The further properties on the sample database *)

Lemma sample_served_twice :
  View.all_served
    (Hook.issued (Sample.world Sample.serving)
       (snd (Hook.fetchComments "p1" (Some Sample.u2)
          (snd (Hook.fetchComments "p1" (Some Sample.u2)
                  (Sample.world Sample.serving)))))).
Proof.
  intros c Hc. vm_compute in Hc.
  repeat (destruct Hc as [<-|Hc]; [reflexivity|]). destruct Hc.
Qed.

Lemma sample_served_once :
  View.all_served
    (Hook.issued (Sample.world Sample.serving)
       (snd (Hook.fetchComments "p1" (Some Sample.u2) (Sample.world Sample.serving)))).
Proof.
  intros c Hc. vm_compute in Hc.
  repeat (destruct Hc as [<-|Hc]; [reflexivity|]). destruct Hc.
Qed.


Lemma fetchComments_twice_same_tree_witness :
  let w := Sample.world Sample.serving in
  let w1 := snd (Hook.fetchComments "p1" (Some Sample.u2) w) in
  let w2 := snd (Hook.fetchComments "p1" (Some Sample.u2) w1) in
  View.all_served (Hook.issued w w2) /\ Hook.comments w2 = Hook.comments w1.
Proof.
  cbv zeta. split; [exact sample_served_twice|].
  exact (fetchComments_twice_same_tree "p1" (Some Sample.u2)
           (Sample.world Sample.serving) sample_served_twice).
Defined.

Lemma fetchComments_liked_flags_witness :
  let w := Sample.world Sample.serving in
  let w' := snd (Hook.fetchComments "p1" (Some Sample.u2) w) in
  Js.truthy_string "p1" = true
  /\ View.all_served (Hook.issued w w')
  /\ map Hook.is_liked (View.nodes (Hook.comments w'))
     = map (fun x => Store.has_like (Hook.db w) (Hook.id x) "u2")
         (View.nodes (Hook.comments w')).
Proof.
  cbv zeta. split; [reflexivity|]. split; [exact sample_served_once|].
  pose proof (fetchComments_liked_flags "p1" (Some Sample.u2)
                (Sample.world Sample.serving)) as H.
  pose proof sample_served_once as Hok.
  destruct (Hook.fetchComments "p1" (Some Sample.u2) (Sample.world Sample.serving))
    as [r w'].
  destruct H as [H _]. cbn [snd] in *.
  apply map_ext_in. intros x Hx. exact (H eq_refl Hok x Hx).
Defined.

Lemma createComment_counted_and_shown_witness :
  let w := Sample.world Sample.serving in
  let row := Store.mk_comment_row "g0" "u1" "p1" (Sample.txt "nice pick") None
               (Some 0) 100 100 in
  let (r, w') := Hook.createComment "p1" (Some Sample.u1) (Sample.txt " nice pick ")
                   None w in
  r = Hook.Normal (Some row)
  /\ Hook.fetch_went_through "p1" (Hook.issued w w')
  /\ Store.counter_is (Hook.db w') "p1" 6
  /\ In "g0" (map Hook.id (map Hook.root (Hook.comments w'))).
Proof.
  cbv zeta.
  pose proof (createComment_counted_and_shown "p1" (Some Sample.u1)
                (Sample.txt " nice pick ") None (Sample.world Sample.serving)
                (Store.mk_comment_row "g0" "u1" "p1" (Sample.txt "nice pick") None
                   (Some 0) 100 100)) as H.
  destruct (Hook.createComment "p1" (Some Sample.u1) (Sample.txt " nice pick ") None
              (Sample.world Sample.serving)) as [r w'] eqn:E.
  assert (Hr : r = Hook.Normal
                     (Some (Store.mk_comment_row "g0" "u1" "p1" (Sample.txt "nice pick")
                              None (Some 0) 100 100))).
  { vm_compute in E. injection E as <- _. reflexivity. }
  assert (Hok : Hook.fetch_went_through "p1"
                  (Hook.issued (Sample.world Sample.serving) w')).
  { vm_compute in E. injection E as _ <-. split; [right; left; reflexivity|].
    intros c Hc. vm_compute in Hc.
    repeat (destruct Hc as [<-|Hc]; [discriminate|]). destruct Hc. }
  destruct (H Hr) as [Hn Hs].
  split; [exact Hr|]. split; [exact Hok|]. split; [exact Hn|exact (Hs Hok)].
Defined.

(** ** DELETE on comments: the policy and the cascade *)

Lemma delete_comments_rows uid where_ d :
  map Schema.shape (Store.comments (Store.delete_comments uid where_ d))
  = map Schema.shape
      (filter (fun c => negb (Store.removed_comments uid where_ d c)) (Store.comments d)).
Proof.
  unfold Store.delete_comments.
  set (doomed := Store.removed_comments uid where_ d).
  set (gone := filter doomed (Store.comments d)).
  set (orphan := fun l => Store.has_id (map Store.c_id gone) (Store.l_comment_id l)).
  set (d1 := Store.set_comment_likes
               (filter (fun l => negb (orphan l)) (Store.comment_likes d))
               (Store.set_comments (filter (fun c => negb (doomed c)) (Store.comments d)) d)).
  set (d2 := fold_left (fun d l => Store.update_comment_likes_count Store.DELETE l d)
               (filter orphan (Store.comment_likes d)) d1).
  destruct (likes_triggers_frame Store.DELETE (filter orphan (Store.comment_likes d)) d1)
    as (F1 & _). fold d2 in F1.
  destruct (recounts_frame gone d2) as (G1 & _).
  change (map Schema.shape
            (Store.comments
               (fold_left (fun d c => Store.update_post_comments_count Store.DELETE c d)
                  gone d2)) = map Schema.shape (Store.comments d1)).
  rewrite G1. exact F1.
Qed.

Lemma removed_comments_cases uid where_ db c :
  In c (Store.comments db) ->
  (Store.removed_comments uid where_ db c = true
   <-> (where_ c = true /\ Store.owned_by uid (Store.c_user_id c) = true)
       \/ exists q, In q (Store.comments db)
                    /\ Store.c_parent_id c = Some (Store.c_id q)
                    /\ Store.removed_comments uid where_ db q = true).
Proof.
  intros Hc. split.
  - unfold Store.removed_comments.
    destruct (List.length (Store.comments db)) as [|k] eqn:Hn.
    + cbn [Store.cascades]. rewrite orb_false_r. intros H.
      left. apply andb_true_iff, H.
    + rewrite cascades_S. intros H. apply orb_true_iff in H.
      destruct H as [H|H]; [left; apply andb_true_iff, H|right].
      destruct (Store.c_parent_id c) as [p|]; [|discriminate].
      apply existsb_exists in H. destruct H as (q & Hq & H).
      apply andb_true_iff in H. destruct H as [E H]. apply String.eqb_eq in E.
      exists q. split; [exact Hq|]. split; [congruence|].
      apply cascades_mono, H.
  - intros [[H1 H2]|(q & Hq & Hpar & Hd)].
    + unfold Store.removed_comments.
      destruct (List.length (Store.comments db)); cbn [Store.cascades];
        rewrite H1, H2; reflexivity.
    + exact (removed_comments_closed uid where_ db c q Hc Hq Hpar Hd).
Qed.

Lemma removed_comments_gone uid where_ db c :
  Store.primary_key db -> In c (Store.comments db) ->
  (~ In (Store.c_id c)
        (map Store.c_id (Store.comments (Store.delete_comments uid where_ db)))
   <-> Store.removed_comments uid where_ db c = true).
Proof.
  intros Hpk Hc.
  destruct (shapes_ids _ _ (delete_comments_rows uid where_ db)) as [-> _].
  split.
  - intros Hno. destruct (Store.removed_comments uid where_ db c) eqn:Hd; [reflexivity|].
    exfalso. apply Hno, in_map, filter_In. rewrite Hd. auto.
  - intros Hd Hin. apply in_map_iff in Hin. destruct Hin as (q & E & Hq).
    apply filter_In in Hq. destruct Hq as [Hq Hnd].
    assert (q = c) by (apply (NoDup_map_inj Store.c_id (Store.comments db)); auto).
    subst q. rewrite Hd in Hnd. discriminate Hnd.
Qed.

Lemma delete_comments_nothing uid where_ db :
  (forall c, In c (Store.comments db) -> where_ c = true ->
             Store.owned_by uid (Store.c_user_id c) = false) ->
  Store.delete_comments uid where_ db = db.
Proof.
  intros Hno.
  assert (Hd : forall c, In c (Store.comments db) ->
                         Store.removed_comments uid where_ db c = false).
  { unfold Store.removed_comments.
    assert (Ht : forall c, In c (Store.comments db) ->
                   where_ c && Store.owned_by uid (Store.c_user_id c) = false).
    { intros c Hc. destruct (where_ c) eqn:Hw; [|reflexivity]. apply (Hno c Hc Hw). }
    induction (List.length (Store.comments db)) as [|k IH]; intros c Hc.
    - cbn [Store.cascades]. rewrite (Ht c Hc). reflexivity.
    - rewrite cascades_S, (Ht c Hc). cbn [orb].
      destruct (Store.c_parent_id c) as [p|]; [|reflexivity].
      apply not_true_is_false. intros H. apply existsb_exists in H.
      destruct H as (q & Hq & H). rewrite (IH q Hq), andb_false_r in H.
      discriminate H. }
  unfold Store.delete_comments.
  assert (Hex : existsb (Store.removed_comments uid where_ db) (Store.comments db) = false).
  { apply not_true_is_false. intros H. apply existsb_exists in H.
    destruct H as (c & Hc & H). rewrite (Hd c Hc) in H. discriminate H. }
  destruct (existsb_false_filter _ _ Hex) as [-> ->].
  assert (Hor : existsb (fun l : Store.like_row =>
                           Store.has_id (map Store.c_id []) (Store.l_comment_id l))
                  (Store.comment_likes db) = false).
  { induction (Store.comment_likes db); [reflexivity|exact IHl]. }
  destruct (existsb_false_filter _ _ Hor) as [-> ->].
  destruct db. reflexivity.
Qed.

(** X12: what a DELETE on comments removes.  On a table with its primary
    key, a row disappears exactly when it matches the statement and belongs
    to the caller, or is a reply to a row that disappears; every row that
    stays is a former row, up to likes_count; and a statement that matches
    no row of the caller, in particular any statement without a session,
    leaves the database as it was. *)
Theorem delete_comments_own_rows_and_replies :
  forall uid where_ db,
    Store.primary_key db ->
    let db' := Store.delete_comments uid where_ db in
    let gone c := ~ In (Store.c_id c) (map Store.c_id (Store.comments db')) in
    (forall c, In c (Store.comments db) ->
       (gone c <->
        (where_ c = true /\ Store.owned_by uid (Store.c_user_id c) = true)
        \/ exists q, In q (Store.comments db)
                     /\ Store.c_parent_id c = Some (Store.c_id q) /\ gone q))
    /\ (forall c, In c (Store.comments db') ->
          exists c0, In c0 (Store.comments db) /\ Schema.shape c0 = Schema.shape c)
    /\ ((forall c, In c (Store.comments db) -> where_ c = true ->
                   Store.owned_by uid (Store.c_user_id c) = false) ->
        db' = db)
    /\ (uid = None -> db' = db).
Proof.
  intros uid where_ db Hpk. cbv zeta. split; [|split; [|split]].
  - intros c Hc. rewrite (removed_comments_gone uid where_ db c Hpk Hc).
    rewrite (removed_comments_cases uid where_ db c Hc).
    split; (intros [H|(q & Hq & Hpar & Hg)]; [left; exact H|right]);
      exists q; (split; [exact Hq|]); (split; [exact Hpar|]);
      apply (removed_comments_gone uid where_ db q Hpk Hq); exact Hg.
  - intros c Hc.
    destruct (shapes_in _ _ c (delete_comments_rows uid where_ db) Hc) as (c0 & H0 & E).
    apply filter_In in H0. exists c0. split; [apply H0|exact E].
  - apply delete_comments_nothing.
  - intros ->. apply delete_comments_nothing. reflexivity.
Qed.

Lemma delete_comments_own_rows_and_replies_witness :
  let db' := Store.delete_comments (Some "u2")
               (fun c => String.eqb (Store.c_id c) "c2") Sample.db0 in
  Store.primary_key Sample.db0
  /\ ~ In "c3" (map Store.c_id (Store.comments db'))
  /\ In "c1" (map Store.c_id (Store.comments db')).
Proof.
  cbv zeta. split; [exact sample_primary_key|].
  destruct (delete_comments_own_rows_and_replies (Some "u2")
              (fun c => String.eqb (Store.c_id c) "c2") Sample.db0 sample_primary_key)
    as (H & _).
  split.
  - apply (H Sample.c3); [right; right; left; reflexivity|].
    right. exists Sample.c2. split; [right; left; reflexivity|].
    split; [reflexivity|].
    apply (H Sample.c2); [right; left; reflexivity|]. left. split; reflexivity.
  - vm_compute. left. reflexivity.
Defined.

(** ** The realtime channel *)

Lemma Channel_eqb_eq a b : Realtime.Channel_eqb a b = true <-> a = b.
Proof.
  unfold Realtime.Channel_eqb. rewrite andb_true_iff, Nat.eqb_eq, String.eqb_eq.
  destruct a, b; cbn. split; [intros [-> ->]; reflexivity|].
  intros E. injection E as -> ->. auto.
Qed.

Lemma Channel_eqb_refl a : Realtime.Channel_eqb a a = true.
Proof. apply Channel_eqb_eq. reflexivity. Qed.

Lemma removals_app c tr evs :
  Realtime.removals c (tr ++ evs)
  = (Realtime.removals c tr + Realtime.removals c evs)%nat.
Proof. unfold Realtime.removals. rewrite filter_app, length_app. reflexivity. Qed.

Lemma removals_in c tr :
  (0 < Realtime.removals c tr)%nat ->
  exists e, In e tr /\ Realtime.what e = Realtime.removeChannel c.
Proof.
  unfold Realtime.removals. intros H.
  destruct (filter (Realtime.removes c) tr) as [|e l] eqn:E; [cbn in H; lia|].
  assert (He : In e (filter (Realtime.removes c) tr)) by (rewrite E; left; reflexivity).
  apply filter_In in He. destruct He as [He Hr]. exists e. split; [exact He|].
  unfold Realtime.removes in Hr. destruct (Realtime.what e); try discriminate Hr.
  apply Channel_eqb_eq in Hr. subst. reflexivity.
Qed.

Lemma removals_none c evs :
  (forall e c', In e evs -> Realtime.what e <> Realtime.removeChannel c') ->
  Realtime.removals c evs = 0%nat.
Proof.
  intros H. destruct (Realtime.removals c evs) eqn:E; [reflexivity|].
  destruct (removals_in c evs) as (e & He & Hw); [lia|].
  exfalso. exact (H e c He Hw).
Qed.

(** Calls that only set a channel up keep the connection consistent. *)
Lemma grow_consistent s s' evs ch0 :
  Realtime.consistent s ->
  Realtime.channelRef s = None ->
  Realtime.ch_serial ch0 = List.length (Realtime.trace s) ->
  Realtime.trace s' = Realtime.trace s ++ evs ->
  (forall e c, In e evs -> Realtime.what e <> Realtime.removeChannel c) ->
  (forall e c, In e evs -> Realtime.about (Realtime.what e) = Some c -> c = ch0) ->
  (Realtime.channelRef s' = None
   /\ ~ In (Realtime.mk_Event (Realtime.subscribe ch0) false) evs)
  \/ (Realtime.channelRef s' = Some ch0
      /\ In (Realtime.mk_Event (Realtime.subscribe ch0) false) evs
      /\ ~ In (Realtime.mk_Event (Realtime.subscribe ch0) true) evs) ->
  ~ In Realtime.cleaning_up (Realtime.console s') ->
  Realtime.consistent s'.
Proof.
  intros [C2 C3 C4 C5 C7 C6] Hnone Hser Htr Hnorem Habout Href Hcons.
  assert (Hnew : forall c b, In (Realtime.mk_Event (Realtime.subscribe c) b) evs ->
                             c = ch0).
  { intros c b H. apply (Habout _ c H). reflexivity. }
  assert (Hpast : forall c b,
             In (Realtime.mk_Event (Realtime.subscribe c) b) (Realtime.trace s) ->
             c <> ch0).
  { intros c b H ->. pose proof (C4 _ ch0 H eq_refl). lia. }
  assert (Hfresh : forall c, Realtime.subscribed c (Realtime.trace s) -> c <> ch0).
  { intros c Hc ->. pose proof (C4 _ ch0 Hc eq_refl). lia. }
  assert (Hzero : Realtime.removals ch0 (Realtime.trace s) = 0%nat).
  { destruct (Realtime.removals ch0 (Realtime.trace s)) eqn:E; [reflexivity|].
    destruct (removals_in ch0 (Realtime.trace s)) as (e & He & Hw); [lia|].
    assert (Ha : Realtime.about (Realtime.what e) = Some ch0) by (rewrite Hw; reflexivity).
    pose proof (C4 e ch0 He Ha). lia. }
  constructor; unfold Realtime.subscribed in *; rewrite ?Htr.
  - intros c Hc. rewrite removals_app, (removals_none c evs Hnorem), Nat.add_0_r.
    apply in_app_or in Hc. destruct Hc as [Hc|Hc].
    + rewrite (C2 c Hc). unfold Realtime.live. rewrite Hnone.
      destruct Href as [[-> _]|[-> _]]; [reflexivity|].
      destruct (Realtime.Channel_eqb ch0 c) eqn:E; [|reflexivity].
      apply Channel_eqb_eq in E. exfalso. exact (Hfresh c Hc (eq_sym E)).
    + assert (c = ch0) by (apply (Habout _ c Hc); reflexivity). subst c.
      unfold Realtime.live.
      destruct Href as [[_ Hno]|[-> _]]; [contradiction|].
      rewrite Channel_eqb_refl. exact Hzero.
  - intros c Hc. destruct Href as [[E _]|[E [Hin _]]]; rewrite E in Hc; [discriminate|].
    injection Hc as <-. apply in_or_app. right. exact Hin.
  - intros e c He Ha. rewrite length_app. apply in_app_or in He.
    destruct He as [He|He]; [pose proof (C4 e c He Ha); lia|].
    rewrite (Habout e c He Ha), Hser.
    destruct evs; [destruct He|cbn; lia].
  - intros c Hc. rewrite removals_app, (removals_none c evs Hnorem), Nat.add_0_r in Hc.
    apply in_or_app. left. exact (C5 c Hc).
  - intros c Ht Hf. apply in_app_or in Ht. apply in_app_or in Hf.
    destruct Ht as [Ht|Ht], Hf as [Hf|Hf].
    + exact (C7 c Ht Hf).
    + exact (Hpast c _ Ht (Hnew c _ Hf)).
    + exact (Hpast c _ Hf (Hnew c _ Ht)).
    + pose proof (Hnew c _ Ht). subst c.
      destruct Href as [[_ Hno]|[_ [_ Hno]]]; contradiction.
  - exact Hcons.
Qed.

Ltac in_cases H :=
  repeat (apply in_app_or in H; destruct H as [H|H]);
  cbn [In] in H;
  repeat (match type of H with _ \/ _ => destruct H as [H|H] end);
  try contradiction.

Lemma setup_consistent postId sessionId s :
  Realtime.consistent s -> Realtime.channelRef s = None ->
  Realtime.consistent (Realtime.setup postId sessionId s).
Proof.
  intros Hc Hnone. pose proof (Realtime.never_cleaning_up s Hc) as Hcl.
  set (name := ("comments_" ++ postId ++ "_" ++ sessionId)%string).
  set (ch0 := Realtime.mk_Channel (List.length (Realtime.trace s)) name).
  unfold Realtime.setup, Realtime.call, Realtime.log, Realtime.set_channelRef.
  cbn [Realtime.trace Realtime.throws Realtime.channelRef Realtime.console].
  fold name. fold ch0.
  repeat match goal with
         | |- context [if Realtime.throws s ?n then _ else _] =>
             destruct (Realtime.throws s n)
         end;
    match goal with
    | |- Realtime.consistent (Realtime.mk_Conn ?r ?t ?c ?th) =>
        apply (grow_consistent s (Realtime.mk_Conn r t c th)
                 (skipn (List.length (Realtime.trace s)) t) ch0 Hc Hnone eq_refl)
    end;
    cbn [Realtime.trace Realtime.channelRef Realtime.console];
    rewrite <- ?app_assoc, ?skipn_length_app, ?Hnone; cbn [app];
    unfold Realtime.cleaning_up in *.
  all: try reflexivity.
  all: try (intros e c He; in_cases He; subst e; cbn; congruence).
  all: try (intros He; in_cases He; discriminate He).
  all: try (left; split; [reflexivity|]; intros He; in_cases He; discriminate He).
  all: try (right; split; [reflexivity|]; split; [cbn; auto 6|];
            intros He; in_cases He; discriminate He).
Qed.

Lemma cleanup_consistent s :
  Realtime.consistent s ->
  Realtime.consistent (Realtime.cleanup s)
  /\ Realtime.channelRef (Realtime.cleanup s) = None.
Proof.
  intros Hc. unfold Realtime.cleanup.
  destruct (Realtime.channelRef s) as [c0|] eqn:Href; [|auto].
  destruct Hc as [C2 C3 C4 C5 C7 C6].
  pose proof (C3 c0 Href) as Hsub.
  pose proof (C4 _ c0 Hsub eq_refl) as Hser.
  unfold Realtime.call, Realtime.log, Realtime.set_channelRef.
  cbn [Realtime.trace Realtime.throws Realtime.channelRef Realtime.console fst snd].
  set (t := Realtime.throws s (List.length (Realtime.trace s))).
  set (e0 := Realtime.mk_Event (Realtime.removeChannel c0) t).
  assert (Hone : forall c, Realtime.removals c [e0]
                           = if Realtime.Channel_eqb c0 c then 1%nat else 0%nat).
  { intros c. unfold Realtime.removals. cbn.
    destruct (Realtime.Channel_eqb c0 c); reflexivity. }
  assert (Hold : forall c, Realtime.subscribed c (Realtime.trace s ++ [e0]) ->
                           Realtime.subscribed c (Realtime.trace s)).
  { intros c H. apply in_app_or in H. destruct H as [H|[H|[]]]; [exact H|].
    discriminate H. }
  assert (Hlive : forall c, Realtime.live s c = Realtime.Channel_eqb c0 c).
  { intros c. unfold Realtime.live. rewrite Href. reflexivity. }
  split; [|destruct t; reflexivity].
  assert (Hcons : Realtime.consistent
                    (Realtime.mk_Conn None (Realtime.trace s ++ [e0])
                       (Realtime.console s
                        ++ [Realtime.Log "Unsubscribing from comments channel" None])
                       (Realtime.throws s))).
  { constructor; cbn [Realtime.trace Realtime.channelRef Realtime.console].
    - intros c H. apply Hold in H. rewrite removals_app, Hone, (C2 c H), Hlive.
      unfold Realtime.live. cbn. destruct (Realtime.Channel_eqb c0 c); reflexivity.
    - discriminate.
    - intros e c He Ha. rewrite length_app. cbn [List.length].
      apply in_app_or in He. destruct He as [He|[<-|[]]].
      + pose proof (C4 e c He Ha). lia.
      + cbn in Ha. injection Ha as <-. lia.
    - intros c H. rewrite removals_app, Hone in H. apply in_or_app. left.
      destruct (Realtime.Channel_eqb c0 c) eqn:E.
      + apply Channel_eqb_eq in E. subst c. exact Hsub.
      + apply C5. lia.
    - intros c Ht Hf. apply Hold in Hf. apply in_app_or in Ht.
      destruct Ht as [Ht|[Ht|[]]]; [exact (C7 c Ht Hf)|discriminate Ht].
    - intros H. apply in_app_or in H. destruct H as [H|[H|[]]]; [exact (C6 H)|].
      discriminate H. }
  destruct t; [|exact Hcons].
  destruct Hcons as [D2 D3 D4 D5 D7 D6].
  constructor; cbn [Realtime.trace Realtime.channelRef Realtime.console] in *; auto.
  intros H. apply in_app_or in H. destruct H as [H|[H|[]]]; [exact (D6 H)|].
  discriminate H.
Qed.

(** With no channel referenced, the effect cannot throw. *)
Lemma effect_consistent postId sessionId s :
  Realtime.consistent s -> Realtime.channelRef s = None ->
  let (r, s') := Realtime.effect postId sessionId s in
  Realtime.consistent s'
  /\ (r = Realtime.no_cleanup /\ s' = s \/ r = Realtime.cleanup_fn).
Proof.
  intros Hc Hnone. unfold Realtime.effect. rewrite Hnone.
  destruct (negb (Js.truthy_string postId)); [auto|].
  split; [apply setup_consistent; assumption|auto].
Qed.

Lemma step_consistent e m :
  Realtime.consistent (Realtime.conn m) ->
  (Realtime.pending m = false -> Realtime.channelRef (Realtime.conn m) = None) ->
  exists m', Realtime.step e m = Some m'
             /\ Realtime.consistent (Realtime.conn m')
             /\ (Realtime.pending m' = false ->
                 Realtime.channelRef (Realtime.conn m') = None).
Proof.
  intros Hc Hp. unfold Realtime.step.
  set (c := if Realtime.pending m then Realtime.cleanup (Realtime.conn m)
            else Realtime.conn m).
  assert (Hcc : Realtime.consistent c /\ Realtime.channelRef c = None).
  { unfold c. destruct (Realtime.pending m); [apply cleanup_consistent, Hc|auto]. }
  destruct Hcc as [Hcc Hnone].
  destruct e as [postId sessionId|]; [|eexists; split; [reflexivity|]; auto].
  pose proof (effect_consistent postId sessionId c Hcc Hnone) as H.
  destruct (Realtime.effect postId sessionId c) as [r c'].
  destruct H as [Hc1 [[-> ->] | ->]]; eexists; (split; [reflexivity|]);
    cbn [Realtime.conn Realtime.pending]; split; auto. discriminate.
Qed.

Lemma lifecycle_consistent es :
  forall m,
    Realtime.consistent (Realtime.conn m) ->
    (Realtime.pending m = false -> Realtime.channelRef (Realtime.conn m) = None) ->
    exists m', Realtime.lifecycle es m = Some m'
               /\ Realtime.consistent (Realtime.conn m')
               /\ (Realtime.pending m' = false ->
                   Realtime.channelRef (Realtime.conn m') = None).
Proof.
  induction es as [|e es IH]; intros m Hc Hp; cbn [Realtime.lifecycle]; [eauto|].
  destruct (step_consistent e m Hc Hp) as (m1 & -> & Hc1 & Hp1).
  exact (IH m1 Hc1 Hp1).
Qed.

Lemma first_mount_consistent throws :
  Realtime.consistent (Realtime.conn (Realtime.first_mount throws)).
Proof.
  constructor; cbn; try contradiction; try discriminate; auto.
  unfold Realtime.removals. cbn. lia.
Qed.

(** X13: the realtime channel over the life of the hook.  Whatever the
    sequence of post ids the hook is rendered with, whenever it is
    unmounted, and whichever calls of the client throw: no run of the effect
    throws; the removal at the head of the effect never runs; once the
    cleanup has run or the post id was empty no channel is referenced; every
    channel that was subscribed has been passed to removeChannel exactly
    once, except the referenced one, which has not been yet; and nothing else
    is ever passed to removeChannel. *)
Theorem realtime_channel_lifecycle :
  forall throws es,
    exists m,
      Realtime.lifecycle es (Realtime.first_mount throws) = Some m
      /\ (Realtime.pending m = false -> Realtime.channelRef (Realtime.conn m) = None)
      /\ (forall c, Realtime.subscribed c (Realtime.trace (Realtime.conn m)) ->
            Realtime.removals c (Realtime.trace (Realtime.conn m))
            = if Realtime.live (Realtime.conn m) c then 0%nat else 1%nat)
      /\ (forall c, (0 < Realtime.removals c (Realtime.trace (Realtime.conn m)))%nat ->
            Realtime.subscribed c (Realtime.trace (Realtime.conn m)))
      /\ ~ In Realtime.cleaning_up (Realtime.console (Realtime.conn m)).
Proof.
  intros throws es.
  destruct (lifecycle_consistent es (Realtime.first_mount throws)
              (first_mount_consistent throws) (fun _ => eq_refl))
    as (m & Hm & [C2 C3 C4 C5 C7 C6] & Hp).
  exists m. auto.
Qed.

(** X14: a channel whose subscription threw is lost.  It is never
    referenced and, whatever runs afterwards, never passed to
    removeChannel. *)
Theorem realtime_failed_subscription_never_removed :
  forall throws es m c,
    Realtime.lifecycle es (Realtime.first_mount throws) = Some m ->
    In (Realtime.mk_Event (Realtime.subscribe c) true)
       (Realtime.trace (Realtime.conn m)) ->
    Realtime.removals c (Realtime.trace (Realtime.conn m)) = 0%nat
    /\ Realtime.live (Realtime.conn m) c = false.
Proof.
  intros throws es m c Hrun Hthrew.
  destruct (lifecycle_consistent es (Realtime.first_mount throws)
              (first_mount_consistent throws) (fun _ => eq_refl))
    as (m' & Hm & [C2 C3 C4 C5 C7 C6] & _).
  rewrite Hrun in Hm. injection Hm as <-.
  pose proof (C7 c Hthrew) as Hnot. split.
  - destruct (Realtime.removals c (Realtime.trace (Realtime.conn m))) eqn:E;
      [reflexivity|]. exfalso. apply Hnot, C5. lia.
  - unfold Realtime.live.
    destruct (Realtime.channelRef (Realtime.conn m)) as [c'|] eqn:E; [|reflexivity].
    destruct (Realtime.Channel_eqb c' c) eqn:E2; [|reflexivity].
    apply Channel_eqb_eq in E2. subst c'. exfalso. exact (Hnot (C3 c eq_refl)).
Qed.

Lemma realtime_failed_subscription_never_removed_witness :
  let throws := fun n => Nat.eqb n 3 in
  let es := [Realtime.Render "p1" "k3x"; Realtime.Unmount;
             Realtime.Render "p1" "z9q"; Realtime.Unmount] in
  let c := Realtime.mk_Channel 0 "comments_p1_k3x" in
  exists m,
    Realtime.lifecycle es (Realtime.first_mount throws) = Some m
    /\ In (Realtime.mk_Event (Realtime.subscribe c) true)
          (Realtime.trace (Realtime.conn m))
    /\ In (Realtime.mk_Event (Realtime.channel "comments_p1_k3x") false)
          (Realtime.trace (Realtime.conn m))
    /\ Realtime.removals c (Realtime.trace (Realtime.conn m)) = 0%nat
    /\ Realtime.removals (Realtime.mk_Channel 4 "comments_p1_z9q")
         (Realtime.trace (Realtime.conn m)) = 1%nat.
Proof.
  cbv zeta. eexists. split; [reflexivity|].
  assert (H : In (Realtime.mk_Event
                    (Realtime.subscribe (Realtime.mk_Channel 0 "comments_p1_k3x")) true)
                (Realtime.trace
                   (Realtime.conn
                      (Realtime.mk_Mounted
                         (Realtime.cleanup
                            (snd (Realtime.effect "p1" "z9q"
                                    (Realtime.cleanup
                                       (snd (Realtime.effect "p1" "k3x"
                                               (Realtime.conn
                                                  (Realtime.first_mount
                                                     (fun n => Nat.eqb n 3)))))))))
                         false))))
    by (cbn; auto 8).
  split; [exact H|]. split; [cbn; auto|].
  split; [|reflexivity].
  exact (proj1 (realtime_failed_subscription_never_removed (fun n => Nat.eqb n 3)
                  [Realtime.Render "p1" "k3x"; Realtime.Unmount;
                   Realtime.Render "p1" "z9q"; Realtime.Unmount]
                  _ (Realtime.mk_Channel 0 "comments_p1_k3x") eq_refl H)).
Defined.

(** ** The card's handlers *)

Ltac ui_proj :=
  cbn [Actions.state Actions.actionStatesLoaded Actions.calls Actions.toasts
       Actions.console Actions.set_state Actions.setIsLiked Actions.setLikesCount
       Actions.setIsFollowed Actions.setIsSaved Actions.setIsBlocked
       Actions.setActionStatesLoaded Actions.call Actions.toast Actions.log
       Card.isPlaying Card.isMuted Card.isLiked Card.likesCount Card.showControls
       Card.isFullscreen Card.isFollowed Card.isSaved Card.isBlocked] in *.

Lemma dispatch_visitor p pp e o u :
  Actions.requireAuth o = false -> Actions.user o = None ->
  Actions.dispatch p pp e o u = u.
Proof.
  intros Ha Hu.
  destruct e; cbn [Actions.dispatch];
    unfold Actions.loadActionStates, Actions.handleMenuAction,
      Actions.handleProfileClick, Actions.handleShare, Actions.handleLike;
    rewrite ?Ha, ?Hu; reflexivity.
Qed.

(** X15: a visitor without session changes nothing.  When requireAuth
    answers no and there is no user, no click on the profile, the menu, the
    share or the like button and no run of the loading effect changes a
    state cell, calls anything, or shows or logs anything (what requireAuth
    does of its own is its business). *)
Theorem PredictionCard_visitor_changes_nothing :
  forall prediction prediction_prediction es u,
    (forall e o, In (e, o) es ->
                 Actions.requireAuth o = false /\ Actions.user o = None) ->
    Actions.run prediction prediction_prediction es u = u.
Proof.
  intros p pp es. induction es as [|[e o] es IH]; intros u H; [reflexivity|].
  cbn [Actions.run]. destruct (H e o (or_introl eq_refl)) as [Ha Hu].
  rewrite (dispatch_visitor p pp e o u Ha Hu).
  apply IH. intros e' o' Hin. apply (H e' o'). right. exact Hin.
Qed.

Lemma dispatch_blocked p pp e o u :
  Card.isBlocked (Actions.state (Actions.dispatch p pp e o u)) = true ->
  Card.isBlocked (Actions.state u) = true
  \/ Actions.checkIfUserBlocked o = Some true
     /\ (e = Actions.EffectRun /\ Actions.user o <> None
         \/ e = Actions.MenuAction "block"
            /\ Actions.requireAuth o = true /\ Actions.blockUser o = true).
Proof.
  destruct e as [|action| | |]; cbn [Actions.dispatch].
  - unfold Actions.loadActionStates.
    destruct (Actions.user o) as [uid|]; [|auto].
    destruct (Actions.actionStatesLoaded u); cbn [negb]; [auto|].
    destruct (Actions.checkIfUserFollowed o) as [f|];
      destruct (Actions.checkIfPostSaved o) as [s|];
      destruct (Actions.checkIfUserBlocked o) as [b|]; ui_proj; auto.
    intros ->. right. split; [reflexivity|]. left. split; [reflexivity|discriminate].
  - unfold Actions.handleMenuAction.
    destruct (Actions.requireAuth o); cbn [negb]; [|auto].
    destruct (String.eqb action "follow");
      [destruct (Actions.followUser o);
       [destruct (Actions.checkIfUserFollowed o)|]; ui_proj; auto|].
    destruct (String.eqb action "save");
      [destruct (Actions.savePost o);
       [destruct (Actions.checkIfPostSaved o)|]; ui_proj; auto|].
    destruct (String.eqb action "report");
      [destruct (Actions.reportPost o); ui_proj; auto|].
    destruct (String.eqb action "hide");
      [destruct (Actions.hidePost o); ui_proj; auto|].
    destruct (String.eqb action "block") eqn:E; [|ui_proj; auto].
    apply String.eqb_eq in E. subst action.
    destruct (Actions.blockUser o); [|ui_proj; auto].
    destruct (Actions.checkIfUserBlocked o) as [b|]; ui_proj; auto.
    intros ->. right. split; [reflexivity|]. right. auto.
  - unfold Actions.handleProfileClick.
    destruct (Actions.requireAuth o); ui_proj; auto.
  - unfold Actions.handleShare.
    destruct (Actions.requireAuth o); cbn [negb]; [|auto].
    destruct (Actions.navigator_share o) as [[|]|];
      destruct (Actions.sharePost o); destruct (Actions.clipboard_writeText o);
      ui_proj; auto.
  - unfold Actions.handleLike.
    destruct (Actions.requireAuth o); cbn [negb]; [|auto].
    destruct (Actions.likePost o); [|ui_proj; auto].
    destruct (Card.isLiked (Actions.state u)); ui_proj; auto.
Qed.

(** X16: the card goes away only on the service's word.  If a card that
    was showing renders nothing after some clicks and effect runs, then in
    one of them checkIfUserBlocked answered true: in a run of the loading
    effect with a user, or in the menu's block action after requireAuth
    passed and blockUser resolved. *)
Theorem PredictionCard_hidden_only_when_told_blocked :
  forall prediction prediction_prediction es u,
    Card.isBlocked (Actions.state u) = false ->
    Card.PredictionCard prediction
      (Actions.state (Actions.run prediction prediction_prediction es u)) = None ->
    exists e o,
      In (e, o) es
      /\ Actions.checkIfUserBlocked o = Some true
      /\ (e = Actions.EffectRun /\ Actions.user o <> None
          \/ e = Actions.MenuAction "block"
             /\ Actions.requireAuth o = true /\ Actions.blockUser o = true).
Proof.
  intros p pp es u Hu Hnull.
  assert (Hb : Card.isBlocked (Actions.state (Actions.run p pp es u)) = true).
  { unfold Card.PredictionCard in Hnull.
    destruct (Card.isBlocked (Actions.state (Actions.run p pp es u)));
      [reflexivity|discriminate Hnull]. }
  clear Hnull. revert u Hu Hb.
  induction es as [|[e o] es IH]; intros u Hu Hb; cbn [Actions.run] in Hb.
  - rewrite Hu in Hb. discriminate Hb.
  - destruct (Card.isBlocked (Actions.state (Actions.dispatch p pp e o u))) eqn:E.
    + destruct (dispatch_blocked p pp e o u E) as [H|[H1 H2]];
        [rewrite Hu in H; discriminate H|].
      exists e, o. split; [left; reflexivity|auto].
    + destruct (IH _ E Hb) as (e' & o' & Hin & H).
      exists e', o'. split; [right; exact Hin|exact H].
Qed.

Lemma PredictionCard_visitor_changes_nothing_witness :
  let es := [(Actions.Like, SampleCard.visitor);
             (Actions.MenuAction "block", SampleCard.visitor);
             (Actions.Share, SampleCard.visitor);
             (Actions.EffectRun, SampleCard.visitor)] in
  (forall e o, In (e, o) es ->
               Actions.requireAuth o = false /\ Actions.user o = None)
  /\ Actions.run Sample.a_prediction "1" es SampleCard.showing = SampleCard.showing.
Proof.
  cbv zeta.
  assert (H : forall e o,
             In (e, o) [(Actions.Like, SampleCard.visitor);
                        (Actions.MenuAction "block", SampleCard.visitor);
                        (Actions.Share, SampleCard.visitor);
                        (Actions.EffectRun, SampleCard.visitor)] ->
             Actions.requireAuth o = false /\ Actions.user o = None).
  { intros e o Hin. cbn [In] in Hin.
    repeat (destruct Hin as [Hin|Hin]; [injection Hin as _ <-; split; reflexivity|]).
    destruct Hin. }
  split; [exact H|].
  exact (PredictionCard_visitor_changes_nothing Sample.a_prediction "1" _ _ H).
Defined.

Lemma PredictionCard_hidden_only_when_told_blocked_witness :
  let es := [(Actions.Like, SampleCard.member false);
             (Actions.MenuAction "block", SampleCard.member true)] in
  Card.isBlocked (Actions.state SampleCard.showing) = false
  /\ Card.PredictionCard Sample.a_prediction
       (Actions.state (Actions.run Sample.a_prediction "1" es SampleCard.showing)) = None
  /\ exists e o,
       In (e, o) es /\ Actions.checkIfUserBlocked o = Some true
       /\ (e = Actions.EffectRun /\ Actions.user o <> None
           \/ e = Actions.MenuAction "block"
              /\ Actions.requireAuth o = true /\ Actions.blockUser o = true).
Proof.
  cbv zeta. split; [reflexivity|]. split; [reflexivity|].
  exact (PredictionCard_hidden_only_when_told_blocked Sample.a_prediction "1"
           [(Actions.Like, SampleCard.member false);
            (Actions.MenuAction "block", SampleCard.member true)]
           SampleCard.showing eq_refl eq_refl).
Defined.

(** X17: the like button and the render it was attached by.  When both
    calls go through, two clicks each taken from the latest render put
    every state cell back; two clicks taken from the same render move the
    count by two while the flag flips once. *)
Theorem handleLike_fresh_and_stale_renders :
  forall prediction o1 o2 u,
    Actions.requireAuth o1 = true -> Actions.likePost o1 = true ->
    Actions.requireAuth o2 = true -> Actions.likePost o2 = true ->
    let u1 := Actions.handleLike prediction u o1 u in
    let fresh := Actions.handleLike prediction u1 o2 u1 in
    let stale := Actions.handleLike prediction u o2 u1 in
    Actions.state fresh = Actions.state u
    /\ Card.isLiked (Actions.state stale) = negb (Card.isLiked (Actions.state u))
    /\ Card.likesCount (Actions.state stale)
       = Card.likesCount (Actions.state u)
         + (if Card.isLiked (Actions.state u) then -2 else 2).
Proof.
  intros p o1 o2 u A1 L1 A2 L2. cbv zeta. unfold Actions.handleLike.
  rewrite A1, L1, A2, L2. cbn [negb].
  destruct u as [[pl mu li n sc fs fo sa bl] ld cs ts co].
  destruct li; ui_proj; repeat split; try (f_equal; lia); lia.
Qed.

Lemma handleLike_fresh_and_stale_renders_witness :
  let o := SampleCard.member false in
  let u := SampleCard.showing in
  let u1 := Actions.handleLike Sample.a_prediction u o u in
  Actions.requireAuth o = true /\ Actions.likePost o = true
  /\ Actions.state (Actions.handleLike Sample.a_prediction u1 o u1) = Actions.state u
  /\ Card.likesCount (Actions.state (Actions.handleLike Sample.a_prediction u o u1)) = 5.
Proof.
  cbv zeta. split; [reflexivity|]. split; [reflexivity|].
  destruct (handleLike_fresh_and_stale_renders Sample.a_prediction
              (SampleCard.member false) (SampleCard.member false) SampleCard.showing
              eq_refl eq_refl eq_refl eq_refl) as (H1 & _ & H3).
  split; [exact H1|exact H3].
Defined.

(** X18: a menu action that fails.  handleMenuAction shows its error toast
    exactly when it logs the error; it then has changed no state cell; and
    whenever it does change a state cell it shows nothing.  It never calls
    more than two functions. *)
Theorem handleMenuAction_failure_keeps_state :
  forall prediction action o u,
    let u' := Actions.handleMenuAction prediction action o u in
    let failure := Actions.toast_error "Une erreur est survenue lors de l'opération" in
    (In failure (Actions.shown u u')
     <-> In (Actions.console_error ("Error executing action " ++ action ++ ":")%string)
            (Actions.logged u u'))
    /\ (In failure (Actions.shown u u') ->
        Actions.state u' = Actions.state u /\ Actions.requireAuth o = true)
    /\ (Actions.state u' <> Actions.state u -> Actions.shown u u' = [])
    /\ (List.length (Actions.called u u') <= 2)%nat
    /\ Actions.actionStatesLoaded u' = Actions.actionStatesLoaded u.
Proof.
  intros p action o u. cbv zeta.
  unfold Actions.handleMenuAction, Actions.shown, Actions.logged, Actions.called.
  destruct (Actions.requireAuth o); cbn [negb];
    [|rewrite !skipn_all; cbn; intuition (try contradiction; try lia)].
  repeat match goal with
         | |- context [if String.eqb action ?s then _ else _] =>
             destruct (String.eqb action s)
         | |- context [if ?f o then _ else _] => destruct (f o)
         | |- context [match ?f o with Some _ => _ | None => _ end] => destruct (f o)
         end;
    ui_proj; rewrite ?skipn_length_app, ?skipn_all; rewrite <- ?app_assoc;
    rewrite ?skipn_length_app; cbn [app In List.length];
    intuition (try contradiction; try discriminate; try lia; try congruence).
Qed.

(** X19: what handleShare records and shows.  It changes no state cell; it
    records a share only after the native share resolved or the link was
    copied; and it shows the copy-failure toast right after the copy-success
    toast exactly when the link was copied and recording the share failed. *)
Theorem handleShare_records_and_toasts :
  forall prediction prediction_prediction o u,
    let u' := Actions.handleShare prediction prediction_prediction o u in
    Actions.state u' = Actions.state u
    /\ (forall postId kind,
          In (Actions.call_sharePost postId kind) (Actions.called u u') ->
          Actions.requireAuth o = true
          /\ (kind = "social" /\ Actions.navigator_share o = Some true
              \/ kind = "link" /\ Actions.navigator_share o = None
                 /\ Actions.clipboard_writeText o = true))
    /\ (Actions.shown u u'
        = [Actions.toast_success "Lien copié dans le presse-papier !";
           Actions.toast_error "Impossible de copier le lien"]
        <-> Actions.requireAuth o = true /\ Actions.navigator_share o = None
            /\ Actions.clipboard_writeText o = true /\ Actions.sharePost o = false).
Proof.
  intros p pp o u. cbv zeta.
  unfold Actions.handleShare, Actions.shown, Actions.called.
  destruct (Actions.requireAuth o); cbn [negb];
    [|rewrite !skipn_all; cbn;
      intuition (try contradiction; try discriminate)].
  destruct (Actions.navigator_share o) as [[|]|];
    destruct (Actions.sharePost o); destruct (Actions.clipboard_writeText o);
    ui_proj; rewrite ?skipn_length_app, ?skipn_all; rewrite <- ?app_assoc;
    rewrite ?skipn_length_app; cbn [app In];
    (split; [reflexivity|]); (split; [intros postId kind H|]);
    intuition (try contradiction; try discriminate; try congruence).
Qed.





